(** * Price resolution chain and bulk backfill jobs: a shallow embedding

    The development follows the TypeScript sources:
    - [JS]: the parts of the JavaScript runtime the services rely on
      (IEEE 754 binary64 numbers, [parseFloat], [Number.prototype.toString],
      truthiness, JSON documents);
    - [InterpolationService] (services/interpolation.ts);
    - [MemStorage] and the [IStorage] interface (storage.ts);
    - [RedisService] (services/redis.ts);
    - [AlchemyService] with the retry helper (services/alchemy.ts);
    - the [/api/price] route (routes.ts);
    - [QueueService] (services/queue.ts);
    - the remaining methods of the storage ([MemStorageReports],
      [MemStorageUsers]) and of the cache ([RedisServiceRest]), and the
      [/api/schedule] and [/api/status] routes.

    Asynchronous functions are computations over an explicit [World]
    (state passing with exceptions); [await] is sequencing. *)

From Stdlib Require Import ZArith NArith String Ascii List Bool Lia.
From Stdlib Require Import SpecFloat DecimalString Sorted Permutation.
From stdpp Require Import gmap strings.

Import ListNotations.
Local Open Scope string_scope.
Local Open Scope Z_scope.

(* ===================================================================== *)
(** * The JavaScript runtime                                              *)
(* ===================================================================== *)

Module JS.

(** ** Numbers: IEEE 754 binary64, round to nearest even *)

Definition number := spec_float.

Definition prec : Z := 53.
Definition emax : Z := 1024.

Definition add : number -> number -> number := SFadd prec emax.
Definition sub : number -> number -> number := SFsub prec emax.
Definition mul : number -> number -> number := SFmul prec emax.
Definition div : number -> number -> number := SFdiv prec emax.
Definition abs : number -> number := SFabs.

(** [x > y]: false as soon as one side is NaN. *)
Definition gt (x y : number) : bool := SFltb y x.

Definition NaN : number := S754_nan.

(** The number nearest to an integer (exact below 2^53). *)
Definition of_Z (z : Z) : number := binary_normalize prec emax z 0 false.

(** The number nearest to the quotient of two positive integers. *)
Definition of_ratio (neg : bool) (n d : positive) : number :=
  let '(q, e, l) := SFdiv_core_binary prec emax (Zpos n) 0 (Zpos d) 0 in
  binary_round_aux prec emax neg q e l.

(** The number nearest to [n * 10^e10] (the rounding of a decimal
    literal). *)
Definition of_decimal (neg : bool) (n : N) (e10 : Z) : number :=
  match n with
  | N0 => S754_zero neg
  | Npos p =>
      match e10 with
      | Z0 => binary_round prec emax neg p 0
      | Zpos k => binary_round prec emax neg (p * 10 ^ k)%positive 0
      | Zneg k => of_ratio neg p (10 ^ k)%positive
      end
  end.

(** Structural equality of canonical numbers (distinguishes the two
    zeros; NaN is equal to itself), used to pick the shortest decimal
    that reads back as the same number. *)
Definition same (x y : number) : bool :=
  match x, y with
  | S754_zero a, S754_zero b => Bool.eqb a b
  | S754_infinity a, S754_infinity b => Bool.eqb a b
  | S754_nan, S754_nan => true
  | S754_finite a m e, S754_finite b m' e' =>
      Bool.eqb a b && Pos.eqb m m' && Z.eqb e e'
  | _, _ => false
  end.

(** [Math.floor]. *)
Definition Math_floor (x : number) : number :=
  match x with
  | S754_finite s m (Zneg k) =>
      of_Z (Z.shiftr (if s then Zneg m else Zpos m) (Zpos k))
  | _ => x
  end.

(** Truthiness of a number: [0], [-0] and [NaN] are falsy. *)
Definition truthy_number (x : number) : bool :=
  match x with
  | S754_zero _ | S754_nan => false
  | _ => true
  end.

(** ** parseFloat *)

Definition is_digit (c : ascii) : bool :=
  ((48 <=? nat_of_ascii c) && (nat_of_ascii c <=? 57))%nat.

Definition digit_value (c : ascii) : N := N.of_nat (nat_of_ascii c - 48).

(** White space and line terminators (the ASCII ones: strings are byte
    strings here). *)
Definition is_space (c : ascii) : bool :=
  let n := nat_of_ascii c in
  ((n =? 9) || (n =? 10) || (n =? 11) || (n =? 12) || (n =? 13) || (n =? 32))%nat.

Fixpoint trimStart (s : string) : string :=
  match s with
  | String c r => if is_space c then trimStart r else s
  | EmptyString => s
  end.

(** The longest run of decimal digits at the head of [s]: their number,
    their value (continuing from [acc]) and the rest of the string. *)
Fixpoint span_digits (acc : N) (s : string) : nat * N * string :=
  match s with
  | String c r =>
      if is_digit c then
        let '(k, v, rest) := span_digits (acc * 10 + digit_value c)%N r in
        (S k, v, rest)
      else (O, acc, s)
  | EmptyString => (O, acc, s)
  end.

(** The exponent part [e(+|-)?digits] when present and well formed. *)
Definition exponent_part (s : string) : Z :=
  match s with
  | String c r =>
      if (Ascii.eqb c "e" || Ascii.eqb c "E")%bool then
        let '(neg, r') :=
          match r with
          | String c' r'' =>
              if Ascii.eqb c' "-" then (true, r'')
              else if Ascii.eqb c' "+" then (false, r'')
              else (false, r)
          | EmptyString => (false, r)
          end in
        let '(k, v, _) := span_digits 0 r' in
        match k with
        | O => 0
        | S _ => if neg then - Z.of_N v else Z.of_N v
        end
      else 0
  | EmptyString => 0
  end.

(** [parseFloat]: the longest prefix of the trimmed input that is a
    decimal literal, rounded to a number; NaN when there is none. *)
Definition parseFloat (input : string) : number :=
  let s := trimStart input in
  let '(neg, s1) :=
    match s with
    | String c r =>
        if Ascii.eqb c "-" then (true, r)
        else if Ascii.eqb c "+" then (false, r)
        else (false, s)
    | EmptyString => (false, s)
    end in
  if String.prefix "Infinity" s1 then S754_infinity neg
  else
    let '(ki, vi, r1) := span_digits 0 s1 in
    let '(kf, v, r2) :=
      match r1 with
      | String c r =>
          if Ascii.eqb c "." then span_digits vi r else (O, vi, r1)
      | EmptyString => (O, vi, r1)
      end in
    match (ki + kf)%nat with
    | O => NaN
    | S _ => of_decimal neg v (exponent_part r2 - Z.of_nat kf)
    end.

(** The literal [0.5]. *)
Definition one_half : number := Eval vm_compute in parseFloat "0.5".

(** ** Number.prototype.toString (radix 10) *)

Definition decimal_digits (n : N) : string :=
  NilZero.string_of_uint (N.to_uint n).

Fixpoint zeros (k : nat) : string :=
  match k with
  | O => EmptyString
  | S k' => String "0" (zeros k')
  end.

Definition pow10 (k : Z) : Z := 10 ^ k.

(** For a positive rational [num/den] below one, the number of zeros
    that follow the decimal point. *)
Fixpoint leading_zeros (fuel : nat) (j : Z) (num den : Z) : Z :=
  match fuel with
  | O => j
  | S fuel' =>
      if den <=? num * 10 then j
      else leading_zeros fuel' (j + 1) (num * 10) den
  end.

(** The decimal exponent [n] of a positive rational: [10^(n-1) <= num/den < 10^n]. *)
Definition decimal_exponent (num den : Z) : Z :=
  if den <=? num
  then Z.of_nat (String.length (decimal_digits (Z.to_N (num / den))))
  else - leading_zeros 400 0 num den.

(** The [k]-digit decimal [s * 10^(n-k)] nearest to [num/den] that reads
    back as [x], when there is one. *)
Definition candidate (x : number) (num den n : Z) (k : Z) : option Z :=
  let p := k - n in
  let '(tn, td) :=
    if 0 <=? p then (num * pow10 p, den) else (num, den * pow10 (- p)) in
  let lo := tn / td in
  let r := tn - lo * td in
  let ok s := same (of_decimal false (Z.to_N s) (- p)) x in
  match ok lo, ok (lo + 1) with
  | true, true =>
      match 2 * r ?= td with
      | Lt => Some lo
      | Gt => Some (lo + 1)
      | Eq => Some (if Z.even lo then lo else lo + 1)
      end
  | true, false => Some lo
  | false, true => Some (lo + 1)
  | false, false => None
  end.

Fixpoint shortest (fuel : nat) (x : number) (num den n : Z) (k : Z) : Z * Z :=
  match fuel with
  | O => (0, k)
  | S fuel' =>
      match candidate x num den n k with
      | Some s => (s, k)
      | None => shortest fuel' x num den n (k + 1)
      end
  end.

Fixpoint strip_zeros (fuel : nat) (s : Z) : Z :=
  match fuel with
  | O => s
  | S fuel' => if (s mod 10 =? 0) && (0 <? s) then strip_zeros fuel' (s / 10) else s
  end.

Definition substring_from (i : nat) (s : string) : string :=
  String.substring i (String.length s - i) s.

(** The text of a positive finite number with mantissa [m] and binary
    exponent [e]. *)
Definition positive_toString (m : positive) (e : Z) : string :=
  let x := S754_finite false m e in
  let '(num, den) :=
    if 0 <=? e then (Zpos m * 2 ^ e, 1) else (Zpos m, 2 ^ (- e)) in
  let n0 := decimal_exponent num den in
  let '(s0, k0) := shortest 17 x num den n0 1 in
  let n := n0 + (Z.of_nat (String.length (decimal_digits (Z.to_N s0))) - k0) in
  let digits := decimal_digits (Z.to_N (strip_zeros 20 s0)) in
  let k := Z.of_nat (String.length digits) in
  if (k <=? n) && (n <=? 21) then
    digits ++ zeros (Z.to_nat (n - k))
  else if (0 <? n) && (n <=? 21) then
    String.substring 0 (Z.to_nat n) digits ++ "." ++ substring_from (Z.to_nat n) digits
  else if (-6 <? n) && (n <=? 0) then
    "0." ++ zeros (Z.to_nat (- n)) ++ digits
  else
    let ex := n - 1 in
    let tail := "e" ++ (if ex <? 0 then "-" else "+") ++ decimal_digits (Z.to_N (Z.abs ex)) in
    if k =? 1 then digits ++ tail
    else String.substring 0 1 digits ++ "." ++ substring_from 1 digits ++ tail.

Definition Number_toString (x : number) : string :=
  match x with
  | S754_nan => "NaN"
  | S754_zero _ => "0"
  | S754_infinity s => if s then "-Infinity" else "Infinity"
  | S754_finite s m e =>
      (if s then "-" else "") ++ positive_toString m e
  end.

(** ** Values of type [any] and JSON documents *)

(** Objects list their own properties, with distinct names. Arrays and
    functions do not occur in the price documents and are left out. *)
#[local] Unset Elimination Schemes.
Inductive value :=
| Undefined
| Null
| Bool (b : bool)
| Num (x : number)
| Str (s : string)
| Obj (fields : list (string * value)).
#[local] Set Elimination Schemes.

Definition truthy (v : value) : bool :=
  match v with
  | Undefined | Null => false
  | Bool b => b
  | Num x => truthy_number x
  | Str s => negb (String.eqb s "")
  | Obj _ => true
  end.

Fixpoint lookup_field (name : string) (fields : list (string * value)) : value :=
  match fields with
  | [] => Undefined
  | (k, v) :: rest => if String.eqb k name then v else lookup_field name rest
  end.

(** [v.name] for a value [v] that is neither [null] nor [undefined]
    (the route only reads properties of truthy values). *)
Definition get_prop (v : value) (name : string) : value :=
  match v with
  | Obj fields => lookup_field name fields
  | _ => Undefined
  end.

(** Errors are [Error] objects; only their message is observed. *)
Record Error := mkError { message : string }.

Inductive completion (A : Type) :=
| Return (a : A)
| Throw (e : Error).
Arguments Return {A} a.
Arguments Throw {A} e.

(** The method call [v.toString()]. *)
Definition toString_method (v : value) : completion string :=
  match v with
  | Undefined => Throw (mkError "Cannot read properties of undefined (reading 'toString')")
  | Null => Throw (mkError "Cannot read properties of null (reading 'toString')")
  | Bool b => Return (if b then "true" else "false")
  | Num x => Return (Number_toString x)
  | Str s => Return s
  | Obj fields =>
      match lookup_field "toString" fields with
      | Undefined => Return "[object Object]"
      | _ => Throw (mkError "toString is not a function")
      end
  end.

(** What [JSON.parse (JSON.stringify v)] gives back inside a document:
    properties whose value is [undefined] are dropped, non-finite
    numbers become [null], and [-0] is written [0]. *)
Fixpoint json_normal (v : value) : value :=
  match v with
  | Undefined => Null
  | Num (S754_nan) | Num (S754_infinity _) => Null
  | Num (S754_zero _) => Num (S754_zero false)
  | Obj fields =>
      Obj ((fix members (l : list (string * value)) : list (string * value) :=
              match l with
              | [] => []
              | (k, x) :: rest =>
                  match x with
                  | Undefined => members rest
                  | _ => (k, json_normal x) :: members rest
                  end
              end) fields)
  | _ => v
  end.

(** A string, as stored in Redis: either the JSON text of a document
    (represented by the document [JSON.parse] reads from it), or some
    other text [s], on which [JSON.parse] throws. *)
Inductive text :=
| Json (doc : value)
| Raw (s : string).

(** [JSON.stringify v]: [None] stands for the result [undefined]. *)
Definition JSON_stringify (v : value) : option text :=
  match v with
  | Undefined => None
  | _ => Some (Json (json_normal v))
  end.

Definition JSON_parse (t : text) : completion value :=
  match t with
  | Json doc => Return doc
  | Raw _ => Throw (mkError "Unexpected token in JSON")
  end.

Definition truthy_text (t : text) : bool :=
  match t with
  | Json _ => true
  | Raw s => negb (String.eqb s "")
  end.

(** [s || null] on an optional string: the empty string is falsy. *)
Definition or_null (s : option string) : option string :=
  match s with
  | Some s' => if String.eqb s' "" then None else Some s'
  | None => None
  end.

(** [n || null] on an optional number: [0], [-0] and [NaN] are falsy. *)
Definition number_or_null (n : option number) : option number :=
  match n with
  | Some x => if truthy_number x then Some x else None
  | None => None
  end.

(** The same on an optional integer. *)
Definition integer_or_null (n : option Z) : option Z :=
  match n with
  | Some x => if x =? 0 then None else Some x
  | None => None
  end.

(** ** [Map]: entries in insertion order *)

Section Map.
Context {K V : Type} `{EqDecision K}.

Definition Map := list (K * V).

Fixpoint Map_get (k : K) (m : Map) : option V :=
  match m with
  | [] => None
  | (k', v) :: rest => if decide (k' = k) then Some v else Map_get k rest
  end.

(** [m.set(k, v)]: an existing key keeps its position. *)
Fixpoint Map_set (k : K) (v : V) (m : Map) : Map :=
  match m with
  | [] => [(k, v)]
  | (k', v') :: rest =>
      if decide (k' = k) then (k, v) :: rest else (k', v') :: Map_set k v rest
  end.

Definition Map_values (m : Map) : list V := map snd m.
End Map.
Arguments Map : clear implicits.

End JS.

Import JS.

(* ===================================================================== *)
(** * The shared schema ([@shared/schema])                                *)
(* ===================================================================== *)

(** The schema module is not among the sources; its record types are
    taken from the data model of the specification, with the fields that
    storage.ts, routes.ts and queue.ts read and write. Decimal columns
    ([price], [marketCap], [volume]) are strings, read with [parseFloat];
    ids, day counts and timestamps (unix seconds) are integers, on which
    the arithmetic of numbers is exact; [progress] is a number; dates are
    milliseconds since the epoch; [null] is [None]. *)

Module InsertPriceQuery.
(** Modelled from the spec: [InsertPriceQuery] of the schema module, a
    PriceQuery audit record before it gets its id and date. *)
Record t := mk {
  tokenAddress : string;
  network : string;
  timestamp : Z;
  price : option string;
  source : string }.
End InsertPriceQuery.

Module PriceQuery.
(** Modelled from the spec: [PriceQuery] of the schema module, the audit
    record of a resolved lookup. *)
Record t := mk {
  id : Z;
  tokenAddress : string;
  network : string;
  timestamp : Z;
  price : option string;
  source : string;
  createdAt : Z }.
End PriceQuery.

Module InsertHistoricalPrice.
(** Modelled from the spec: [InsertHistoricalPrice] of the schema module,
    a PricePoint before it gets its id and date. *)
Record t := mk {
  tokenAddress : string;
  network : string;
  timestamp : Z;
  price : string;
  marketCap : option string;
  volume : option string }.
End InsertHistoricalPrice.

Module HistoricalPrice.
(** Modelled from the spec: [HistoricalPrice] of the schema module, the
    PricePoint with identity key (tokenAddress, network, timestamp). *)
Record t := mk {
  id : Z;
  tokenAddress : string;
  network : string;
  timestamp : Z;
  price : string;
  marketCap : option string;
  volume : option string;
  createdAt : Z }.
End HistoricalPrice.

Module InsertBulkFetchJob.
(** Modelled from the spec: [InsertBulkFetchJob] of the schema module. *)
Record t := mk {
  tokenAddress : string;
  network : string;
  status : string;
  progress : option number;
  totalDays : option Z }.
End InsertBulkFetchJob.

Module BulkFetchJob.
(** Modelled from the spec: [BulkFetchJob] of the schema module. *)
Record t := mk {
  id : Z;
  tokenAddress : string;
  network : string;
  status : string;
  progress : option number;
  totalDays : option Z;
  createdAt : Z;
  completedAt : option Z }.
End BulkFetchJob.

(** [Partial<BulkFetchJob>], for the properties the queue worker assigns:
    [None] is an absent property. *)
Module JobUpdates.
Record t := mk {
  status : option string;
  progress : option number;
  totalDays : option Z }.
End JobUpdates.

(** [TokenPrice] (services/alchemy.ts). *)
Module TokenPrice.
Record t := mk {
  price : number;
  timestamp : Z;
  marketCap : option number;
  volume : option number }.
End TokenPrice.

(** Modelled from the spec: [PriceRequest] of the schema module, the
    body of a price lookup once [priceRequestSchema] has parsed it. *)
Record PriceRequest := mkPriceRequest {
  req_token : string;
  req_network : string;
  req_timestamp : Z }.

(* ===================================================================== *)
(** * MemStorage (storage.ts)                                             *)
(* ===================================================================== *)

Module MemStorage.

Record t := mk {
  priceQueries : Map Z PriceQuery.t;
  historicalPrices : Map string HistoricalPrice.t;
  bulkFetchJobs : Map Z BulkFetchJob.t;
  currentQueryId : Z;
  currentPriceId : Z;
  currentJobId : Z }.

(** [new MemStorage()] *)
Definition empty : t := mk [] [] [] 1 1 1.

(** The key of a price point:
    [`${tokenAddress}-${network}-${timestamp}`]. *)
Definition key (tokenAddress network : string) (timestamp : Z) : string :=
  tokenAddress ++ "-" ++ network ++ "-" ++ Number_toString (of_Z timestamp).

(** Every method takes the instant [now] that [new Date()] reads. *)

Definition createPriceQuery (now : Z) (query : InsertPriceQuery.t) (st : t)
  : PriceQuery.t * t :=
  let id := currentQueryId st in
  let priceQuery :=
    PriceQuery.mk id
      (InsertPriceQuery.tokenAddress query)
      (InsertPriceQuery.network query)
      (InsertPriceQuery.timestamp query)
      (or_null (InsertPriceQuery.price query))
      (InsertPriceQuery.source query)
      now in
  (priceQuery,
   mk (Map_set id priceQuery (priceQueries st))
      (historicalPrices st) (bulkFetchJobs st)
      (id + 1) (currentPriceId st) (currentJobId st)).

Definition createHistoricalPrice (now : Z) (price : InsertHistoricalPrice.t) (st : t)
  : HistoricalPrice.t * t :=
  let id := currentPriceId st in
  let historicalPrice :=
    HistoricalPrice.mk id
      (InsertHistoricalPrice.tokenAddress price)
      (InsertHistoricalPrice.network price)
      (InsertHistoricalPrice.timestamp price)
      (InsertHistoricalPrice.price price)
      (or_null (InsertHistoricalPrice.marketCap price))
      (or_null (InsertHistoricalPrice.volume price))
      now in
  let k := key (InsertHistoricalPrice.tokenAddress price)
               (InsertHistoricalPrice.network price)
               (InsertHistoricalPrice.timestamp price) in
  (historicalPrice,
   mk (priceQueries st)
      (Map_set k historicalPrice (historicalPrices st))
      (bulkFetchJobs st)
      (currentQueryId st) (id + 1) (currentJobId st)).

Definition getHistoricalPrice (tokenAddress network : string) (timestamp : Z) (st : t)
  : option HistoricalPrice.t :=
  Map_get (key tokenAddress network timestamp) (historicalPrices st).

(** [Array.prototype.sort] with a comparator: a stable insertion sort
    ([x] goes before the first [y] with [cmp x y <= 0]). *)
Section Sort.
Context {A : Type} (cmp : A -> A -> Z).

Fixpoint insert_sorted (x : A) (l : list A) : list A :=
  match l with
  | [] => [x]
  | y :: rest => if cmp x y <=? 0 then x :: l else y :: insert_sorted x rest
  end.

Definition sort (l : list A) : list A := fold_right insert_sorted [] l.
End Sort.

Definition getNearestHistoricalPrices (tokenAddress network : string) (timestamp : Z) (st : t)
  : option HistoricalPrice.t * option HistoricalPrice.t :=
  let prices :=
    List.filter (fun p => String.eqb (HistoricalPrice.tokenAddress p) tokenAddress
                     && String.eqb (HistoricalPrice.network p) network)
           (Map_values (historicalPrices st)) in
  let before :=
    head (sort (fun a b => HistoricalPrice.timestamp b - HistoricalPrice.timestamp a)
               (List.filter (fun p => HistoricalPrice.timestamp p <? timestamp) prices)) in
  let after :=
    head (sort (fun a b => HistoricalPrice.timestamp a - HistoricalPrice.timestamp b)
               (List.filter (fun p => timestamp <? HistoricalPrice.timestamp p) prices)) in
  (before, after).

Definition createBulkFetchJob (now : Z) (job : InsertBulkFetchJob.t) (st : t)
  : BulkFetchJob.t * t :=
  let id := currentJobId st in
  let bulkFetchJob :=
    BulkFetchJob.mk id
      (InsertBulkFetchJob.tokenAddress job)
      (InsertBulkFetchJob.network job)
      (InsertBulkFetchJob.status job)
      (number_or_null (InsertBulkFetchJob.progress job))
      (integer_or_null (InsertBulkFetchJob.totalDays job))
      now
      None in
  (bulkFetchJob,
   mk (priceQueries st) (historicalPrices st)
      (Map_set id bulkFetchJob (bulkFetchJobs st))
      (currentQueryId st) (currentPriceId st) (id + 1)).

Definition getActiveBulkFetchJobs (st : t) : list BulkFetchJob.t :=
  List.filter (fun job => String.eqb (BulkFetchJob.status job) "pending"
                     || String.eqb (BulkFetchJob.status job) "processing")
         (Map_values (bulkFetchJobs st)).

(** [Object.assign(job, updates)] *)
Definition assign (job : BulkFetchJob.t) (updates : JobUpdates.t) : BulkFetchJob.t :=
  BulkFetchJob.mk
    (BulkFetchJob.id job)
    (BulkFetchJob.tokenAddress job)
    (BulkFetchJob.network job)
    (match JobUpdates.status updates with
     | Some s => s
     | None => BulkFetchJob.status job
     end)
    (match JobUpdates.progress updates with
     | Some p => Some p
     | None => BulkFetchJob.progress job
     end)
    (match JobUpdates.totalDays updates with
     | Some d => Some d
     | None => BulkFetchJob.totalDays job
     end)
    (BulkFetchJob.createdAt job)
    (BulkFetchJob.completedAt job).

Definition stamp_completed (now : Z) (job : BulkFetchJob.t) : BulkFetchJob.t :=
  BulkFetchJob.mk
    (BulkFetchJob.id job) (BulkFetchJob.tokenAddress job) (BulkFetchJob.network job)
    (BulkFetchJob.status job) (BulkFetchJob.progress job) (BulkFetchJob.totalDays job)
    (BulkFetchJob.createdAt job) (Some now).

(** The job record after [updateBulkFetchJob] has mutated it. *)
Definition updated (now : Z) (job : BulkFetchJob.t) (updates : JobUpdates.t) : BulkFetchJob.t :=
  let job' := assign job updates in
  match JobUpdates.status updates with
  | Some s => if String.eqb s "completed" then stamp_completed now job' else job'
  | None => job'
  end.

Definition updateBulkFetchJob (now : Z) (id : Z) (updates : JobUpdates.t) (st : t) : t :=
  match Map_get id (bulkFetchJobs st) with
  | Some job =>
      mk (priceQueries st) (historicalPrices st)
         (Map_set id (updated now job updates) (bulkFetchJobs st))
         (currentQueryId st) (currentPriceId st) (currentJobId st)
  | None => st
  end.

End MemStorage.

(* ===================================================================== *)
(** * The world the services run in                                       *)
(* ===================================================================== *)

(** The Redis server and the connection flag of [RedisService]. An entry
    holds its value and the instant (ms) at which it expires. *)
Module Redis.
Record t := mk {
  connected : bool;
  reachable : bool;
  db : gmap string (text * Z) }.
End Redis.

(** The network: the Alchemy HTTP endpoint and the alchemy-sdk clients.
    Both are deterministic functions of the number of calls made so far
    and of the request. *)
Module Net.
Record FetchBody := mkBody {
  token : string;
  network : string;
  timestamp : Z }.

Inductive ResponseBody :=
| NotJson
| JsonNull
| JsonPrice (p : TokenPrice.t).

Inductive FetchResult :=
| NetworkError
| Response (status : Z) (body : ResponseBody).

(** [response.ok] *)
Definition ok (status : Z) : bool := (200 <=? status) && (status <=? 299).

Inductive Instance := ethAlchemy | polygonAlchemy.

Record t := mk {
  fetch : nat -> FetchBody -> FetchResult;
  fetched : list FetchBody;
  getAssetTransfers : Instance -> nat -> string -> completion (list string);
  getBlock : Instance -> nat -> string -> completion Z;
  sdkCalls : nat }.
End Net.

Record BulkFetchJobData := mkJobData {
  data_tokenAddress : string;
  data_network : string;
  data_jobId : Z }.

(** BullMQ: the queue (absent when the constructor of [QueueService]
    failed), whether its Redis answers, the jobs added and the progress
    values reported with [job.updateProgress]. *)
Module Bull.
Record t := mk {
  queue : bool;
  reachable : bool;
  added : list BulkFetchJobData;
  reported : list number }.
End Bull.

Record World (S : Type) := mkWorld {
  storage : S;
  redis : Redis.t;
  net : Net.t;
  bull : Bull.t;
  clock : Z;             (* Date.now(), in ms *)
  timers : list Z;       (* the waits of setTimeout, in order *)
  jobTrace : list BulkFetchJob.t
    (* history variable: the job records as updateBulkFetchJob left them *)
}.
Arguments mkWorld {S}.
Arguments storage {S}.
Arguments redis {S}.
Arguments net {S}.
Arguments bull {S}.
Arguments clock {S}.
Arguments timers {S}.
Arguments jobTrace {S}.

Section WorldUpdates.
Context {S : Type}.

Definition with_storage {S' : Type} (s : S') (w : World S) : World S' :=
  mkWorld s (redis w) (net w) (bull w) (clock w) (timers w) (jobTrace w).
Definition with_redis (r : Redis.t) (w : World S) : World S :=
  mkWorld (storage w) r (net w) (bull w) (clock w) (timers w) (jobTrace w).
Definition with_net (n : Net.t) (w : World S) : World S :=
  mkWorld (storage w) (redis w) n (bull w) (clock w) (timers w) (jobTrace w).
Definition with_bull (b : Bull.t) (w : World S) : World S :=
  mkWorld (storage w) (redis w) (net w) b (clock w) (timers w) (jobTrace w).
Definition with_trace (tr : list BulkFetchJob.t) (w : World S) : World S :=
  mkWorld (storage w) (redis w) (net w) (bull w) (clock w) (timers w) tr.
End WorldUpdates.

(** ** Asynchronous computations *)

Definition Async (W A : Type) : Type := W -> completion A * W.

Section Async.
Context {W : Type}.

Definition ret {A} (a : A) : Async W A := fun w => (Return a, w).

Definition throw {A} (e : Error) : Async W A := fun w => (Throw e, w).

Definition bind {A B} (m : Async W A) (k : A -> Async W B) : Async W B :=
  fun w =>
    match m w with
    | (Return a, w') => k a w'
    | (Throw e, w') => (Throw e, w')
    end.

(** [try { m } catch (error) { handler(error) }] *)
Definition tryCatch {A} (m : Async W A) (handler : Error -> Async W A) : Async W A :=
  fun w =>
    match m w with
    | (Return a, w') => (Return a, w')
    | (Throw e, w') => handler e w'
    end.

(** A synchronous result that may throw. *)
Definition lift {A} (c : completion A) : Async W A := fun w => (c, w).

(** [for (const x of l) { await body(x) }] *)
Fixpoint forEach {A} (l : list A) (body : A -> Async W unit) : Async W unit :=
  match l with
  | [] => ret tt
  | x :: rest => bind (body x) (fun _ => forEach rest body)
  end.

(** The results of [body] on the items of [l], one call after the
    other. *)
Fixpoint mapM {A B} (body : A -> Async W B) (l : list A) : Async W (list B) :=
  match l with
  | [] => ret []
  | x :: rest =>
      bind (body x) (fun y => bind (mapM body rest) (fun ys => ret (y :: ys)))
  end.
End Async.

Notation "'let!' x ':=' m 'in' k" := (bind m (fun x => k))
  (at level 10, x name, m at level 100, k at level 200).
Notation "'run!' m 'in' k" := (bind m (fun _ => k))
  (at level 10, m at level 100, k at level 200).

Section Timers.
Context {S : Type}.

(** [Date.now()] *)
Definition Date_now : Async (World S) Z := fun w => (Return (clock w), w).

(** [await new Promise(resolve => setTimeout(resolve, ms))] *)
Definition sleep (ms : Z) : Async (World S) unit :=
  fun w =>
    (Return tt,
     mkWorld (storage w) (redis w) (net w) (bull w)
             (clock w + ms) (timers w ++ [ms]) (jobTrace w)).
End Timers.

(** The values [i = 0, step, 2 step, ...] that
    [for (let i = 0; i < length; i += step)] visits. *)
Definition loop_indices (length step : nat) : list nat :=
  map (fun q => q * step)%nat (seq 0 ((length + step - 1) / step)%nat).

(** [array.slice(i, j)] for [0 <= i <= j]. *)
Definition slice {A} (i j : nat) (l : list A) : list A :=
  firstn (j - i) (skipn i l).

(* ===================================================================== *)
(** * The storage interface (storage.ts, [IStorage])                      *)
(* ===================================================================== *)

Module IStorage.
Record t (S : Type) := mk {
  createPriceQuery : InsertPriceQuery.t -> Async (World S) PriceQuery.t;
  createHistoricalPrice : InsertHistoricalPrice.t -> Async (World S) HistoricalPrice.t;
  getHistoricalPrice : string -> string -> Z -> Async (World S) (option HistoricalPrice.t);
  getNearestHistoricalPrices :
    string -> string -> Z ->
    Async (World S) (option HistoricalPrice.t * option HistoricalPrice.t);
  createBulkFetchJob : InsertBulkFetchJob.t -> Async (World S) BulkFetchJob.t;
  getActiveBulkFetchJobs : Async (World S) (list BulkFetchJob.t);
  updateBulkFetchJob : Z -> JobUpdates.t -> Async (World S) unit }.
Arguments mk {S}.
Arguments createPriceQuery {S}.
Arguments createHistoricalPrice {S}.
Arguments getHistoricalPrice {S}.
Arguments getNearestHistoricalPrices {S}.
Arguments createBulkFetchJob {S}.
Arguments getActiveBulkFetchJobs {S}.
Arguments updateBulkFetchJob {S}.
End IStorage.

(** [export const storage = new MemStorage()]: the methods of
    [MemStorage] as promises over the world. None of them rejects. *)
Section MemStorageInstance.

Definition reading {A} (f : MemStorage.t -> A) : Async (World MemStorage.t) A :=
  fun w => (Return (f (storage w)), w).

Definition writing {A} (f : Z -> MemStorage.t -> A * MemStorage.t)
  : Async (World MemStorage.t) A :=
  fun w =>
    let '(a, st) := f (clock w) (storage w) in
    (Return a, with_storage st w).

Definition mem_updateBulkFetchJob (id : Z) (updates : JobUpdates.t)
  : Async (World MemStorage.t) unit :=
  fun w =>
    let st := MemStorage.updateBulkFetchJob (clock w) id updates (storage w) in
    (Return tt,
     with_trace
       (jobTrace w ++
          match Map_get id (MemStorage.bulkFetchJobs st) with
          | Some job => [job]
          | None => []
          end)
       (with_storage st w)).

Definition memStorage : IStorage.t MemStorage.t :=
  IStorage.mk
    (fun query => writing (fun now => MemStorage.createPriceQuery now query))
    (fun price => writing (fun now => MemStorage.createHistoricalPrice now price))
    (fun tokenAddress network timestamp =>
       reading (MemStorage.getHistoricalPrice tokenAddress network timestamp))
    (fun tokenAddress network timestamp =>
       reading (MemStorage.getNearestHistoricalPrices tokenAddress network timestamp))
    (fun job => writing (fun now => MemStorage.createBulkFetchJob now job))
    (reading MemStorage.getActiveBulkFetchJobs)
    mem_updateBulkFetchJob.

End MemStorageInstance.

(* ===================================================================== *)
(** * RedisService (services/redis.ts)                                    *)
(* ===================================================================== *)

Module RedisService.
Section Methods.
Context {S : Type}.

Definition set_connected (b : bool) (w : World S) : World S :=
  with_redis (Redis.mk b (Redis.reachable (redis w)) (Redis.db (redis w))) w.

(** The node-redis client: every command rejects while the server
    cannot be reached. The ['connect'] and ['error'] listeners set the
    [connected] flag. *)
Definition client_connect : Async (World S) unit :=
  fun w =>
    if Redis.reachable (redis w)
    then (Return tt, set_connected true w)
    else (Throw (mkError "connect ECONNREFUSED"), set_connected false w).

Definition client_get (key : string) : Async (World S) (option text) :=
  fun w =>
    if Redis.reachable (redis w)
    then
      (Return match Redis.db (redis w) !! key with
              | Some (value, expires) =>
                  if clock w <? expires then Some value else None
              | None => None
              end, w)
    else (Throw (mkError "The client is closed"), w).

Definition client_setEx (key : string) (ttlSeconds : Z) (value : option text)
  : Async (World S) unit :=
  fun w =>
    match Redis.reachable (redis w), value with
    | true, Some v =>
        (Return tt,
         with_redis
           (Redis.mk (Redis.connected (redis w)) true
                     (<[key := (v, clock w + ttlSeconds * 1000)]> (Redis.db (redis w))))
           w)
    | true, None => (Throw (mkError "Invalid argument type"), w)
    | false, _ => (Throw (mkError "The client is closed"), w)
    end.

Definition connect : Async (World S) unit :=
  fun w =>
    if Redis.connected (redis w) then (Return tt, w)
    else
      tryCatch client_connect
               (fun _ w' => (Return tt, set_connected false w')) w.

Definition get (key : string) : Async (World S) (option text) :=
  tryCatch (run! connect in client_get key) (fun _ => ret None).

Definition set (key : string) (value : option text) (ttlSeconds : Z)
  : Async (World S) unit :=
  tryCatch (run! connect in client_setEx key ttlSeconds value) (fun _ => ret tt).

(** [`price:${tokenAddress}:${network}:${timestamp}`] *)
Definition cacheKey (tokenAddress network : string) (timestamp : Z) : string :=
  "price:" ++ tokenAddress ++ ":" ++ network ++ ":" ++ Number_toString (of_Z timestamp).

Definition getCachedPrice (tokenAddress network : string) (timestamp : Z)
  : Async (World S) value :=
  let key := cacheKey tokenAddress network timestamp in
  let! cached := get key in
  match cached with
  | Some t => if truthy_text t then lift (JSON_parse t) else ret Null
  | None => ret Null
  end.

Definition setCachedPrice (tokenAddress network : string) (timestamp : Z) (price : value)
  : Async (World S) unit :=
  let key := cacheKey tokenAddress network timestamp in
  set key (JSON_stringify price) 300.

End Methods.
End RedisService.

(* ===================================================================== *)
(** * p-retry (the package services/alchemy.ts retries with)              *)
(* ===================================================================== *)

(** The package is not part of the repository; this is its documented
    behaviour. [pRetry(input, options)] runs [input]; when it rejects,
    it waits and runs it again, at most [retries] more times, and
    rejects when they are used up (both callers discard the error). The
    wait before retry number [attempt + 1] is
    [min(max(minTimeout, 1) * factor^attempt, maxTimeout)]; [randomize]
    is off by default. *)
Module PRetry.
Record Options := mk {
  retries : nat;
  factor : Z;
  minTimeout : Z;
  maxTimeout : Z }.

Definition timeout (options : Options) (attempt : nat) : Z :=
  Z.min (Z.max (minTimeout options) 1 * factor options ^ Z.of_nat attempt)
        (maxTimeout options).
End PRetry.

Section PRetryLoop.
Context {Store : Type}.

Fixpoint pRetry_from {A} (options : PRetry.Options) (input : Async (World Store) A)
         (attempt retriesLeft : nat) : Async (World Store) A :=
  tryCatch input
    (fun error =>
       match retriesLeft with
       | O => throw error
       | S remaining =>
           run! sleep (PRetry.timeout options attempt) in
           pRetry_from options input (S attempt) remaining
       end).

Definition pRetry {A} (input : Async (World Store) A) (options : PRetry.Options)
  : Async (World Store) A :=
  pRetry_from options input O (PRetry.retries options).
End PRetryLoop.

(* ===================================================================== *)
(** * AlchemyService (services/alchemy.ts)                                *)
(* ===================================================================== *)

Module AlchemyService.
Section Methods.
Context {Store : Type}.

(** The options both calls pass. *)
Definition retryOptions : PRetry.Options := PRetry.mk 3 2 1000 5000.

Definition getAlchemyInstance (network : string) : Net.Instance :=
  if String.eqb network "polygon" then Net.polygonAlchemy else Net.ethAlchemy.

(** [fetch(url, { method: 'POST', body })]: rejects on a network
    failure. *)
Definition fetch (body : Net.FetchBody) : Async (World Store) (Z * Net.ResponseBody) :=
  fun w =>
    let n := net w in
    let w' :=
      with_net (Net.mk (Net.fetch n) (Net.fetched n ++ [body])
                       (Net.getAssetTransfers n) (Net.getBlock n) (Net.sdkCalls n)) w in
    match Net.fetch n (List.length (Net.fetched n)) body with
    | Net.NetworkError => (Throw (mkError "fetch failed"), w')
    | Net.Response status b => (Return (status, b), w')
    end.

(** [response.json()] *)
Definition response_json (b : Net.ResponseBody) : Async (World Store) (option TokenPrice.t) :=
  match b with
  | Net.NotJson => throw (mkError "Unexpected token in JSON")
  | Net.JsonNull => ret None
  | Net.JsonPrice p => ret (Some p)
  end.

(** The function [getTokenPrice] hands to [pRetry]. *)
Definition priceAttempt (tokenAddress network : string) (timestamp : Z)
  : Async (World Store) (option TokenPrice.t) :=
  let! response := fetch (Net.mkBody tokenAddress network timestamp) in
  if fst response =? 429 then throw (mkError "Rate limited")
  else if negb (Net.ok (fst response))
       then throw (mkError ("HTTP error! status: " ++ Number_toString (of_Z (fst response))))
       else response_json (snd response).

Definition getTokenPrice (tokenAddress network : string) (timestamp : Z)
  : Async (World Store) (option TokenPrice.t) :=
  tryCatch (pRetry (priceAttempt tokenAddress network timestamp) retryOptions)
           (fun _ => ret None).

Definition sdk_call {A} (f : Net.t -> nat -> completion A) : Async (World Store) A :=
  fun w =>
    let n := net w in
    (f n (Net.sdkCalls n),
     with_net (Net.mk (Net.fetch n) (Net.fetched n)
                      (Net.getAssetTransfers n) (Net.getBlock n)
                      (S (Net.sdkCalls n))) w).

(** The function [getTokenCreationDate] hands to [pRetry]; a transfer
    is represented by its [blockNum]. *)
Definition creationAttempt (alchemy : Net.Instance) (tokenAddress : string)
  : Async (World Store) Z :=
  let! transfers :=
    sdk_call (fun n k => Net.getAssetTransfers n alchemy k tokenAddress) in
  match transfers with
  | [] => throw (mkError "No transfers found")
  | firstTransfer :: _ =>
      sdk_call (fun n k => Net.getBlock n alchemy k firstTransfer)
  end.

Definition getTokenCreationDate (tokenAddress network : string)
  : Async (World Store) (option Z) :=
  let alchemy := getAlchemyInstance network in
  tryCatch (let! result := pRetry (creationAttempt alchemy tokenAddress) retryOptions in
            ret (Some result))
           (fun _ => ret None).

(** [Promise.allSettled]: a rejected promise yields [null]. The calls
    of a batch are run one after the other. *)
Definition settled {A} (m : Async (World Store) (option A)) : Async (World Store) (option A) :=
  tryCatch m (fun _ => ret None).

Fixpoint batchLoop (tokenAddress network : string) (timestamps : list Z)
         (indices : list nat) (results : list (option TokenPrice.t))
  : Async (World Store) (list (option TokenPrice.t)) :=
  match indices with
  | [] => ret results
  | i :: rest =>
      let batch := slice i (i + 10) timestamps in
      let! batchResults :=
        mapM (fun timestamp => settled (getTokenPrice tokenAddress network timestamp)) batch in
      run! (if (i + 10 <? List.length timestamps)%nat then sleep 1000 else ret tt) in
      batchLoop tokenAddress network timestamps rest (results ++ batchResults)
  end.

Definition batchGetHistoricalPrices (tokenAddress network : string) (timestamps : list Z)
  : Async (World Store) (list (option TokenPrice.t)) :=
  batchLoop tokenAddress network timestamps
            (loop_indices (List.length timestamps) 10) [].

End Methods.
End AlchemyService.
Import AlchemyService.

(* ===================================================================== *)
(** * InterpolationService (services/interpolation.ts)                    *)
(* ===================================================================== *)

Module InterpolationService.

Record Details := mkDetails {
  beforePrice : number;
  afterPrice : number;
  beforeTimestamp : Z;
  afterTimestamp : Z;
  ratio : number }.

Record InterpolationResult := mkResult {
  price : number;
  source : string;
  details : Details }.

Definition interpolatePrice (targetTimestamp : Z)
           (beforePrice afterPrice : HistoricalPrice.t) : InterpolationResult :=
  let beforeTs := HistoricalPrice.timestamp beforePrice in
  let afterTs := HistoricalPrice.timestamp afterPrice in
  let beforePriceValue := parseFloat (HistoricalPrice.price beforePrice) in
  let afterPriceValue := parseFloat (HistoricalPrice.price afterPrice) in
  let ratio := div (of_Z (targetTimestamp - beforeTs)) (of_Z (afterTs - beforeTs)) in
  let interpolatedPrice :=
    add beforePriceValue (mul (sub afterPriceValue beforePriceValue) ratio) in
  mkResult interpolatedPrice "interpolated"
           (mkDetails beforePriceValue afterPriceValue beforeTs afterTs ratio).

Definition canInterpolate (beforePrice afterPrice : HistoricalPrice.t)
           (targetTimestamp : Z) : bool :=
  let beforeTs := HistoricalPrice.timestamp beforePrice in
  let afterTs := HistoricalPrice.timestamp afterPrice in
  let beforePriceValue := parseFloat (HistoricalPrice.price beforePrice) in
  let afterPriceValue := parseFloat (HistoricalPrice.price afterPrice) in
  if (targetTimestamp <=? beforeTs) || (afterTs <=? targetTimestamp) then false
  else
    let timeGap := afterTs - beforeTs in
    let maxGap := 7 * 24 * 60 * 60 in
    if maxGap <? timeGap then false
    else
      let priceChange := div (abs (sub afterPriceValue beforePriceValue)) beforePriceValue in
      if gt priceChange one_half then false
      else true.

End InterpolationService.

(* ===================================================================== *)
(** * The price route (routes.ts, [POST /api/price])                      *)
(* ===================================================================== *)

Record Response := mkResponse {
  status : Z;
  body : value }.

(** [value?.toString() || null] on an optional number. *)
Definition number_text (x : option number) : option string :=
  or_null (option_map Number_toString x).

Definition optional_number (x : option number) : value :=
  match x with
  | Some n => Num n
  | None => Undefined
  end.

(** [s ? parseFloat(s) : undefined] on a nullable decimal column. *)
Definition parsed_column (s : option string) : value :=
  match or_null s with
  | Some s' => Num (parseFloat s')
  | None => Undefined
  end.

Section Routes.
Context {Store : Type} (storage : IStorage.t Store).

(** The body of the [try] block; the request has been parsed by
    [priceRequestSchema]. *)
Definition priceLookup (request : PriceRequest) : Async (World Store) Response :=
  let token := req_token request in
  let network := req_network request in
  let timestamp := req_timestamp request in
  (* Check Redis cache first *)
  let! cached := RedisService.getCachedPrice token network timestamp in
  if truthy cached then
    let! price := lift (toString_method (get_prop cached "price")) in
    run! IStorage.createPriceQuery storage
           (InsertPriceQuery.mk token network timestamp (Some price) "cache") in
    ret (mkResponse 200
           (Obj [("price", get_prop cached "price");
                 ("source", Str "cache");
                 ("marketCap", get_prop cached "marketCap");
                 ("volume", get_prop cached "volume")]))
  else
  (* Check storage for exact match *)
  let! existingPrice := IStorage.getHistoricalPrice storage token network timestamp in
  match existingPrice with
  | Some existingPrice =>
      let result :=
        Obj [("price", Num (parseFloat (HistoricalPrice.price existingPrice)));
             ("source", Str "storage");
             ("marketCap", parsed_column (HistoricalPrice.marketCap existingPrice));
             ("volume", parsed_column (HistoricalPrice.volume existingPrice))] in
      run! RedisService.setCachedPrice token network timestamp result in
      run! IStorage.createPriceQuery storage
             (InsertPriceQuery.mk token network timestamp
                (Some (HistoricalPrice.price existingPrice)) "storage") in
      ret (mkResponse 200 result)
  | None =>
  (* Try to get from Alchemy *)
  let! alchemyPrice := getTokenPrice token network timestamp in
  match alchemyPrice with
  | Some alchemyPrice =>
      let result :=
        Obj [("price", Num (TokenPrice.price alchemyPrice));
             ("source", Str "alchemy");
             ("marketCap", optional_number (TokenPrice.marketCap alchemyPrice));
             ("volume", optional_number (TokenPrice.volume alchemyPrice))] in
      (* Store in cache and storage *)
      run! RedisService.setCachedPrice token network timestamp result in
      run! IStorage.createHistoricalPrice storage
             (InsertHistoricalPrice.mk token network timestamp
                (Number_toString (TokenPrice.price alchemyPrice))
                (number_text (TokenPrice.marketCap alchemyPrice))
                (number_text (TokenPrice.volume alchemyPrice))) in
      run! IStorage.createPriceQuery storage
             (InsertPriceQuery.mk token network timestamp
                (Some (Number_toString (TokenPrice.price alchemyPrice))) "alchemy") in
      ret (mkResponse 200 result)
  | None =>
  (* Try interpolation *)
  let! nearest := IStorage.getNearestHistoricalPrices storage token network timestamp in
  match nearest with
  | (Some before, Some after) =>
      if InterpolationService.canInterpolate before after timestamp then
        let interpolated := InterpolationService.interpolatePrice timestamp before after in
        let details := InterpolationService.details interpolated in
        let result :=
          Obj [("price", Num (InterpolationService.price interpolated));
               ("source", Str "interpolated");
               ("details",
                Obj [("beforePrice", Num (InterpolationService.beforePrice details));
                     ("afterPrice", Num (InterpolationService.afterPrice details));
                     ("beforeTimestamp", Num (of_Z (InterpolationService.beforeTimestamp details)));
                     ("afterTimestamp", Num (of_Z (InterpolationService.afterTimestamp details)));
                     ("ratio", Num (InterpolationService.ratio details))])] in
        (* Store interpolated result *)
        run! RedisService.setCachedPrice token network timestamp result in
        run! IStorage.createPriceQuery storage
               (InsertPriceQuery.mk token network timestamp
                  (Some (Number_toString (InterpolationService.price interpolated)))
                  "interpolated") in
        ret (mkResponse 200 result)
      else
        ret (mkResponse 404
               (Obj [("error", Str "Price not found");
                     ("message", Str "No historical price data available for the specified timestamp")]))
  | _ =>
      (* No price found *)
      ret (mkResponse 404
             (Obj [("error", Str "Price not found");
                   ("message", Str "No historical price data available for the specified timestamp")]))
  end end end.

(** The handler: whatever the [try] block throws is answered by the
    [catch] block with status 500. *)
Definition postPrice (request : PriceRequest) (w : World Store) : Response * World Store :=
  match priceLookup request w with
  | (Return response, w') => (response, w')
  | (Throw error, w') =>
      (mkResponse 500
         (Obj [("error", Str "Internal server error");
               ("message", Str (message error))]), w')
  end.

End Routes.

(* ===================================================================== *)
(** * QueueService (services/queue.ts)                                    *)
(* ===================================================================== *)

Module QueueService.
Section Methods.
Context {Store : Type} (storage : IStorage.t Store).

(** [this.queue.add('bulk-fetch', data)] *)
Definition queue_add (data : BulkFetchJobData) : Async (World Store) unit :=
  fun w =>
    let b := bull w in
    if Bull.reachable b
    then (Return tt,
          with_bull (Bull.mk (Bull.queue b) true (Bull.added b ++ [data]) (Bull.reported b)) w)
    else (Throw (mkError "connect ECONNREFUSED"), w).

(** [job.updateProgress(progress)] *)
Definition job_updateProgress (progress : number) : Async (World Store) unit :=
  fun w =>
    let b := bull w in
    if Bull.reachable b
    then (Return tt,
          with_bull (Bull.mk (Bull.queue b) true (Bull.added b) (Bull.reported b ++ [progress])) w)
    else (Throw (mkError "connect ECONNREFUSED"), w).

Definition addBulkFetchJob (tokenAddress network : string) : Async (World Store) Z :=
  (* Create job in storage *)
  let! job := IStorage.createBulkFetchJob storage
                (InsertBulkFetchJob.mk tokenAddress network "pending" (Some (of_Z 0)) None) in
  (* Add to queue if available *)
  run! tryCatch
         (fun w =>
            if Bull.queue (bull w)
            then queue_add (mkJobData tokenAddress network (BulkFetchJob.id job)) w
            else (Return tt, w))
         (fun _ => ret tt) in
  ret (BulkFetchJob.id job).

(** The daily timestamps
    [for (let ts = creationTimestamp; ts <= now; ts += 24 * 60 * 60)]. *)
Definition dailyTimestamps (creationTimestamp now : Z) : list Z :=
  map (fun q => creationTimestamp + Z.of_nat q * (24 * 60 * 60))
      (seq 0 (Z.to_nat ((now - creationTimestamp) / (24 * 60 * 60) + 1))).

(** [Math.floor(((i + batchSize) / timestamps.length) * 100)] *)
Definition batchProgress (i batchSize length : nat) : number :=
  Math_floor (mul (div (of_Z (Z.of_nat (i + batchSize))) (of_Z (Z.of_nat length)))
                  (of_Z 100)).

Definition only_status (s : string) : JobUpdates.t := JobUpdates.mk (Some s) None None.

(** One turn of the batch loop of [processJob]. *)
Definition processBatch (tokenAddress network : string) (jobId : Z)
           (timestamps : list Z) (batchSize i : nat) : Async (World Store) unit :=
  let batch := slice i (i + batchSize) timestamps in
  (* Fetch prices for batch *)
  let! prices := batchGetHistoricalPrices tokenAddress network batch in
  (* Store prices in storage *)
  run! forEach (combine batch prices)
         (fun item =>
            match snd item with
            | Some price =>
                run! IStorage.createHistoricalPrice storage
                       (InsertHistoricalPrice.mk tokenAddress network (fst item)
                          (Number_toString (TokenPrice.price price))
                          (number_text (TokenPrice.marketCap price))
                          (number_text (TokenPrice.volume price))) in
                ret tt
            | None => ret tt
            end) in
  (* Update progress *)
  let progress := batchProgress i batchSize (List.length timestamps) in
  run! IStorage.updateBulkFetchJob storage jobId
         (JobUpdates.mk None (Some progress) None) in
  (* Update job progress in Bull *)
  job_updateProgress progress.

(** The [try] block of [processJob]. *)
Definition processJob_try (tokenAddress network : string) (jobId : Z)
  : Async (World Store) unit :=
  (* Update job status to processing *)
  run! IStorage.updateBulkFetchJob storage jobId (only_status "processing") in
  (* Get token creation date *)
  let! creationTimestamp := getTokenCreationDate tokenAddress network in
  match integer_or_null creationTimestamp with
  | None => throw (mkError "Could not determine token creation date")
  | Some creationTimestamp =>
      (* Generate daily timestamps from creation to now *)
      let! millis := Date_now in
      let now := millis / 1000 in
      let timestamps := dailyTimestamps creationTimestamp now in
      (* Update total days *)
      run! IStorage.updateBulkFetchJob storage jobId
             (JobUpdates.mk None None (Some (Z.of_nat (List.length timestamps)))) in
      (* Process in batches *)
      let batchSize := 10%nat in
      run! forEach (loop_indices (List.length timestamps) batchSize)
             (processBatch tokenAddress network jobId timestamps batchSize) in
      (* Mark job as completed *)
      IStorage.updateBulkFetchJob storage jobId
        (JobUpdates.mk (Some "completed") (Some (of_Z 100)) None)
  end.

Definition processJob (job : BulkFetchJobData) : Async (World Store) unit :=
  let tokenAddress := data_tokenAddress job in
  let network := data_network job in
  let jobId := data_jobId job in
  tryCatch (processJob_try tokenAddress network jobId)
    (fun error =>
       run! IStorage.updateBulkFetchJob storage jobId (only_status "failed") in
       throw error).

End Methods.
End QueueService.
Import QueueService.

(* ===================================================================== *)
(** * Vocabulary of the properties                                        *)
(* ===================================================================== *)

(** A price point with the given timestamp and price. *)
Definition point (timestamp : Z) (price : string) : HistoricalPrice.t :=
  HistoricalPrice.mk 1 "0xabc" "ethereum" timestamp price None None 0.

(** A number that is neither a zero nor NaN. *)
Definition nonzero_number (x : number) : Prop :=
  match x with
  | S754_zero _ | S754_nan => False
  | _ => True
  end.

Definition sample_price (price : string) : InsertHistoricalPrice.t :=
  InsertHistoricalPrice.mk "0xabc" "ethereum" 1700000000 price (Some "1000") (Some "50").

(** [frames view m]: running [m] leaves [view] of the world as it was,
    whether [m] returns or throws. *)
Definition frames {W V A : Type} (view : W -> V) (m : Async W A) : Prop :=
  forall w, view (snd (m w)) = view w.

(** What the calls to the network leave alone: everything but the log of
    requests, the clock and the timers. *)
Section NetworkVocabulary.
Context {Store : Type}.
Implicit Type w : World Store.

(** Everything but the log of the network. *)
Definition besides_network (w : World Store)
  : Store * Redis.t * Bull.t * list BulkFetchJob.t
    * (nat -> Net.FetchBody -> Net.FetchResult) :=
  (storage w, redis w, bull w, jobTrace w, Net.fetch (net w)).

(** What one attempt of [getTokenPrice] makes of the endpoint's
    answer. *)
Definition attempt_outcome (answer : Net.FetchResult) : completion (option TokenPrice.t) :=
  match answer with
  | Net.NetworkError => Throw (mkError "fetch failed")
  | Net.Response status b =>
      if status =? 429 then Throw (mkError "Rate limited")
      else if negb (Net.ok status)
           then Throw (mkError ("HTTP error! status: " ++ Number_toString (of_Z status)))
           else match b with
                | Net.NotJson => Throw (mkError "Unexpected token in JSON")
                | Net.JsonNull => Return None
                | Net.JsonPrice p => Return (Some p)
                end
  end.

(** The attempt throws on this answer. *)
Definition rejected (answer : Net.FetchResult) : Prop :=
  exists e, attempt_outcome answer = Throw e.

(** The world after one more request has been sent. *)
Definition fetched_once (request : Net.FetchBody) w : World Store :=
  with_net (Net.mk (Net.fetch (net w)) (Net.fetched (net w) ++ [request])
                   (Net.getAssetTransfers (net w)) (Net.getBlock (net w))
                   (Net.sdkCalls (net w))) w.

(** The waits of the retries that follow attempt number [attempt]. *)
Definition waits (attempt count : nat) : list Z :=
  map (PRetry.timeout retryOptions) (seq attempt count).

End NetworkVocabulary.

(** ** Sample worlds *)

(** An endpoint that answers every request with 404. *)
Definition always_404 : nat -> Net.FetchBody -> Net.FetchResult :=
  fun _ _ => Net.Response 404 Net.NotJson.

(** An endpoint that answers every request with the price 15. *)
Definition price_15 : nat -> Net.FetchBody -> Net.FetchResult :=
  fun _ request =>
    Net.Response 200
      (Net.JsonPrice (TokenPrice.mk (of_Z 15) (Net.timestamp request) None None)).

(** A network whose first transfer of every token is in a block stamped
    1700000000. *)
Definition sample_net (endpoint : nat -> Net.FetchBody -> Net.FetchResult) : Net.t :=
  Net.mk endpoint [] (fun _ _ _ => Return ["0x10"]) (fun _ _ _ => Return 1700000000) 0.

(** A world at the instant [now] (ms) with a reachable Redis holding [db],
    the storage [st] and a reachable queue. *)
Definition sample_world (st : MemStorage.t) (db : gmap string (text * Z))
           (endpoint : nat -> Net.FetchBody -> Net.FetchResult) (now : Z)
  : World MemStorage.t :=
  mkWorld st (Redis.mk false true db) (sample_net endpoint) (Bull.mk true true [] [])
          now [] [].

Definition sample_request : PriceRequest := mkPriceRequest "0xabc" "ethereum" 1700000000.

(** ** The cache, as the route sees it *)

Section CacheVocabulary.
Context {Store : Type}.
Implicit Type w : World Store.

(** The world once [connect] has run: the flag tells whether the server
    could be reached. *)
Definition after_connect w : World Store :=
  if Redis.connected (redis w) then w
  else RedisService.set_connected (Redis.reachable (redis w)) w.

(** The live entry of a key, when the server answers. *)
Definition cache_entry (key : string) w : option text :=
  if Redis.reachable (redis w)
  then match Redis.db (redis w) !! key with
       | Some (value, expires) => if clock w <? expires then Some value else None
       | None => None
       end
  else None.

(** What [RedisService.getCachedPrice] returns or throws. *)
Definition cached_price (request : PriceRequest) w : completion value :=
  match cache_entry (RedisService.cacheKey (req_token request) (req_network request)
                              (req_timestamp request)) w with
  | Some t => if truthy_text t then JSON_parse t else Return Null
  | None => Return Null
  end.

(** The world once [redis.set(key, value, ttl)] has run. *)
Definition after_set (key : string) (value : option text) (ttlSeconds : Z) w : World Store :=
  match Redis.reachable (redis w), value with
  | true, Some v =>
      with_redis
        (Redis.mk true true
                  (<[key := (v, clock w + ttlSeconds * 1000)]> (Redis.db (redis w))))
        w
  | _, _ => after_connect w
  end.
End CacheVocabulary.

(** The answers of the route. *)
Definition internal_error (e : Error) : Response :=
  mkResponse 500 (Obj [("error", Str "Internal server error"); ("message", Str (message e))]).

Definition cache_answer (cached : value) : Response :=
  mkResponse 200
    (Obj [("price", get_prop cached "price");
          ("source", Str "cache");
          ("marketCap", get_prop cached "marketCap");
          ("volume", get_prop cached "volume")]).

(** A world whose cache holds the document [doc] for [sample_request]. *)
Definition cached_world (doc : value) : World MemStorage.t :=
  sample_world MemStorage.empty
    {[ RedisService.cacheKey "0xabc" "ethereum" 1700000000 := (Json doc, 1701209900000) ]}
    always_404 1701209600000.

(** ** The audit log *)

(** The tags the route writes in the audit log. *)
Definition audit_sources : list string := ["cache"; "storage"; "alchemy"; "interpolated"].

(** The tier that satisfies a lookup, in the order of the resolution
    chain: the cache when it holds a (truthy) entry for the key, else the
    storage when it holds a point under the exact key, else the provider
    when it returns a price, else the interpolation when both neighbours
    exist and are eligible; [None] when no tier does (or the cached
    entry cannot be decoded). *)
Definition served_by (request : PriceRequest) (w : World MemStorage.t) : option string :=
  let token := req_token request in
  let network := req_network request in
  let timestamp := req_timestamp request in
  match cached_price request w with
  | Throw _ => None
  | Return cached =>
      if truthy cached then Some "cache"
      else
        match MemStorage.getHistoricalPrice token network timestamp (storage w) with
        | Some _ => Some "storage"
        | None =>
            match fst (getTokenPrice token network timestamp (after_connect w)) with
            | Return (Some _) => Some "alchemy"
            | _ =>
                match MemStorage.getNearestHistoricalPrices token network timestamp (storage w) with
                | (Some before, Some after) =>
                    if InterpolationService.canInterpolate before after timestamp
                    then Some "interpolated"
                    else None
                | _ => None
                end
            end
        end
  end.

(** The next query id is not in use (true of [new MemStorage()] and kept
    by every method). *)
Definition next_query_id_free (st : MemStorage.t) : Prop :=
  Map_get (MemStorage.currentQueryId st) (MemStorage.priceQueries st) = None.

(** Every query id in use is below the next one. *)
Definition query_ids_below (st : MemStorage.t) : Prop :=
  Forall (fun entry => fst entry < MemStorage.currentQueryId st) (MemStorage.priceQueries st).

(** The answers and the audit records of the route, by tier. *)
Definition not_found : Response :=
  mkResponse 404
    (Obj [("error", Str "Price not found");
          ("message", Str "No historical price data available for the specified timestamp")]).

Definition storage_result (existingPrice : HistoricalPrice.t) : value :=
  Obj [("price", Num (parseFloat (HistoricalPrice.price existingPrice)));
       ("source", Str "storage");
       ("marketCap", parsed_column (HistoricalPrice.marketCap existingPrice));
       ("volume", parsed_column (HistoricalPrice.volume existingPrice))].

Definition alchemy_result (alchemyPrice : TokenPrice.t) : value :=
  Obj [("price", Num (TokenPrice.price alchemyPrice));
       ("source", Str "alchemy");
       ("marketCap", optional_number (TokenPrice.marketCap alchemyPrice));
       ("volume", optional_number (TokenPrice.volume alchemyPrice))].

Definition interpolated_result (interpolated : InterpolationService.InterpolationResult) : value :=
  let details := InterpolationService.details interpolated in
  Obj [("price", Num (InterpolationService.price interpolated));
       ("source", Str "interpolated");
       ("details",
        Obj [("beforePrice", Num (InterpolationService.beforePrice details));
             ("afterPrice", Num (InterpolationService.afterPrice details));
             ("beforeTimestamp", Num (of_Z (InterpolationService.beforeTimestamp details)));
             ("afterTimestamp", Num (of_Z (InterpolationService.afterTimestamp details)));
             ("ratio", Num (InterpolationService.ratio details))])].

Definition audit (request : PriceRequest) (price source : string) : InsertPriceQuery.t :=
  InsertPriceQuery.mk (req_token request) (req_network request) (req_timestamp request)
                      (Some price) source.

Definition provider_point (request : PriceRequest) (alchemyPrice : TokenPrice.t)
  : InsertHistoricalPrice.t :=
  InsertHistoricalPrice.mk (req_token request) (req_network request) (req_timestamp request)
    (Number_toString (TokenPrice.price alchemyPrice))
    (number_text (TokenPrice.marketCap alchemyPrice))
    (number_text (TokenPrice.volume alchemyPrice)).

(** The world once the route has cached [result] and logged [query]. *)
Definition cached_and_logged (request : PriceRequest) (result : value)
           (query : InsertPriceQuery.t) (st : MemStorage.t) (w : World MemStorage.t)
  : World MemStorage.t :=
  with_storage (snd (MemStorage.createPriceQuery (clock w) query st))
    (after_set
       (RedisService.cacheKey (req_token request) (req_network request)
                              (req_timestamp request))
       (JSON_stringify result) 300 w).

(** The route on a cache miss, tier by tier. *)
Definition miss_outcome (request : PriceRequest) (w : World MemStorage.t)
  : Response * World MemStorage.t :=
  let token := req_token request in
  let network := req_network request in
  let timestamp := req_timestamp request in
  let w1 := after_connect w in
  match MemStorage.getHistoricalPrice token network timestamp (storage w) with
  | Some existingPrice =>
      (mkResponse 200 (storage_result existingPrice),
       cached_and_logged request (storage_result existingPrice)
         (audit request (HistoricalPrice.price existingPrice) "storage") (storage w) w1)
  | None =>
      let provider := getTokenPrice token network timestamp w1 in
      let w2 := snd provider in
      match fst provider with
      | Return (Some alchemyPrice) =>
          (mkResponse 200 (alchemy_result alchemyPrice),
           cached_and_logged request (alchemy_result alchemyPrice)
             (audit request (Number_toString (TokenPrice.price alchemyPrice)) "alchemy")
             (snd (MemStorage.createHistoricalPrice (clock w2)
                     (provider_point request alchemyPrice) (storage w)))
             w2)
      | _ =>
          match MemStorage.getNearestHistoricalPrices token network timestamp (storage w) with
          | (Some before, Some after) =>
              if InterpolationService.canInterpolate before after timestamp then
                let interpolated :=
                  InterpolationService.interpolatePrice timestamp before after in
                (mkResponse 200 (interpolated_result interpolated),
                 cached_and_logged request (interpolated_result interpolated)
                   (audit request
                          (Number_toString (InterpolationService.price interpolated))
                          "interpolated")
                   (storage w) w2)
              else (not_found, w2)
          | _ => (not_found, w2)
          end
      end
  end.

(** ** Failing collaborators *)

(** A storage none of whose calls succeeds: every promise rejects. *)
Definition rejecting_storage (e : Error) : IStorage.t unit :=
  IStorage.mk (fun _ => throw e) (fun _ => throw e) (fun _ _ _ => throw e)
              (fun _ _ _ => throw e) (fun _ => throw e) (throw e) (fun _ _ => throw e).

(** The storage holding the point (0xabc, ethereum, 1700000000) at 15. *)
Definition stored_15 : MemStorage.t :=
  snd (MemStorage.createHistoricalPrice 0
         (InsertHistoricalPrice.mk "0xabc" "ethereum" 1700000000 "15" None None)
         MemStorage.empty).

(** A world whose Redis holds, under the key of [sample_request], a
    string that is not JSON, while the storage holds the point and the
    provider would answer. *)
Definition garbled_cache_world : World MemStorage.t :=
  sample_world stored_15
    {[ RedisService.cacheKey "0xabc" "ethereum" 1700000000 := (Raw "<html>", 1701209900000) ]}
    price_15 1701209600000.

(** A world whose Redis cannot be reached, over a store of type [unit]. *)
Definition unit_world : World unit :=
  mkWorld tt (Redis.mk false false ∅) (sample_net price_15) (Bull.mk true true [] [])
          1701209600000 [] [].

(** ** The lifecycle of a job *)

(** The transitions of the state machine of a job ([processing] is kept
    by the updates of [totalDays] and [progress]). *)
Inductive job_transition : string -> string -> Prop :=
| picked_up : job_transition "pending" "processing"
| keeps_processing : job_transition "processing" "processing"
| succeeds : job_transition "processing" "completed"
| fails : job_transition "processing" "failed".

(** A history of statuses in which every step is a transition. *)
Fixpoint follows_machine (history : list string) : Prop :=
  match history with
  | current :: (next :: _) as rest => job_transition current next /\ follows_machine rest
  | _ => True
  end.

Definition job_of (id : Z) (w : World MemStorage.t) : option BulkFetchJob.t :=
  Map_get id (MemStorage.bulkFetchJobs (storage w)).

(** The jobs table and its history. *)
Definition job_view (w : World MemStorage.t)
  : Map Z BulkFetchJob.t * list BulkFetchJob.t :=
  (MemStorage.bulkFetchJobs (storage w), jobTrace w).

(** Since the trace [t0], the job [id] has only been left in status
    [processing], and it is stored as the trace last recorded it. *)
Definition processing_since (id : Z) (t0 : list BulkFetchJob.t) (w : World MemStorage.t)
  : Prop :=
  exists steps current,
    job_of id w = Some current
    /\ BulkFetchJob.status current = "processing"
    /\ jobTrace w = (t0 ++ steps ++ [current])%list
    /\ Forall (fun j => BulkFetchJob.status j = "processing") steps.

(** [preserves P m]: running [m] from a world where [P] holds ends,
    whether by returning or by throwing, in a world where [P] holds. *)
Definition preserves {W A : Type} (P : W -> Prop) (m : Async W A) : Prop :=
  forall w, P w -> P (snd (m w)).

(** The world in which the worker has picked the job up. *)
Definition picked (job : BulkFetchJobData) (w : World MemStorage.t) : World MemStorage.t :=
  snd (IStorage.updateBulkFetchJob memStorage (data_jobId job) (only_status "processing") w).

(** The creation timestamp cannot be resolved: [getTokenCreationDate]
    gives [null] (or [0]) once the job is picked up. *)
Definition creation_unresolved (job : BulkFetchJobData) (w : World MemStorage.t) : Prop :=
  exists answer,
    fst (getTokenCreationDate (data_tokenAddress job) (data_network job) (picked job w))
    = Return answer
    /\ integer_or_null answer = None.

(** A world where job 1 has been scheduled for the sample token, at the
    instant [now] (ms); the token was created at 1700000000. *)
Definition scheduled_world (endpoint : nat -> Net.FetchBody -> Net.FetchResult) (now : Z)
  : World MemStorage.t :=
  snd (addBulkFetchJob memStorage "0xabc" "ethereum"
         (sample_world MemStorage.empty ∅ endpoint now)).

Definition sample_job : BulkFetchJobData := mkJobData "0xabc" "ethereum" 1.

(** The same world, with an alchemy-sdk that finds no transfer. *)
Definition no_transfers_world : World MemStorage.t :=
  let w := scheduled_world price_15 1701209600000 in
  with_net (Net.mk price_15 [] (fun _ _ _ => Return []) (fun _ _ _ => Return 1700000000) 0) w.

(** Following the specification: the progress after a batch,
    [floor((timestamps processed so far / totalDays) * 100)]. *)
Definition processed_progress (processed totalDays : nat) : number :=
  Math_floor (mul (div (of_Z (Z.of_nat processed)) (of_Z (Z.of_nat totalDays))) (of_Z 100)).

(** What a job looks like in the trace. *)
Definition job_summary (j : BulkFetchJob.t) : string * option Z * option number :=
  (BulkFetchJob.status j, BulkFetchJob.totalDays j, BulkFetchJob.progress j).

(** The storage holding (0xabc, ethereum) at 10 on day 1700000000 and at
    14 one day later. *)
Definition bracketing_storage : MemStorage.t :=
  snd (MemStorage.createHistoricalPrice 0
         (InsertHistoricalPrice.mk "0xabc" "ethereum" 1700086400 "14" None None)
         (snd (MemStorage.createHistoricalPrice 0
                 (InsertHistoricalPrice.mk "0xabc" "ethereum" 1700000000 "10" None None)
                 MemStorage.empty))).

(** The tag, the price and the details of an answer. *)
Definition answer_summary (response : Response) : Z * value * value :=
  (status response, get_prop (body response) "source", get_prop (body response) "price").

(** The index at which the last batch of [length] timestamps starts. *)
Definition last_batch_start (length : nat) : nat := List.last (loop_indices length 10) O.

(** The progress written after the last batch exceeds 100 when the
    timestamps counted, [last_batch_start + 10], are at least 1.01 times
    those that exist, and is 100 otherwise. *)
Definition last_batch_check (length : nat) : bool :=
  let progress := batchProgress (last_batch_start length) 10 length in
  if (101 * length <=? 100 * (last_batch_start length + 10))%nat
  then gt progress (of_Z 100)
  else same progress (of_Z 100).

(* ===================================================================== *)
(** * The rest of the storage (storage.ts)                                *)
(* ===================================================================== *)

(** [array.slice(0, end)] for an integer [end]; a negative [end] counts
    from the end of the array. *)
Definition slice_to {A} (end_ : Z) (l : list A) : list A :=
  if end_ <? 0 then firstn (Z.to_nat (Z.of_nat (List.length l) + end_)) l
  else firstn (Z.to_nat end_) l.

(** The readers of [MemStorage] behind [GET /api/status]. *)
Module MemStorageReports.

(** [createdAt?.getTime() || 0] *)
Definition time_or_zero (createdAt : Z) : Z := if createdAt =? 0 then 0 else createdAt.

Definition getRecentPriceQueries (limit : Z) (st : MemStorage.t) : list PriceQuery.t :=
  slice_to limit
    (MemStorage.sort
       (fun a b => time_or_zero (PriceQuery.createdAt b) - time_or_zero (PriceQuery.createdAt a))
       (Map_values (MemStorage.priceQueries st))).

Record QueryStats := mkStats {
  totalQueries : Z;
  interpolated : Z;
  avgResponseTime : Z }.

Definition getQueryStats (st : MemStorage.t) : QueryStats :=
  let queries := Map_values (MemStorage.priceQueries st) in
  mkStats (Z.of_nat (List.length queries))
          (Z.of_nat (List.length
                       (List.filter (fun q => String.eqb (PriceQuery.source q) "interpolated")
                                    queries)))
          45.

End MemStorageReports.

(** The user accounts of [MemStorage]: the [users] map and
    [currentUserId], which no other method reads or writes. The type
    [InsertUser] of the schema module is a parameter, with its
    [username]; a [User] is [{ ...insertUser, id }]. *)
Module MemStorageUsers.

Record User (InsertUser : Type) := mkUser {
  id : Z;
  insert : InsertUser }.
Arguments mkUser {InsertUser}.
Arguments id {InsertUser}.
Arguments insert {InsertUser}.

Record t (InsertUser : Type) := mk {
  users : Map Z (User InsertUser);
  currentUserId : Z }.
Arguments mk {InsertUser}.
Arguments users {InsertUser}.
Arguments currentUserId {InsertUser}.

Section Methods.
Context {InsertUser : Type} (username : InsertUser -> string).

(** [new MemStorage()] *)
Definition empty : t InsertUser := mk [] 1.

Definition getUser (id : Z) (st : t InsertUser) : option (User InsertUser) :=
  Map_get id (users st).

Definition getUserByUsername (name : string) (st : t InsertUser)
  : option (User InsertUser) :=
  List.find (fun user => String.eqb (username (insert user)) name) (Map_values (users st)).

Definition createUser (insertUser : InsertUser) (st : t InsertUser)
  : User InsertUser * t InsertUser :=
  let id := currentUserId st in
  let user := mkUser id insertUser in
  (user, mk (Map_set id user (users st)) (id + 1)).

(** The storage after the accounts [inserts] have been created, in
    this order, on [new MemStorage()]. *)
Definition register (inserts : list InsertUser) : t InsertUser :=
  fold_left (fun st insertUser => snd (createUser insertUser st)) inserts empty.

(** The accounts [inserts] with the ids [first], [first + 1], ... *)
Fixpoint numbered (first : Z) (inserts : list InsertUser) : list (User InsertUser) :=
  match inserts with
  | [] => []
  | insertUser :: rest => mkUser first insertUser :: numbered (first + 1) rest
  end.
End Methods.
End MemStorageUsers.

(* ===================================================================== *)
(** * Vocabulary of the properties of the storage                         *)
(* ===================================================================== *)

(** A stored price point of the given token and network. *)
Definition stored_point (tokenAddress network : string) (st : MemStorage.t)
           (p : HistoricalPrice.t) : Prop :=
  In p (Map_values (MemStorage.historicalPrices st))
  /\ HistoricalPrice.tokenAddress p = tokenAddress
  /\ HistoricalPrice.network p = network.

(** No character of the string is a hyphen. *)
Fixpoint hyphen_free (s : string) : bool :=
  match s with
  | EmptyString => true
  | String c r => negb (Ascii.eqb c "-") && hyphen_free r
  end.

(** The calls that write to a [MemStorage], each with the instant at
    which it is made. *)
Inductive StorageCall :=
| CreatePriceQuery (now : Z) (query : InsertPriceQuery.t)
| CreateHistoricalPrice (now : Z) (price : InsertHistoricalPrice.t)
| CreateBulkFetchJob (now : Z) (job : InsertBulkFetchJob.t)
| UpdateBulkFetchJob (now : Z) (id : Z) (updates : JobUpdates.t).

Definition call (st : MemStorage.t) (c : StorageCall) : MemStorage.t :=
  match c with
  | CreatePriceQuery now query => snd (MemStorage.createPriceQuery now query st)
  | CreateHistoricalPrice now price => snd (MemStorage.createHistoricalPrice now price st)
  | CreateBulkFetchJob now job => snd (MemStorage.createBulkFetchJob now job st)
  | UpdateBulkFetchJob now id updates => MemStorage.updateBulkFetchJob now id updates st
  end.

(** The storage after the calls [l], made on [new MemStorage()]. *)
Definition calls (l : list StorageCall) : MemStorage.t := fold_left call l MemStorage.empty.

(** The ids [1, ..., next - 1], in increasing order. *)
Definition ids_before (next : Z) : list Z := map Z.of_nat (seq 1 (Z.to_nat (next - 1))).

(** The tables of a storage are consistent: the audit records and the
    jobs sit under the ids 1, 2, ... in the order of their creation,
    each with its key as its id, and the counters are the next ids;
    every price point sits under the key of its own fields, no key
    occurs twice, and the ids of the points are below the counter. *)
Definition consistent (st : MemStorage.t) : Prop :=
  (1 <= MemStorage.currentQueryId st
   /\ map fst (MemStorage.priceQueries st) = ids_before (MemStorage.currentQueryId st)
   /\ Forall (fun entry => PriceQuery.id (snd entry) = fst entry) (MemStorage.priceQueries st))
  /\ (1 <= MemStorage.currentJobId st
      /\ map fst (MemStorage.bulkFetchJobs st) = ids_before (MemStorage.currentJobId st)
      /\ Forall (fun entry => BulkFetchJob.id (snd entry) = fst entry)
                (MemStorage.bulkFetchJobs st))
  /\ (1 <= MemStorage.currentPriceId st
      /\ List.NoDup (map fst (MemStorage.historicalPrices st))
      /\ Forall (fun entry =>
                   fst entry = MemStorage.key (HistoricalPrice.tokenAddress (snd entry))
                                              (HistoricalPrice.network (snd entry))
                                              (HistoricalPrice.timestamp (snd entry))
                   /\ 1 <= HistoricalPrice.id (snd entry) < MemStorage.currentPriceId st)
                (MemStorage.historicalPrices st)).

(* ===================================================================== *)
(** * The rest of RedisService (services/redis.ts)                        *)
(* ===================================================================== *)

(** The remaining methods of [RedisService]. *)
Module RedisServiceRest.
Section Methods.
Context {S : Type}.

(** [client.del(key)] of node-redis. *)
Definition client_del (key : string) : Async (World S) unit :=
  fun w =>
    if Redis.reachable (redis w)
    then (Return tt,
          with_redis
            (Redis.mk (Redis.connected (redis w)) true (delete key (Redis.db (redis w))))
            w)
    else (Throw (mkError "The client is closed"), w).

Definition del (key : string) : Async (World S) unit :=
  tryCatch (run! RedisService.connect in client_del key) (fun _ => ret tt).

Definition isConnected (w : World S) : bool := Redis.connected (redis w).

End Methods.
End RedisServiceRest.

(** The same world, [elapsed] ms later. *)
Definition later {S : Type} (elapsed : Z) (w : World S) : World S :=
  mkWorld (storage w) (redis w) (net w) (bull w) (clock w + elapsed) (timers w) (jobTrace w).

(* ===================================================================== *)
(** * The other routes (routes.ts)                                        *)
(* ===================================================================== *)

(** [Math.round]: the nearest integer, a tie going up; [-0] for
    [-0.5 <= x < 0]. *)
Definition Math_round (x : number) : number :=
  match x with
  | S754_finite s m (Zneg k) =>
      let n := Z.shiftr (2 * (if s then Zneg m else Zpos m) + 2 ^ Zpos k) (Zpos k + 1) in
      if n =? 0 then S754_zero s else of_Z n
  | _ => x
  end.

(** [x || y] on numbers. *)
Definition number_or (x y : number) : number := if truthy_number x then x else y.

Section ScheduleRoute.
Context {Store : Type} (storage : IStorage.t Store).

(** [POST /api/schedule]; the request has been parsed by
    [bulkFetchRequestSchema]. *)
Definition postSchedule (token network : string) (w : World Store) : Response * World Store :=
  match addBulkFetchJob storage token network w with
  | (Return jobId, w') =>
      (mkResponse 200
         (Obj [("jobId", Num (of_Z jobId));
               ("message", Str "Bulk fetch job scheduled successfully")]), w')
  | (Throw error, w') =>
      (mkResponse 500
         (Obj [("error", Str "Internal server error");
               ("message", Str (message error))]), w')
  end.
End ScheduleRoute.

(** The object [GET /api/status] answers with. *)
Record StatusReport := mkStatusReport {
  redis_connected : bool;
  redis_ttl : string;
  alchemy_connected : bool;
  alchemy_rateLimitHandled : bool;
  database_connected : bool;
  queue_workers : Z;
  queue_activeJobs : Z;
  activeJobs : list BulkFetchJob.t;
  recentQueries : list PriceQuery.t;
  stats_totalQueries : Z;
  stats_cacheHitRate : Z;
  stats_interpolated : number;
  stats_avgResponseTime : Z }.

(** The body of the [try] block of [GET /api/status], over the
    in-memory storage. *)
Definition statusReport : Async (World MemStorage.t) StatusReport :=
  let! activeJobs := IStorage.getActiveBulkFetchJobs memStorage in
  let! recentQueries := reading (MemStorageReports.getRecentPriceQueries 10) in
  let! stats := reading MemStorageReports.getQueryStats in
  fun w =>
    (Return
       (mkStatusReport
          (RedisServiceRest.isConnected w) "5min"
          true true
          true
          3 (Z.of_nat (List.length activeJobs))
          activeJobs
          recentQueries
          (MemStorageReports.totalQueries stats)
          89
          (number_or
             (Math_round
                (mul (div (of_Z (MemStorageReports.interpolated stats))
                          (of_Z (MemStorageReports.totalQueries stats)))
                     (of_Z 100)))
             (of_Z 0))
          (MemStorageReports.avgResponseTime stats)), w).

(** The handler: status 200 with the report, or 500 with the message of
    what the [try] block threw. *)
Definition getStatus (w : World MemStorage.t)
  : (StatusReport + Response) * World MemStorage.t :=
  match statusReport w with
  | (Return report, w') => (inl report, w')
  | (Throw error, w') =>
      (inr (mkResponse 500
              (Obj [("error", Str "Internal server error");
                    ("message", Str (message error))])), w')
  end.

(** The queue after [data] has been handed to it. *)
Definition enqueued (data : BulkFetchJobData) (b : Bull.t) : Bull.t :=
  if Bull.queue b && Bull.reachable b
  then Bull.mk true true (Bull.added b ++ [data]) (Bull.reported b)
  else b.

(* ===================================================================== *)
(** * Vocabulary of the properties of the provider calls                  *)
(* ===================================================================== *)

(** The endpoint accepts every request: each attempt returns at once. *)
Definition accepts_all {Store : Type} (w : World Store) : Prop :=
  forall i body, exists v, attempt_outcome (Net.fetch (net w) i body) = Return v.

(** What the endpoint returns for the requests [bodies], the first of
    which is request number [k]. *)
Fixpoint answers (fetch : nat -> Net.FetchBody -> Net.FetchResult) (k : nat)
         (bodies : list Net.FetchBody) : list (option TokenPrice.t) :=
  match bodies with
  | [] => []
  | body :: rest =>
      match attempt_outcome (fetch k body) with
      | Return v => v
      | Throw _ => None
      end :: answers fetch (S k) rest
  end.

(** The turns [q] of the batch loop, among [count] turns from [start],
    after which more timestamps are left. *)
Definition pauses (start count length : nat) : nat :=
  List.length (List.filter (fun q => (q * 10 + 10 <? length)%nat) (seq start count)).

(** No call of [getAssetTransfers] for the token finds a transfer: each
    one rejects or returns an empty list. *)
Definition finds_no_transfer {Store : Type} (alchemy : Net.Instance) (tokenAddress : string)
           (w : World Store) : Prop :=
  forall k, match Net.getAssetTransfers (net w) alchemy k tokenAddress with
            | Return (_ :: _) => False
            | _ => True
            end.

(* ===================================================================== *)
(** * Vocabulary of the properties of the worker and of interpolation     *)
(* ===================================================================== *)

(** [yields Q R m]: from a world where [Q] holds, [m] returns a value
    that satisfies [R], in a world where [Q] holds. *)
Definition yields {W A : Type} (Q : W -> Prop) (R : A -> Prop) (m : Async W A) : Prop :=
  forall w, Q w -> exists a, fst (m w) = Return a /\ R a /\ Q (snd (m w)).

(** The worker is backfilling job [id]: the job is stored with status
    [processing] and [total] days, and the connection of the queue is
    up. *)
Definition backfilling (id total : Z) (w : World MemStorage.t) : Prop :=
  Bull.reachable (bull w) = true
  /\ exists job,
       job_of id w = Some job
       /\ BulkFetchJob.status job = "processing"
       /\ BulkFetchJob.totalDays job = Some total.

(** The endpoint rejects every request. *)
Definition rejects_all {Store : Type} (w : World Store) : Prop :=
  forall i body, rejected (Net.fetch (net w) i body).

(** A number that is [NaN] or has its sign bit set (a negative number,
    [-0] or [-Infinity]). *)
Definition nan_or_negative (x : number) : Prop :=
  match x with
  | S754_nan | S754_zero true | S754_infinity true | S754_finite true _ _ => True
  | _ => False
  end.

(** A number that is neither [NaN] nor an infinity. *)
Definition finite_number (x : number) : Prop :=
  match x with
  | S754_zero _ | S754_finite _ _ _ => True
  | _ => False
  end.

(* ===================================================================== *)
(** * Properties                                                          *)
(* ===================================================================== *)

(** ** [Map] *)

Section MapFacts.
Context {K V : Type} `{EqDecision K}.
Implicit Types (m : Map K V) (k : K) (v : V).

Lemma Map_get_set_eq k v m : Map_get k (Map_set k v m) = Some v.
Proof.
  induction m as [|[k' v'] m IH]; simpl.
  - destruct (decide (k = k)); congruence.
  - destruct (decide (k' = k)) as [->|Hne]; simpl.
    + destruct (decide (k = k)); congruence.
    + destruct (decide (k' = k)); congruence.
Qed.

Lemma Map_get_set_ne k k' v m : k' <> k -> Map_get k' (Map_set k v m) = Map_get k' m.
Proof.
  intros Hne. induction m as [|[k0 v0] m IH]; simpl.
  - destruct (decide (k = k')); congruence.
  - destruct (decide (k0 = k)) as [->|Hk]; simpl.
    + destruct (decide (k = k')); congruence.
    + destruct (decide (k0 = k')); congruence.
Qed.

(** Setting a key that is present replaces its entry in place. *)
Lemma Map_set_present_length k v v0 m :
  Map_get k m = Some v0 -> List.length (Map_set k v m) = List.length m.
Proof.
  induction m as [|[k' v'] m IH]; simpl; [discriminate|].
  destruct (decide (k' = k)); simpl; intros Hget; [reflexivity|].
  rewrite IH; auto.
Qed.

(** Setting a key that is absent appends the entry. *)
Lemma Map_set_fresh k v m : Map_get k m = None -> Map_set k v m = (m ++ [(k, v)])%list.
Proof.
  induction m as [|[k' v'] m IH]; simpl; [reflexivity|].
  destruct (decide (k' = k)); [discriminate|].
  intros Hget. rewrite IH; auto.
Qed.

Lemma Map_set_values_In k v m : In v (Map_values (Map_set k v m)).
Proof.
  unfold Map_values.
  induction m as [|[k' v'] m IH]; simpl; [auto|].
  destruct (decide (k' = k)); simpl; auto.
Qed.
End MapFacts.

(** ** Interpolation *)

(** C7. Under [before.timestamp < target < after.timestamp],
    [interpolatePrice] returns
    [ratio = (target - before.timestamp) / (after.timestamp - before.timestamp)]
    and [price = before.price + (after.price - before.price) * ratio]
    (binary64 operations on the parsed prices), and echoes the two prices
    and the two timestamps; for before = (1000, 10), after = (2000, 20)
    and target 1500 the price is 15 and the ratio 0.5. *)
Theorem interpolatePrice_linear :
  forall (target : Z) (before after : HistoricalPrice.t),
    HistoricalPrice.timestamp before < target < HistoricalPrice.timestamp after ->
    let beforeValue := parseFloat (HistoricalPrice.price before) in
    let afterValue := parseFloat (HistoricalPrice.price after) in
    let result := InterpolationService.interpolatePrice target before after in
    let details := InterpolationService.details result in
    InterpolationService.ratio details =
      div (of_Z (target - HistoricalPrice.timestamp before))
          (of_Z (HistoricalPrice.timestamp after - HistoricalPrice.timestamp before))
    /\ InterpolationService.price result =
         add beforeValue (mul (sub afterValue beforeValue) (InterpolationService.ratio details))
    /\ InterpolationService.beforePrice details = beforeValue
    /\ InterpolationService.afterPrice details = afterValue
    /\ InterpolationService.beforeTimestamp details = HistoricalPrice.timestamp before
    /\ InterpolationService.afterTimestamp details = HistoricalPrice.timestamp after
    /\ (HistoricalPrice.timestamp before = 1000 -> HistoricalPrice.price before = "10" ->
        HistoricalPrice.timestamp after = 2000 -> HistoricalPrice.price after = "20" ->
        target = 1500 ->
        InterpolationService.price result = parseFloat "15.0"
        /\ InterpolationService.ratio details = parseFloat "0.5").
Proof.
  intros target before after Hbetween.
  cbv zeta. unfold InterpolationService.interpolatePrice. simpl.
  do 6 (split; [reflexivity|]).
  intros Hbt Hbp Hat Hap ->. rewrite Hbt, Hbp, Hat, Hap.
  split; vm_compute; reflexivity.
Qed.

Lemma interpolatePrice_linear_witness :
  InterpolationService.price
    (InterpolationService.interpolatePrice 1500 (point 1000 "10") (point 2000 "20"))
  = of_Z 15
  /\ InterpolationService.ratio
       (InterpolationService.details
          (InterpolationService.interpolatePrice 1500 (point 1000 "10") (point 2000 "20")))
     = one_half.
Proof.
  destruct (interpolatePrice_linear 1500 (point 1000 "10") (point 2000 "20"))
    as (_ & _ & _ & _ & _ & _ & Hex).
  - simpl. lia.
  - destruct Hex as [Hp Hr]; try reflexivity.
    split.
    + rewrite Hp. vm_compute. reflexivity.
    + rewrite Hr. vm_compute. reflexivity.
Defined.

(** With both prices [0] the relative change is [0 / 0 = NaN]; the
    comparison [NaN > 0.5] is false and the pair is accepted. *)
Lemma canInterpolate_zero_prices :
  same (parseFloat (HistoricalPrice.price (point 1000 "0"))) (of_Z 0) = true
  /\ InterpolationService.canInterpolate (point 1000 "0") (point 2000 "0") 1500 = true.
Proof. split; vm_compute; reflexivity. Qed.

(** C5, as amended. [canInterpolate] returns false when the target is
    not strictly between the two timestamps, when the two timestamps are
    more than 604800 seconds apart, when the relative price change
    [|after - before| / before] exceeds 0.5, and when [before.price] is
    [0] (parsed as [+0]) while [after.price] is a number other than
    zero: the quotient is then [Infinity]. *)
Theorem canInterpolate_rejects :
  forall (before after : HistoricalPrice.t) (target : Z),
    let beforeValue := parseFloat (HistoricalPrice.price before) in
    let afterValue := parseFloat (HistoricalPrice.price after) in
    target <= HistoricalPrice.timestamp before
    \/ HistoricalPrice.timestamp after <= target
    \/ HistoricalPrice.timestamp after - HistoricalPrice.timestamp before > 604800
    \/ gt (div (abs (sub afterValue beforeValue)) beforeValue) one_half = true
    \/ (beforeValue = of_Z 0 /\ nonzero_number afterValue) ->
    InterpolationService.canInterpolate before after target = false.
Proof.
  intros before after target beforeValue afterValue Hcase.
  unfold InterpolationService.canInterpolate.
  fold beforeValue afterValue.
  destruct (target <=? HistoricalPrice.timestamp before) eqn:Hlow; [reflexivity|].
  destruct (HistoricalPrice.timestamp after <=? target) eqn:Hhigh; [reflexivity|].
  simpl.
  destruct (7 * 24 * 60 * 60 <? HistoricalPrice.timestamp after - HistoricalPrice.timestamp before)
    eqn:Hgap; [reflexivity|].
  destruct Hcase as [H|[H|[H|[H|[Hzero Hnz]]]]]; try lia.
  - now rewrite H.
  - rewrite Hzero. destruct afterValue as [s| s | |s m e]; simpl in Hnz; try contradiction;
      reflexivity.
Qed.

Lemma canInterpolate_rejects_witness :
  InterpolationService.canInterpolate (point 1000 "0") (point 2000 "20") 1500 = false.
Proof.
  apply canInterpolate_rejects.
  right; right; right; right. split; vm_compute; [reflexivity | exact I].
Defined.

(** ** Storage of price points *)

(** A second [createHistoricalPrice] under the same key replaces the
    stored price. *)
Lemma createHistoricalPrice_replaces_price :
  let st1 := snd (MemStorage.createHistoricalPrice 0 (sample_price "1.5") MemStorage.empty) in
  let st2 := snd (MemStorage.createHistoricalPrice 1 (sample_price "2.5") st1) in
  option_map HistoricalPrice.price
    (MemStorage.getHistoricalPrice "0xabc" "ethereum" 1700000000 st1) = Some "1.5"
  /\ option_map HistoricalPrice.price
       (MemStorage.getHistoricalPrice "0xabc" "ethereum" 1700000000 st2) = Some "2.5".
Proof. split; vm_compute; reflexivity. Qed.

Lemma createHistoricalPrice_lookup now price st :
  MemStorage.getHistoricalPrice
    (InsertHistoricalPrice.tokenAddress price)
    (InsertHistoricalPrice.network price)
    (InsertHistoricalPrice.timestamp price)
    (snd (MemStorage.createHistoricalPrice now price st))
  = Some (fst (MemStorage.createHistoricalPrice now price st)).
Proof.
  unfold MemStorage.getHistoricalPrice, MemStorage.createHistoricalPrice. simpl.
  apply Map_get_set_eq.
Qed.

(** C4, as amended. [createHistoricalPrice] stores the record under the
    key of its (tokenAddress, network, timestamp) with [Map.set]: when a
    point already exists under that key, a second call with the same key
    replaces it, so the lookup returns the price, marketCap and volume of
    the second call, and the table still holds one point for the key. *)
Theorem createHistoricalPrice_last_write_wins :
  forall (now1 now2 : Z) (first second : InsertHistoricalPrice.t) (st : MemStorage.t),
    InsertHistoricalPrice.tokenAddress second = InsertHistoricalPrice.tokenAddress first ->
    InsertHistoricalPrice.network second = InsertHistoricalPrice.network first ->
    InsertHistoricalPrice.timestamp second = InsertHistoricalPrice.timestamp first ->
    let st1 := snd (MemStorage.createHistoricalPrice now1 first st) in
    let st2 := snd (MemStorage.createHistoricalPrice now2 second st1) in
    exists stored,
      MemStorage.getHistoricalPrice
        (InsertHistoricalPrice.tokenAddress first)
        (InsertHistoricalPrice.network first)
        (InsertHistoricalPrice.timestamp first) st2 = Some stored
      /\ HistoricalPrice.price stored = InsertHistoricalPrice.price second
      /\ HistoricalPrice.marketCap stored = or_null (InsertHistoricalPrice.marketCap second)
      /\ HistoricalPrice.volume stored = or_null (InsertHistoricalPrice.volume second)
      /\ List.length (MemStorage.historicalPrices st2)
         = List.length (MemStorage.historicalPrices st1).
Proof.
  intros now1 now2 first second st Htoken Hnetwork Htimestamp st1 st2.
  exists (fst (MemStorage.createHistoricalPrice now2 second st1)).
  split.
  - rewrite <- Htoken, <- Hnetwork, <- Htimestamp. apply createHistoricalPrice_lookup.
  - repeat split.
    subst st2. unfold MemStorage.createHistoricalPrice at 1. simpl.
    rewrite Htoken, Hnetwork, Htimestamp.
    eapply Map_set_present_length.
    apply (createHistoricalPrice_lookup now1 first st).
Qed.

Lemma createHistoricalPrice_last_write_wins_witness :
  exists stored,
    MemStorage.getHistoricalPrice "0xabc" "ethereum" 1700000000
      (snd (MemStorage.createHistoricalPrice 1 (sample_price "2.5")
              (snd (MemStorage.createHistoricalPrice 0 (sample_price "1.5") MemStorage.empty))))
    = Some stored
    /\ HistoricalPrice.price stored = "2.5".
Proof.
  destruct (createHistoricalPrice_last_write_wins 0 1 (sample_price "1.5") (sample_price "2.5")
              MemStorage.empty) as (stored & Hget & Hprice & _); try reflexivity.
  exists stored. split; [exact Hget | exact Hprice].
Defined.

(** ** Scheduling a backfill *)

(** C10. The job that [addBulkFetchJob] creates is stored with
    [progress = null] (the scheduler passes [0], which
    [createBulkFetchJob] turns into [null]) and [totalDays = null], in
    status [pending], and [getActiveBulkFetchJobs] lists it. *)
Theorem addBulkFetchJob_stores_null_progress :
  forall (tokenAddress network : string) (w : World MemStorage.t),
    let result := addBulkFetchJob memStorage tokenAddress network w in
    exists job,
      fst result = Return (BulkFetchJob.id job)
      /\ Map_get (BulkFetchJob.id job) (MemStorage.bulkFetchJobs (storage (snd result))) = Some job
      /\ BulkFetchJob.progress job = None
      /\ BulkFetchJob.totalDays job = None
      /\ BulkFetchJob.status job = "pending"
      /\ BulkFetchJob.tokenAddress job = tokenAddress
      /\ BulkFetchJob.network job = network
      /\ In job (MemStorage.getActiveBulkFetchJobs (storage (snd result))).
Proof.
  intros tokenAddress network w result.
  set (job := BulkFetchJob.mk (MemStorage.currentJobId (storage w)) tokenAddress network
                              "pending" None None (clock w) None).
  exists job.
  assert (Hstorage : storage (snd result) =
                     snd (MemStorage.createBulkFetchJob (clock w)
                            (InsertBulkFetchJob.mk tokenAddress network "pending"
                                                   (Some (of_Z 0)) None) (storage w))
                     /\ fst result = Return (BulkFetchJob.id job)).
  { subst result. unfold addBulkFetchJob, bind, tryCatch, ret, queue_add. simpl.
    destruct (Bull.queue (bull w)); simpl; [destruct (Bull.reachable (bull w))|]; simpl; auto. }
  destruct Hstorage as [-> ->].
  split; [reflexivity|].
  split; [apply Map_get_set_eq|].
  do 5 (split; [reflexivity|]).
  unfold MemStorage.getActiveBulkFetchJobs. apply filter_In. split.
  - apply (Map_set_values_In (BulkFetchJob.id job) job).
  - reflexivity.
Qed.

(** ** Frame conditions *)

Section Frames.
Context {W V : Type} (view : W -> V).

Lemma frames_ret {A} (a : A) : frames view (ret a).
Proof. intros w; reflexivity. Qed.

Lemma frames_throw {A} e : frames view (@throw W A e).
Proof. intros w; reflexivity. Qed.

Lemma frames_lift {A} (c : completion A) : frames view (lift c).
Proof. intros w; reflexivity. Qed.

Lemma frames_bind {A B} (m : Async W A) (k : A -> Async W B) :
  frames view m -> (forall a, frames view (k a)) -> frames view (bind m k).
Proof.
  intros Hm Hk w. unfold bind. specialize (Hm w).
  destruct (m w) as [[a|e] w']; simpl in *; [rewrite Hk|]; exact Hm.
Qed.

Lemma frames_tryCatch {A} (m : Async W A) (handler : Error -> Async W A) :
  frames view m -> (forall e, frames view (handler e)) -> frames view (tryCatch m handler).
Proof.
  intros Hm Hh w. unfold tryCatch. specialize (Hm w).
  destruct (m w) as [[a|e] w']; simpl in *; [|rewrite Hh]; exact Hm.
Qed.

Lemma frames_forEach {A} (l : list A) (body : A -> Async W unit) :
  (forall x, frames view (body x)) -> frames view (forEach l body).
Proof.
  intros Hbody. induction l as [|x l IH]; simpl.
  - apply frames_ret.
  - apply frames_bind; auto.
Qed.

Lemma frames_mapM {A B} (body : A -> Async W B) (l : list A) :
  (forall x, frames view (body x)) -> frames view (mapM body l).
Proof.
  intros Hbody. induction l as [|x l IH]; simpl.
  - apply frames_ret.
  - apply frames_bind; [auto|]. intros y.
    apply frames_bind; [auto|]. intros ys. apply frames_ret.
Qed.

Lemma frames_if {A} (b : bool) (m1 m2 : Async W A) :
  frames view m1 -> frames view m2 -> frames view (if b then m1 else m2).
Proof. destruct b; auto. Qed.
End Frames.

Create HintDb frames discriminated.
#[export] Hint Resolve frames_ret frames_throw frames_lift frames_if : frames.

Section NetworkFrame.
Context {Store : Type}.

Lemma frames_sleep ms : frames besides_network (@sleep Store ms).
Proof. intros w; reflexivity. Qed.

Lemma frames_fetch request : frames besides_network (@fetch Store request).
Proof.
  intros w. unfold fetch.
  destruct (Net.fetch (net w) _ request); reflexivity.
Qed.

Lemma frames_sdk_call {A} f : frames besides_network (@sdk_call Store A f).
Proof. intros w; reflexivity. Qed.

Lemma frames_pRetry_from {V A} (view : World Store -> V) options
      (input : Async (World Store) A) remaining :
  (forall ms, frames view (@sleep Store ms)) ->
  frames view input ->
  forall attempt, frames view (pRetry_from options input attempt remaining).
Proof.
  intros Hsleep Hinput. induction remaining as [|remaining IH]; intros attempt; simpl.
  - apply frames_tryCatch; auto with frames.
  - apply frames_tryCatch; [assumption|]. intros e.
    apply frames_bind; [apply Hsleep|]. intros _. apply IH.
Qed.

Lemma frames_priceAttempt tokenAddress network timestamp :
  frames besides_network (@priceAttempt Store tokenAddress network timestamp).
Proof.
  unfold priceAttempt. apply frames_bind; [apply frames_fetch|].
  intros [st b]. simpl. repeat apply frames_if; auto with frames.
  destruct b; simpl; auto with frames.
Qed.

Lemma frames_getTokenPrice tokenAddress network timestamp :
  frames besides_network (@getTokenPrice Store tokenAddress network timestamp).
Proof.
  unfold getTokenPrice, pRetry.
  apply frames_tryCatch; [|auto with frames].
  apply frames_pRetry_from; [apply frames_sleep | apply frames_priceAttempt].
Qed.

Lemma frames_getTokenCreationDate tokenAddress network :
  frames besides_network (@getTokenCreationDate Store tokenAddress network).
Proof.
  unfold getTokenCreationDate, pRetry.
  apply frames_tryCatch; [|auto with frames].
  apply frames_bind; [|auto with frames].
  apply frames_pRetry_from; [apply frames_sleep|]. unfold creationAttempt.
  apply frames_bind; [apply frames_sdk_call|].
  intros [|firstTransfer rest]; [auto with frames | apply frames_sdk_call].
Qed.

(** Resolving the creation date makes no request to the price
    endpoint. *)
Lemma getTokenCreationDate_fetched tokenAddress network :
  frames (fun w : World Store => Net.fetched (net w))
         (getTokenCreationDate tokenAddress network).
Proof.
  unfold getTokenCreationDate, pRetry.
  apply frames_tryCatch; [|auto with frames].
  apply frames_bind; [|auto with frames].
  apply frames_pRetry_from; [intros ms w; reflexivity|]. unfold creationAttempt.
  apply frames_bind; [intros w; reflexivity|].
  intros [|firstTransfer rest]; [auto with frames | intros w; reflexivity].
Qed.

Lemma frames_batchGetHistoricalPrices tokenAddress network timestamps :
  frames besides_network (@batchGetHistoricalPrices Store tokenAddress network timestamps).
Proof.
  unfold batchGetHistoricalPrices.
  generalize (loop_indices (List.length timestamps) 10) as indices.
  generalize (@nil (option TokenPrice.t)) as results.
  intros results indices. revert results.
  induction indices as [|i indices IH]; intros results; simpl; [auto with frames|].
  apply frames_bind.
  - apply frames_mapM. intros timestamp. unfold settled.
    apply frames_tryCatch; [apply frames_getTokenPrice | auto with frames].
  - intros batchResults. apply frames_bind; [|intros _; apply IH].
    apply frames_if; [apply frames_sleep | auto with frames].
Qed.
End NetworkFrame.

(** ** The retry policy of the provider calls *)

Section RetryPolicy.
Context {Store : Type}.
Implicit Type w : World Store.

Lemma priceAttempt_run tokenAddress network timestamp w :
  priceAttempt tokenAddress network timestamp w
  = (attempt_outcome
       (Net.fetch (net w) (List.length (Net.fetched (net w)))
                  (Net.mkBody tokenAddress network timestamp)),
     fetched_once (Net.mkBody tokenAddress network timestamp) w).
Proof.
  unfold priceAttempt, bind, fetch, attempt_outcome, fetched_once.
  destruct (Net.fetch (net w) _ _) as [|st b]; [reflexivity|]. simpl.
  destruct (st =? 429); [reflexivity|].
  destruct (negb (Net.ok st)); [reflexivity|].
  destruct b; reflexivity.
Qed.

Lemma pRetry_from_last {A} options (input : Async (World Store) A) attempt w :
  pRetry_from options input attempt 0 w = input w.
Proof. simpl. unfold tryCatch, throw. destruct (input w) as [[a|e] w']; reflexivity. Qed.

Lemma pRetry_from_retry {A} options (input : Async (World Store) A) attempt remaining w :
  pRetry_from options input attempt (S remaining) w
  = match input w with
    | (Return a, w') => (Return a, w')
    | (Throw e, w') =>
        pRetry_from options input (S attempt) remaining
                    (snd (sleep (PRetry.timeout options attempt) w'))
    end.
Proof. simpl. unfold tryCatch. destruct (input w) as [[a|e] w']; reflexivity. Qed.

Lemma pRetry_from_priceAttempt tokenAddress network timestamp :
  forall (remaining attempt : nat) w,
    let request := Net.mkBody tokenAddress network timestamp in
    let answer (i : nat) :=
      Net.fetch (net w) (List.length (Net.fetched (net w)) + i) request in
    let result :=
      pRetry_from retryOptions (priceAttempt tokenAddress network timestamp)
                  attempt remaining w in
    exists attempts : nat,
      (1 <= attempts <= S remaining)%nat
      /\ Net.fetched (net (snd result))
         = (Net.fetched (net w) ++ repeat request attempts)%list
      /\ timers (snd result) = (timers w ++ waits attempt (attempts - 1))%list
      /\ (forall i, (i < attempts - 1)%nat -> rejected (answer i))
      /\ attempt_outcome (answer (attempts - 1)%nat) = fst result
      /\ (rejected (answer (attempts - 1)%nat) -> attempts = S remaining).
Proof.
  induction remaining as [|remaining IH]; intros attempt w request answer result.
  - exists 1%nat. subst result. rewrite pRetry_from_last, priceAttempt_run. fold request.
    assert (Hanswer : Net.fetch (net w) (List.length (Net.fetched (net w))) request = answer 0%nat)
      by (unfold answer; f_equal; lia).
    rewrite Hanswer. simpl.
    split; [lia|]. split; [reflexivity|].
    split; [unfold waits; simpl; now rewrite app_nil_r|].
    split; [intros i Hi; lia|]. split; auto.
  - assert (Hanswer : Net.fetch (net w) (List.length (Net.fetched (net w))) request = answer 0%nat)
      by (unfold answer; f_equal; lia).
    assert (Hresult :
             result
             = match attempt_outcome (answer 0%nat) with
               | Return v => (Return v, fetched_once request w)
               | Throw e =>
                   pRetry_from retryOptions (priceAttempt tokenAddress network timestamp)
                               (S attempt) remaining
                               (snd (sleep (PRetry.timeout retryOptions attempt)
                                           (fetched_once request w)))
               end).
    { subst result. rewrite pRetry_from_retry, priceAttempt_run. fold request.
      rewrite Hanswer. destruct (attempt_outcome (answer 0%nat)); reflexivity. }
    clearbody result. subst result.
    destruct (attempt_outcome (answer 0%nat)) as [v|e] eqn:Hout.
    + exists 1%nat. simpl.
      split; [lia|]. split; [reflexivity|].
      split; [unfold waits; simpl; now rewrite app_nil_r|].
      split; [intros i Hi; lia|]. split; [auto|].
      intros [e He]. congruence.
    + set (w1 := snd (sleep (PRetry.timeout retryOptions attempt) (fetched_once request w))).
      destruct (IH (S attempt) w1) as (n & Hn & Hfetched & Htimers & Hrej & Hout' & Hlast).
      exists (S n).
      assert (Hshift : forall i,
                 Net.fetch (net w1) (List.length (Net.fetched (net w1)) + i) request
                 = answer (S i)).
      { intros i. unfold answer, w1. simpl. f_equal.
        rewrite length_app. simpl. lia. }
      split; [lia|].
      split; [rewrite Hfetched; unfold w1; simpl; now rewrite <- app_assoc|].
      split.
      { rewrite Htimers. unfold w1, waits. simpl.
        destruct n as [|n]; [lia|]. simpl. rewrite Nat.sub_0_r.
        now rewrite <- app_assoc. }
      split.
      { intros [|i] Hi.
        - exists e. exact Hout.
        - rewrite <- Hshift. apply Hrej. lia. }
      destruct n as [|n]; [lia|].
      simpl in *. rewrite Nat.sub_0_r in *.
      split.
      { rewrite <- Hshift. exact Hout'. }
      { intros Hr. rewrite <- Hshift in Hr. f_equal. now apply Hlast. }
Qed.

End RetryPolicy.

(** Against an endpoint that answers 404, [getTokenPrice] calls it four
    times, waiting 1000, 2000 and 4000 ms in between, and returns
    [null]. *)
Lemma getTokenPrice_retries_not_found :
  let result :=
    getTokenPrice "0xabc" "ethereum" 1700000000
                  (sample_world MemStorage.empty ∅ always_404 1701209600000) in
  fst result = Return None
  /\ List.length (Net.fetched (net (snd result))) = 4%nat
  /\ timers (snd result) = [1000; 2000; 4000].
Proof. vm_compute. repeat split. Qed.

(** C2, as amended. Every call of [getTokenPrice] makes at most four
    attempts (the first one and [retries: 3] more), waiting
    [min(1000 * 2^k, 5000)] ms before retry [k + 1], that is 1000, 2000
    and 4000 ms; every failed attempt is retried alike (a network
    failure, status 429, any other status that is not ok, 404 included,
    a body that is not JSON); the call returns what the first successful
    attempt returns, and [null], without throwing, when all four
    fail. Nothing but the network, the clock and the timers changes. *)
Theorem getTokenPrice_retry_policy :
  forall (Store : Type) (tokenAddress network : string) (timestamp : Z) (w : World Store),
    let request := Net.mkBody tokenAddress network timestamp in
    let answer (i : nat) :=
      Net.fetch (net w) (List.length (Net.fetched (net w)) + i) request in
    let result := getTokenPrice tokenAddress network timestamp w in
    (exists attempts : nat,
        (1 <= attempts <= 4)%nat
        /\ Net.fetched (net (snd result))
           = (Net.fetched (net w) ++ repeat request attempts)%list
        /\ timers (snd result)
           = (timers w ++ firstn (attempts - 1) [1000; 2000; 4000])%list
        /\ (forall i, (i < attempts - 1)%nat -> rejected (answer i))
        /\ ((exists v, attempt_outcome (answer (attempts - 1)%nat) = Return v
                       /\ fst result = Return v)
            \/ (attempts = 4%nat /\ rejected (answer 3%nat) /\ fst result = Return None)))
    /\ besides_network (snd result) = besides_network w
    /\ (forall k : nat,
           PRetry.timeout retryOptions k = Z.min (1000 * 2 ^ Z.of_nat k) 5000)
    /\ rejected Net.NetworkError
    /\ (forall status b,
           status = 429 \/ Net.ok status = false -> rejected (Net.Response status b))
    /\ (forall b, rejected (Net.Response 404 b)).
Proof.
  intros Store tokenAddress network timestamp w request answer result.
  assert (Hstatus : forall status b,
             status = 429 \/ Net.ok status = false -> rejected (Net.Response status b)).
  { intros status b [->|Hok]; unfold rejected; simpl; [eauto|].
    rewrite Hok. simpl. destruct (status =? 429); eauto. }
  split; [|split; [apply frames_getTokenPrice|]; split; [reflexivity|]; split;
           [unfold rejected; simpl; eauto|]; split; [exact Hstatus|]].
  2: { intros b. apply Hstatus. right. reflexivity. }
  destruct (pRetry_from_priceAttempt tokenAddress network timestamp 3 0 w)
    as (n & Hn & Hfetched & Htimers & Hrej & Hout & Hlast).
  fold request in Hfetched, Htimers, Hrej, Hout, Hlast.
  fold answer in Hrej, Hout, Hlast.
  set (inner := pRetry_from retryOptions (priceAttempt tokenAddress network timestamp) 0 3 w) in *.
  assert (Hresult : result = match inner with
                             | (Return v, w') => (Return v, w')
                             | (Throw _, w') => (Return None, w')
                             end).
  { subst result inner. unfold getTokenPrice, pRetry, tryCatch at 1. simpl PRetry.retries.
    destruct (pRetry_from _ _ _ _ w) as [[v|e] w']; reflexivity. }
  exists n. rewrite Hresult.
  assert (Hwaits : waits 0 (n - 1) = firstn (n - 1) [1000; 2000; 4000]).
  { destruct n as [|[|[|[|[|n]]]]]; try lia; reflexivity. }
  rewrite <- Hwaits.
  destruct inner as [[v|e] w']; simpl in *.
  - split; [lia|]. split; [exact Hfetched|]. split; [exact Htimers|].
    split; [exact Hrej|]. left. exists v. split; [exact Hout | reflexivity].
  - assert (Hfour : n = 4%nat) by (apply Hlast; exists e; exact Hout).
    subst n. split; [lia|]. split; [exact Hfetched|]. split; [exact Htimers|].
    split; [exact Hrej|]. right. split; [reflexivity|].
    split; [exists e; exact Hout | reflexivity].
Qed.

Lemma getTokenPrice_retry_policy_witness :
  let w := sample_world MemStorage.empty ∅ always_404 1701209600000 in
  let result := getTokenPrice "0xabc" "ethereum" 1700000000 w in
  fst result = Return None /\ timers (snd result) = [1000; 2000; 4000].
Proof.
  intros w result.
  destruct (getTokenPrice_retry_policy MemStorage.t "0xabc" "ethereum" 1700000000 w)
    as ((attempts & Hbound & _ & Htimers & _ & [(v & Hanswer & _) | (Hfour & _ & Hnull)]) & _).
  - vm_compute in Hanswer. destruct (attempts - 1)%nat; discriminate Hanswer.
  - fold result in Htimers, Hnull. subst attempts. split; [exact Hnull | exact Htimers].
Defined.

(** ** The cache *)

Section CacheFacts.
Context {Store : Type}.
Implicit Type w : World Store.

Lemma connect_run w : RedisService.connect w = (Return tt, after_connect w).
Proof.
  unfold RedisService.connect, after_connect, tryCatch, RedisService.client_connect.
  destruct (Redis.connected (redis w)); [reflexivity|].
  destruct (Redis.reachable (redis w)) eqn:Hr; [reflexivity|].
  unfold RedisService.set_connected. simpl. rewrite Hr. reflexivity.
Qed.

Lemma redis_get_run key w : RedisService.get key w = (Return (cache_entry key w), after_connect w).
Proof.
  unfold RedisService.get, tryCatch, bind. rewrite connect_run.
  unfold RedisService.client_get, cache_entry, after_connect.
  destruct (Redis.connected (redis w)) eqn:Hc; simpl;
    destruct (Redis.reachable (redis w)) eqn:Hr; simpl; rewrite ?Hr; reflexivity.
Qed.

Lemma redis_set_run key value ttlSeconds w :
  RedisService.set key value ttlSeconds w = (Return tt, after_set key value ttlSeconds w).
Proof.
  unfold RedisService.set, tryCatch, bind. rewrite connect_run.
  unfold RedisService.client_setEx, after_set, after_connect.
  destruct (Redis.connected (redis w)) eqn:Hc; simpl;
    destruct (Redis.reachable (redis w)) eqn:Hr; simpl; rewrite ?Hr;
    destruct value; simpl; rewrite ?Hc; reflexivity.
Qed.

Lemma getCachedPrice_run request w :
  RedisService.getCachedPrice (req_token request) (req_network request) (req_timestamp request) w
  = (cached_price request w, after_connect w).
Proof.
  unfold RedisService.getCachedPrice, bind, cached_price. rewrite redis_get_run.
  destruct (cache_entry _ w) as [t|]; [|reflexivity].
  destruct (truthy_text t); reflexivity.
Qed.

Lemma setCachedPrice_run tokenAddress network timestamp price w :
  RedisService.setCachedPrice tokenAddress network timestamp price w
  = (Return tt,
     after_set (RedisService.cacheKey tokenAddress network timestamp) (JSON_stringify price) 300 w).
Proof. unfold RedisService.setCachedPrice. apply redis_set_run. Qed.

Lemma after_connect_db w : Redis.db (redis (after_connect w)) = Redis.db (redis w).
Proof. unfold after_connect. destruct (Redis.connected (redis w)); reflexivity. Qed.

Lemma after_connect_storage w : storage (after_connect w) = storage w.
Proof. unfold after_connect. destruct (Redis.connected (redis w)); reflexivity. Qed.

Lemma after_connect_clock w : clock (after_connect w) = clock w.
Proof. unfold after_connect. destruct (Redis.connected (redis w)); reflexivity. Qed.

Lemma after_connect_net w : net (after_connect w) = net w.
Proof. unfold after_connect. destruct (Redis.connected (redis w)); reflexivity. Qed.
End CacheFacts.

(** ** The price route over the in-memory storage *)

Lemma mem_createPriceQuery_run query (w : World MemStorage.t) :
  IStorage.createPriceQuery memStorage query w
  = (Return (fst (MemStorage.createPriceQuery (clock w) query (storage w))),
     with_storage (snd (MemStorage.createPriceQuery (clock w) query (storage w))) w).
Proof. reflexivity. Qed.

Lemma mem_createHistoricalPrice_run price (w : World MemStorage.t) :
  IStorage.createHistoricalPrice memStorage price w
  = (Return (fst (MemStorage.createHistoricalPrice (clock w) price (storage w))),
     with_storage (snd (MemStorage.createHistoricalPrice (clock w) price (storage w))) w).
Proof. reflexivity. Qed.

Lemma mem_getHistoricalPrice_run tokenAddress network timestamp (w : World MemStorage.t) :
  IStorage.getHistoricalPrice memStorage tokenAddress network timestamp w
  = (Return (MemStorage.getHistoricalPrice tokenAddress network timestamp (storage w)), w).
Proof. reflexivity. Qed.

Lemma mem_getNearestHistoricalPrices_run tokenAddress network timestamp (w : World MemStorage.t) :
  IStorage.getNearestHistoricalPrices memStorage tokenAddress network timestamp w
  = (Return (MemStorage.getNearestHistoricalPrices tokenAddress network timestamp (storage w)), w).
Proof. reflexivity. Qed.

(** The cache tier of the route, run on a hit. *)
Lemma postPrice_cache_hit request (w : World MemStorage.t) cached :
  cached_price request w = Return cached ->
  truthy cached = true ->
  postPrice memStorage request w
  = match toString_method (get_prop cached "price") with
    | Return price =>
        (cache_answer cached,
         with_storage
           (snd (MemStorage.createPriceQuery (clock w)
                   (InsertPriceQuery.mk (req_token request) (req_network request)
                                        (req_timestamp request) (Some price) "cache")
                   (storage w)))
           (after_connect w))
    | Throw e => (internal_error e, after_connect w)
    end.
Proof.
  intros Hcached Htruthy.
  unfold postPrice, priceLookup, bind at 1.
  rewrite getCachedPrice_run, Hcached, Htruthy.
  unfold bind at 1, lift.
  destruct (toString_method (get_prop cached "price")) as [price|e]; [|reflexivity].
  unfold bind. rewrite mem_createPriceQuery_run.
  rewrite after_connect_clock, after_connect_storage. reflexivity.
Qed.

(** C8. A lookup that hits the cache tier writes neither the cache nor
    the price points (nor a job, nor calls the network): the cached
    entry is answered as it is, and the only record created is the audit
    record, with source [cache]. *)
Theorem cache_hit_writes_nothing :
  forall (request : PriceRequest) (w : World MemStorage.t) (cached : value),
    fst (RedisService.getCachedPrice (req_token request) (req_network request)
                        (req_timestamp request) w) = Return cached ->
    truthy cached = true ->
    let result := postPrice memStorage request w in
    Redis.db (redis (snd result)) = Redis.db (redis w)
    /\ MemStorage.historicalPrices (storage (snd result))
       = MemStorage.historicalPrices (storage w)
    /\ MemStorage.bulkFetchJobs (storage (snd result))
       = MemStorage.bulkFetchJobs (storage w)
    /\ net (snd result) = net w
    /\ (forall price,
           toString_method (get_prop cached "price") = Return price ->
           fst result = cache_answer cached
           /\ storage (snd result)
              = snd (MemStorage.createPriceQuery (clock w)
                       (InsertPriceQuery.mk (req_token request) (req_network request)
                                            (req_timestamp request) (Some price) "cache")
                       (storage w)))
    /\ (forall e,
           toString_method (get_prop cached "price") = Throw e ->
           fst result = internal_error e /\ storage (snd result) = storage w).
Proof.
  intros request w cached Hcached Htruthy result.
  rewrite getCachedPrice_run in Hcached. simpl in Hcached.
  subst result. rewrite (postPrice_cache_hit request w cached Hcached Htruthy).
  destruct (toString_method (get_prop cached "price")) as [price|e]; simpl;
    rewrite ?after_connect_db, ?after_connect_storage, ?after_connect_net;
    do 4 (split; [reflexivity|]); split; intros x Hx; inversion Hx; subst;
    split; reflexivity.
Qed.

Lemma cache_hit_writes_nothing_witness :
  let w := cached_world (Obj [("price", Num (of_Z 15)); ("source", Str "alchemy")]) in
  let result := postPrice memStorage sample_request w in
  Redis.db (redis (snd result)) = Redis.db (redis w)
  /\ MemStorage.historicalPrices (storage (snd result)) = []
  /\ status (fst result) = 200
  /\ map (fun q => PriceQuery.source q)
         (Map_values (MemStorage.priceQueries (storage (snd result))))
     = ["cache"].
Proof.
  intros w result.
  destruct (cache_hit_writes_nothing sample_request w
              (Obj [("price", Num (of_Z 15)); ("source", Str "alchemy")]))
    as (Hdb & Hprices & _ & _ & Hhit & _).
  - vm_compute. reflexivity.
  - reflexivity.
  - destruct (Hhit "15") as [Hanswer Hstorage]; [vm_compute; reflexivity|].
    fold result in Hdb, Hprices, Hanswer, Hstorage.
    split; [exact Hdb|]. split; [exact Hprices|].
    split; [rewrite Hanswer; reflexivity|].
    rewrite Hstorage. reflexivity.
Defined.

(** ** The audit log *)

Section AfterSet.
Context {Store : Type}.
Implicit Type w : World Store.

Lemma after_set_storage key value ttl w : storage (after_set key value ttl w) = storage w.
Proof.
  unfold after_set.
  destruct (Redis.reachable (redis w)); [destruct value|]; auto using after_connect_storage.
Qed.

Lemma after_set_clock key value ttl w : clock (after_set key value ttl w) = clock w.
Proof.
  unfold after_set.
  destruct (Redis.reachable (redis w)); [destruct value|]; auto using after_connect_clock.
Qed.

Lemma after_set_net key value ttl w : net (after_set key value ttl w) = net w.
Proof.
  unfold after_set.
  destruct (Redis.reachable (redis w)); [destruct value|]; auto using after_connect_net.
Qed.

Lemma getTokenPrice_returns tokenAddress network timestamp w :
  exists price, fst (getTokenPrice tokenAddress network timestamp w) = Return price.
Proof.
  unfold getTokenPrice, tryCatch.
  destruct (pRetry _ _ w) as [[price|e] w']; simpl; eauto.
Qed.

Lemma getTokenPrice_storage tokenAddress network timestamp w :
  storage (snd (getTokenPrice tokenAddress network timestamp w)) = storage w.
Proof.
  pose proof (frames_getTokenPrice tokenAddress network timestamp w) as H.
  unfold besides_network in H. congruence.
Qed.
End AfterSet.

Lemma query_ids_below_free st : query_ids_below st -> next_query_id_free st.
Proof.
  unfold query_ids_below, next_query_id_free.
  generalize (MemStorage.currentQueryId st) as next.
  induction (MemStorage.priceQueries st) as [|[k q] m IH]; intros next Hbelow; simpl.
  - reflexivity.
  - inversion Hbelow as [|? ? Hk Hrest]; subst. simpl in Hk.
    destruct (decide (k = next)); [lia|]. auto.
Qed.

Lemma query_ids_below_empty : query_ids_below MemStorage.empty.
Proof. constructor. Qed.

Lemma createPriceQuery_ids_below now query st :
  query_ids_below st -> query_ids_below (snd (MemStorage.createPriceQuery now query st)).
Proof.
  intros Hbelow. pose proof (query_ids_below_free st Hbelow) as Hfree.
  unfold query_ids_below, next_query_id_free in *. simpl.
  rewrite (Map_set_fresh _ _ _ Hfree). apply Forall_app. split.
  - eapply Forall_impl; [exact Hbelow|]. simpl. intros. lia.
  - constructor; [simpl; lia | constructor].
Qed.

Lemma createPriceQuery_appends now query st :
  next_query_id_free st ->
  MemStorage.priceQueries (snd (MemStorage.createPriceQuery now query st))
  = (MemStorage.priceQueries st
       ++ [(MemStorage.currentQueryId st, fst (MemStorage.createPriceQuery now query st))])%list.
Proof. intros Hfree. simpl. now apply Map_set_fresh. Qed.

Lemma postPrice_cache_miss request (w : World MemStorage.t) cached :
  cached_price request w = Return cached ->
  truthy cached = false ->
  postPrice memStorage request w = miss_outcome request w.
Proof.
  intros Hcached Hfalsy.
  unfold postPrice, priceLookup, bind at 1.
  rewrite getCachedPrice_run, Hcached, Hfalsy.
  unfold bind at 1. rewrite mem_getHistoricalPrice_run, after_connect_storage.
  unfold miss_outcome.
  destruct (MemStorage.getHistoricalPrice _ _ _ (storage w)) as [existingPrice|].
  { unfold bind. rewrite setCachedPrice_run, mem_createPriceQuery_run.
    rewrite after_set_clock, after_set_storage, after_connect_storage, after_connect_clock.
    unfold cached_and_logged. rewrite after_connect_clock. reflexivity. }
  unfold bind at 1.
  destruct (getTokenPrice_returns (req_token request) (req_network request)
              (req_timestamp request) (after_connect w)) as [price Hprice].
  pose proof (getTokenPrice_storage (req_token request) (req_network request)
                (req_timestamp request) (after_connect w)) as Hstorage.
  rewrite after_connect_storage in Hstorage.
  destruct (getTokenPrice _ _ _ (after_connect w)) as [provided w2].
  simpl in Hprice, Hstorage. subst provided. simpl fst. simpl snd.
  destruct price as [alchemyPrice|].
  { unfold bind. rewrite setCachedPrice_run, mem_createHistoricalPrice_run.
    rewrite mem_createPriceQuery_run.
    cbn [with_storage clock storage].
    rewrite after_set_clock, after_set_storage, Hstorage.
    unfold cached_and_logged. reflexivity. }
  unfold bind at 1. rewrite mem_getNearestHistoricalPrices_run, Hstorage.
  destruct (MemStorage.getNearestHistoricalPrices _ _ _ (storage w)) as [[before|] [after|]];
    try reflexivity.
  destruct (InterpolationService.canInterpolate before after (req_timestamp request));
    [|reflexivity].
  unfold bind. rewrite setCachedPrice_run, mem_createPriceQuery_run.
  rewrite after_set_clock, after_set_storage, Hstorage.
  unfold cached_and_logged. reflexivity.
Qed.

Lemma postPrice_cache_error request (w : World MemStorage.t) e :
  cached_price request w = Throw e ->
  postPrice memStorage request w = (internal_error e, after_connect w).
Proof.
  intros Hcached. unfold postPrice, priceLookup, bind at 1.
  rewrite getCachedPrice_run, Hcached. reflexivity.
Qed.

Lemma cached_and_logged_queries request result query st (w : World MemStorage.t) :
  next_query_id_free st ->
  MemStorage.priceQueries (storage (cached_and_logged request result query st w))
  = (MemStorage.priceQueries st
       ++ [(MemStorage.currentQueryId st,
            fst (MemStorage.createPriceQuery (clock w) query st))])%list.
Proof. intros Hfree. unfold cached_and_logged. simpl. now apply Map_set_fresh. Qed.

(** A lookup answered by the provider is logged with the tag [alchemy],
    which is none of cache, storage, provider, interpolated. *)
Lemma provider_tier_tag_is_alchemy :
  let result :=
    postPrice memStorage sample_request
              (sample_world MemStorage.empty ∅ price_15 1701209600000) in
  status (fst result) = 200
  /\ map PriceQuery.source (Map_values (MemStorage.priceQueries (storage (snd result))))
     = ["alchemy"]
  /\ ~ In "alchemy" ["cache"; "storage"; "provider"; "interpolated"].
Proof.
  split; [vm_compute; reflexivity|]. split; [vm_compute; reflexivity|].
  simpl. intros [H|[H|[H|[H|[]]]]]; discriminate H.
Qed.

(** C1, as amended. A price lookup that answers with a price (status
    200) appends exactly one record to the audit log, for the requested
    key, tagged with the tier that satisfied the lookup; the tag is the
    [source] of the answer and is one of [cache], [storage], [alchemy]
    (the provider tier) and [interpolated]. A lookup that does not
    answer with a price (404, or 500) appends none. *)
Theorem price_lookup_audit :
  forall (request : PriceRequest) (w : World MemStorage.t),
    next_query_id_free (storage w) ->
    let result := postPrice memStorage request w in
    let log := MemStorage.priceQueries (storage w) in
    let log' := MemStorage.priceQueries (storage (snd result)) in
    (status (fst result) = 200 ->
     exists record,
       log' = (log ++ [(MemStorage.currentQueryId (storage w), record)])%list
       /\ served_by request w = Some (PriceQuery.source record)
       /\ In (PriceQuery.source record) audit_sources
       /\ get_prop (body (fst result)) "source" = Str (PriceQuery.source record)
       /\ PriceQuery.tokenAddress record = req_token request
       /\ PriceQuery.network record = req_network request
       /\ PriceQuery.timestamp record = req_timestamp request)
    /\ (status (fst result) <> 200 -> log' = log)
    /\ (status (fst result) = 404 -> served_by request w = None)
    /\ (status (fst result) = 200 \/ status (fst result) = 404 \/ status (fst result) = 500).
Proof.
  intros request w Hfree result log log'. subst result log log'.
  unfold served_by.
  destruct (cached_price request w) as [cached|e] eqn:Hcached.
  2: { rewrite (postPrice_cache_error _ _ _ Hcached). simpl.
       rewrite after_connect_storage.
       split; [discriminate|]. split; [reflexivity|]. split; [discriminate|]. auto. }
  destruct (truthy cached) eqn:Htruthy.
  { rewrite (postPrice_cache_hit _ _ _ Hcached Htruthy).
    destruct (toString_method (get_prop cached "price")) as [price|e]; simpl.
    - split.
      + intros _. eexists. split; [now apply Map_set_fresh|]. simpl.
        unfold audit_sources. simpl. repeat split; auto.
      + split; [congruence|]. split; [discriminate|]. auto.
    - rewrite after_connect_storage.
      split; [discriminate|]. split; [reflexivity|]. split; [discriminate|]. auto. }
  rewrite (postPrice_cache_miss _ _ _ Hcached Htruthy). unfold miss_outcome.
  destruct (MemStorage.getHistoricalPrice _ _ _ (storage w)) as [existingPrice|].
  { cbn [fst snd status body]. rewrite (cached_and_logged_queries _ _ _ _ _ Hfree).
    split.
    - intros _. eexists. split; [reflexivity|]. unfold audit_sources. simpl. repeat split; auto.
    - split; [congruence|]. split; [discriminate|]. auto. }
  pose proof (getTokenPrice_storage (req_token request) (req_network request)
                (req_timestamp request) (after_connect w)) as Hstorage.
  rewrite after_connect_storage in Hstorage.
  destruct (getTokenPrice _ _ _ (after_connect w)) as [[[alchemyPrice|]|e] w2];
    cbn [fst snd] in *.
  { cbn [fst snd status body]. rewrite cached_and_logged_queries by exact Hfree.
    split.
    - intros _. eexists. split; [reflexivity|]. unfold audit_sources. simpl. repeat split; auto.
    - split; [congruence|]. split; [discriminate|]. auto. }
  all: destruct (MemStorage.getNearestHistoricalPrices _ _ _ (storage w)) as [[before|] [after|]];
    try destruct (InterpolationService.canInterpolate before after (req_timestamp request));
    cbn [fst snd status body]; rewrite ?Hstorage;
    try (rewrite cached_and_logged_queries by exact Hfree);
    (split;
     [ first [ discriminate
             | intros _; eexists; split; [reflexivity|]; unfold audit_sources; simpl;
               repeat split; auto ]
     | split; [first [congruence | reflexivity]|]; split; [first [discriminate | reflexivity]|];
       auto ]).
Qed.

Lemma price_lookup_audit_witness :
  let w := sample_world MemStorage.empty ∅ price_15 1701209600000 in
  exists record,
    MemStorage.priceQueries (storage (snd (postPrice memStorage sample_request w)))
    = [(1, record)]
    /\ PriceQuery.source record = "alchemy".
Proof.
  intros w.
  destruct (price_lookup_audit sample_request w) as (Hpriced & _).
  - reflexivity.
  - destruct Hpriced as (record & Hlog & Hserved & _); [vm_compute; reflexivity|].
    exists record. split; [exact Hlog|].
    assert (Htier : served_by sample_request w = Some "alchemy") by (vm_compute; reflexivity).
    rewrite Htier in Hserved. now inversion Hserved.
Defined.

(** ** Errors in the tiers of the route *)


Lemma postPrice_throw {Store} (storage : IStorage.t Store) request w e w' :
  priceLookup storage request w = (Throw e, w') ->
  postPrice storage request w = (internal_error e, w').
Proof. intros H. unfold postPrice. now rewrite H. Qed.

Lemma miss_outcome_status request (w : World MemStorage.t) :
  status (fst (miss_outcome request w)) = 200 \/ status (fst (miss_outcome request w)) = 404.
Proof.
  unfold miss_outcome.
  destruct (MemStorage.getHistoricalPrice _ _ _ (storage w)); [auto|].
  destruct (getTokenPrice _ _ _ (after_connect w)) as [[[alchemyPrice|]|e] w2];
    cbn [fst snd]; auto;
    destruct (MemStorage.getNearestHistoricalPrices _ _ _ (storage w)) as [[before|] [after|]];
    try destruct (InterpolationService.canInterpolate before after (req_timestamp request));
    auto.
Qed.



(** ** Invariants of computations *)

Section Preserves.
Context {W : Type} (P : W -> Prop).

Lemma preserves_ret {A} (a : A) : preserves P (ret a).
Proof. intros w H; exact H. Qed.

Lemma preserves_throw {A} e : preserves P (@throw W A e).
Proof. intros w H; exact H. Qed.

Lemma preserves_bind {A B} (m : Async W A) (k : A -> Async W B) :
  preserves P m -> (forall a, preserves P (k a)) -> preserves P (bind m k).
Proof.
  intros Hm Hk w Hw. unfold bind. specialize (Hm w Hw).
  destruct (m w) as [[a|e] w']; simpl in *; [now apply Hk | exact Hm].
Qed.

Lemma preserves_forEach {A} (l : list A) (body : A -> Async W unit) :
  (forall x, preserves P (body x)) -> preserves P (forEach l body).
Proof.
  intros Hbody. induction l as [|x l IH]; simpl.
  - apply preserves_ret.
  - apply preserves_bind; auto.
Qed.

Lemma frames_preserves {V A} (view : W -> V) (m : Async W A) :
  (forall w w', view w' = view w -> P w -> P w') ->
  frames view m -> preserves P m.
Proof. intros Hview Hframes w Hw. eapply Hview; [apply Hframes | exact Hw]. Qed.
End Preserves.

Lemma frames_coarser {W V V' A} (view : W -> V) (coarse : V -> V') (m : Async W A) :
  frames view m -> frames (fun w => coarse (view w)) m.
Proof. intros H w. now rewrite H. Qed.

(** ** The queue worker *)

Lemma processing_since_view id t0 (w w' : World MemStorage.t) :
  job_view w' = job_view w -> processing_since id t0 w -> processing_since id t0 w'.
Proof.
  unfold job_view, processing_since, job_of. intros Hview (steps & current & H).
  inversion Hview as [[Hjobs Htrace]]. rewrite Hjobs, Htrace. eauto.
Qed.

Lemma frames_job_view_network {A} (m : Async (World MemStorage.t) A) :
  frames besides_network m -> frames job_view m.
Proof.
  intros H.
  apply (frames_coarser besides_network
           (fun v => (MemStorage.bulkFetchJobs (fst (fst (fst (fst v)))), snd (fst v))) m H).
Qed.

Lemma frames_job_view_createHistoricalPrice price :
  frames job_view (IStorage.createHistoricalPrice memStorage price).
Proof. intros w. reflexivity. Qed.

Lemma frames_job_view_updateProgress progress :
  frames job_view (@job_updateProgress MemStorage.t progress).
Proof. intros w. unfold job_updateProgress. destruct (Bull.reachable (bull w)); reflexivity. Qed.

(** An update that assigns no status keeps the job in [processing]. *)
Lemma update_keeps_processing id t0 updates :
  JobUpdates.status updates = None ->
  preserves (processing_since id t0) (IStorage.updateBulkFetchJob memStorage id updates).
Proof.
  intros Hstatus w (steps & current & Hjob & Hcurrent & Htrace & Hsteps).
  unfold processing_since, job_of in *. simpl.
  unfold MemStorage.updateBulkFetchJob. rewrite Hjob. simpl.
  rewrite Map_get_set_eq.
  exists (steps ++ [current])%list, (MemStorage.updated (clock w) current updates).
  split; [reflexivity|]. split.
  - unfold MemStorage.updated, MemStorage.assign. rewrite Hstatus. exact Hcurrent.
  - split.
    + rewrite Htrace. now rewrite <- !app_assoc.
    + apply Forall_app. split; [exact Hsteps|]. now constructor.
Qed.

Lemma processBatch_keeps_processing id t0 tokenAddress network timestamps batchSize i :
  preserves (processing_since id t0)
            (processBatch memStorage tokenAddress network id timestamps batchSize i).
Proof.
  unfold processBatch.
  apply preserves_bind.
  { apply (frames_preserves _ job_view); [apply processing_since_view|].
    apply frames_job_view_network, frames_batchGetHistoricalPrices. }
  intros prices. apply preserves_bind.
  { apply preserves_forEach. intros [timestamp [price|]]; simpl.
    - apply preserves_bind; [|intros; apply preserves_ret].
      apply (frames_preserves _ job_view); [apply processing_since_view|].
      apply frames_job_view_createHistoricalPrice.
    - apply preserves_ret. }
  intros _. apply preserves_bind.
  { now apply update_keeps_processing. }
  intros _. apply (frames_preserves _ job_view); [apply processing_since_view|].
  apply frames_job_view_updateProgress.
Qed.

Lemma mem_update_run id updates (w : World MemStorage.t) current :
  job_of id w = Some current ->
  let w' := snd (IStorage.updateBulkFetchJob memStorage id updates w) in
  fst (IStorage.updateBulkFetchJob memStorage id updates w) = Return tt
  /\ job_of id w' = Some (MemStorage.updated (clock w) current updates)
  /\ jobTrace w' = (jobTrace w ++ [MemStorage.updated (clock w) current updates])%list
  /\ MemStorage.historicalPrices (storage w') = MemStorage.historicalPrices (storage w)
  /\ net w' = net w.
Proof.
  unfold job_of. intros Hjob. simpl.
  unfold MemStorage.updateBulkFetchJob. rewrite Hjob. simpl.
  rewrite Map_get_set_eq. repeat split; reflexivity.
Qed.

Lemma getTokenCreationDate_returns {Store} tokenAddress network (w : World Store) :
  exists answer, fst (getTokenCreationDate tokenAddress network w) = Return answer.
Proof.
  unfold getTokenCreationDate, tryCatch, bind.
  destruct (pRetry _ _ w) as [[answer|e] w']; simpl; eauto.
Qed.

(** The [try] block of [processJob], step by step. *)
Lemma processJob_try_run tokenAddress network id (w : World MemStorage.t) :
  processJob_try memStorage tokenAddress network id w
  = let w1 := snd (IStorage.updateBulkFetchJob memStorage id (only_status "processing") w) in
    let creation := getTokenCreationDate tokenAddress network w1 in
    let w2 := snd creation in
    match fst creation with
    | Throw e => (Throw e, w2)
    | Return answer =>
        match integer_or_null answer with
        | None => (Throw (mkError "Could not determine token creation date"), w2)
        | Some creationTimestamp =>
            let timestamps := dailyTimestamps creationTimestamp (clock w2 / 1000) in
            let w3 :=
              snd (IStorage.updateBulkFetchJob memStorage id
                     (JobUpdates.mk None None (Some (Z.of_nat (List.length timestamps)))) w2) in
            let batches :=
              forEach (loop_indices (List.length timestamps) 10)
                      (processBatch memStorage tokenAddress network id timestamps 10) w3 in
            match fst batches with
            | Return _ =>
                IStorage.updateBulkFetchJob memStorage id
                  (JobUpdates.mk (Some "completed") (Some (of_Z 100)) None) (snd batches)
            | Throw e => (Throw e, snd batches)
            end
        end
    end.
Proof.
  unfold processJob_try, bind at 1. cbv zeta.
  replace (IStorage.updateBulkFetchJob memStorage id (only_status "processing") w)
    with (@Return unit tt,
          snd (IStorage.updateBulkFetchJob memStorage id (only_status "processing") w))
    by reflexivity.
  unfold bind at 1.
  destruct (getTokenCreationDate tokenAddress network _) as [[answer|e] w2]; [|reflexivity].
  cbn [fst snd].
  destruct (integer_or_null answer) as [creationTimestamp|]; [|reflexivity].
  unfold bind at 1, Date_now. unfold bind at 1.
  match goal with
  | |- context [IStorage.updateBulkFetchJob memStorage id ?u w2] =>
      replace (IStorage.updateBulkFetchJob memStorage id u w2)
        with (@Return unit tt, snd (IStorage.updateBulkFetchJob memStorage id u w2))
        by reflexivity
  end.
  unfold bind at 1. cbn [fst snd clock].
  destruct (forEach _ _ _) as [[[]|e] w4]; reflexivity.
Qed.

(** What the [try] block of [processJob] does once the job is picked
    up. *)
Lemma processJob_try_outcome tokenAddress network id t0 (w : World MemStorage.t) :
  processing_since id t0 (snd (IStorage.updateBulkFetchJob memStorage id
                                 (only_status "processing") w)) ->
  let result := processJob_try memStorage tokenAddress network id w in
  (exists e, fst result = Throw e /\ processing_since id t0 (snd result))
  \/ (exists w4,
         processing_since id t0 w4
         /\ result = IStorage.updateBulkFetchJob memStorage id
                       (JobUpdates.mk (Some "completed") (Some (of_Z 100)) None) w4).
Proof.
  intros Hpicked result. subst result. rewrite processJob_try_run. cbv zeta.
  set (w1 := snd (IStorage.updateBulkFetchJob memStorage id (only_status "processing") w)) in *.
  assert (Hcreation : processing_since id t0 (snd (getTokenCreationDate tokenAddress network w1))).
  { apply (frames_preserves _ job_view (getTokenCreationDate tokenAddress network));
      [apply processing_since_view | | exact Hpicked].
    apply frames_job_view_network, frames_getTokenCreationDate. }
  destruct (getTokenCreationDate tokenAddress network w1) as [[answer|e] w2];
    cbn [fst snd] in *.
  2: { left. exists e. split; [reflexivity | exact Hcreation]. }
  destruct (integer_or_null answer) as [creationTimestamp|].
  2: { left. eexists. split; [reflexivity | exact Hcreation]. }
  set (timestamps := dailyTimestamps creationTimestamp (clock w2 / 1000)).
  set (total := JobUpdates.mk None None (Some (Z.of_nat (List.length timestamps)))).
  assert (Htotal : processing_since id t0
                     (snd (IStorage.updateBulkFetchJob memStorage id total w2)))
    by (now apply update_keeps_processing).
  set (w3 := snd (IStorage.updateBulkFetchJob memStorage id total w2)) in *.
  assert (Hloop : processing_since id t0
                    (snd (forEach (loop_indices (List.length timestamps) 10)
                                  (processBatch memStorage tokenAddress network id timestamps 10)
                                  w3))).
  { apply preserves_forEach; [|exact Htotal].
    intros i. apply processBatch_keeps_processing. }
  destruct (forEach _ _ w3) as [[[]|e] w4]; cbn [fst snd] in *.
  - right. exists w4. split; [exact Hloop | reflexivity].
  - left. exists e. split; [reflexivity | exact Hloop].
Qed.

Lemma follows_machine_processing steps final :
  Forall (fun j => BulkFetchJob.status j = "processing") steps ->
  steps <> [] ->
  BulkFetchJob.status final = "completed" \/ BulkFetchJob.status final = "failed" ->
  follows_machine ("pending" :: map BulkFetchJob.status (steps ++ [final])).
Proof.
  intros Hsteps Hne Hfinal.
  destruct steps as [|first steps]; [congruence|].
  inversion Hsteps as [|? ? Hfirst Hrest]; subst.
  simpl. rewrite Hfirst. split; [constructor|].
  clear Hne Hsteps Hfirst.
  induction steps as [|next steps IH]; simpl.
  - split; [|exact I]. destruct Hfinal as [-> | ->]; constructor.
  - inversion Hrest as [|? ? Hnext Hrest']; subst. rewrite Hnext.
    split; [constructor | now apply IH].
Qed.

(** No transition leaves [completed] or [failed]. *)
Lemma terminal_states next :
  ~ job_transition "completed" next /\ ~ job_transition "failed" next.
Proof. split; intros H; inversion H. Qed.

Lemma processJob_run job (w : World MemStorage.t) :
  processJob memStorage job w
  = match processJob_try memStorage (data_tokenAddress job) (data_network job)
                         (data_jobId job) w with
    | (Return a, w') => (Return a, w')
    | (Throw e, w') =>
        (Throw e,
         snd (IStorage.updateBulkFetchJob memStorage (data_jobId job) (only_status "failed") w'))
    end.
Proof.
  unfold processJob, tryCatch.
  destruct (processJob_try _ _ _ _ w) as [[a|e] w']; reflexivity.
Qed.

Lemma picked_processing job (w : World MemStorage.t) record :
  job_of (data_jobId job) w = Some record ->
  processing_since (data_jobId job) (jobTrace w) (picked job w).
Proof.
  intros Hjob. unfold picked.
  destruct (mem_update_run (data_jobId job) (only_status "processing") w record Hjob)
    as (_ & Hstored & Htrace & _).
  exists [], (MemStorage.updated (clock w) record (only_status "processing")).
  split; [exact Hstored|]. split; [reflexivity|]. split; [exact Htrace | constructor].
Qed.

(** With no creation timestamp, the job is picked up and then marked
    failed, and nothing else happens. *)
Lemma processJob_unresolved job (w : World MemStorage.t) record :
  job_of (data_jobId job) w = Some record ->
  creation_unresolved job w ->
  let result := processJob memStorage job w in
  exists failed,
    fst result = Throw (mkError "Could not determine token creation date")
    /\ jobTrace (snd result)
       = (jobTrace w
          ++ [MemStorage.updated (clock w) record (only_status "processing"); failed])%list
    /\ BulkFetchJob.status failed = "failed"
    /\ BulkFetchJob.progress failed = BulkFetchJob.progress record
    /\ MemStorage.historicalPrices (storage (snd result))
       = MemStorage.historicalPrices (storage w)
    /\ Net.fetched (net (snd result)) = Net.fetched (net w).
Proof.
  intros Hjob (answer & Hanswer & Hnone) result. subst result.
  rewrite processJob_run, processJob_try_run. cbv zeta.
  unfold picked in Hanswer.
  destruct (mem_update_run (data_jobId job) (only_status "processing") w record Hjob)
    as (_ & Hstored & Htrace & Hprices & Hnet).
  set (w1 := snd (IStorage.updateBulkFetchJob memStorage (data_jobId job)
                    (only_status "processing") w)) in *.
  pose proof (frames_getTokenCreationDate (data_tokenAddress job) (data_network job) w1)
    as Hframe.
  pose proof (getTokenCreationDate_fetched (data_tokenAddress job) (data_network job) w1)
    as Hfetched.
  destruct (getTokenCreationDate (data_tokenAddress job) (data_network job) w1)
    as [creation w2].
  cbn [fst snd] in *. subst creation. rewrite Hnone.
  unfold besides_network in Hframe.
  assert (Hstorage : storage w2 = storage w1) by congruence.
  assert (Htrace2 : jobTrace w2 = jobTrace w1) by congruence.
  assert (Hjob2 : job_of (data_jobId job) w2
                  = Some (MemStorage.updated (clock w) record (only_status "processing")))
    by (unfold job_of in *; now rewrite Hstorage).
  destruct (mem_update_run (data_jobId job) (only_status "failed") w2 _ Hjob2)
    as (_ & _ & Htrace3 & Hprices3 & Hnet3).
  eexists. split; [reflexivity|].
  cbn [snd]. split.
  { rewrite Htrace3, Htrace2, Htrace. rewrite <- app_assoc. reflexivity. }
  split; [reflexivity|]. split; [reflexivity|].
  split; [now rewrite Hprices3, Hstorage, Hprices|].
  now rewrite Hnet3, Hfetched, Hnet.
Qed.



(** ** Progress of a backfill *)

(** C3, on a job of 15 daily timestamps and on a job of one. With 15
    timestamps the worker stores and reports progress 66 after the first
    batch and 133 after the second, where all 15 timestamps are
    processed and the progress should be 100; the job is then completed
    with progress 100. With a single timestamp it reports 1000. *)
Lemma processJob_progress_overshoots :
  let run := processJob memStorage sample_job (scheduled_world price_15 1701209600000) in
  let single := processJob memStorage sample_job (scheduled_world price_15 1700000000000) in
  fst run = Return tt
  /\ batchProgress 10 10 15 = of_Z 133
  /\ processed_progress 15 15 = of_Z 100
  /\ map job_summary (jobTrace (snd run))
     = [("processing", None, None);
        ("processing", Some 15, None);
        ("processing", Some 15, Some (of_Z 66));
        ("processing", Some 15, Some (of_Z 133));
        ("completed", Some 15, Some (of_Z 100))]
  /\ Bull.reported (bull (snd run)) = [of_Z 66; of_Z 133]
  /\ List.length (MemStorage.historicalPrices (storage (snd run))) = 15%nat
  /\ map job_summary (jobTrace (snd single))
     = [("processing", None, None);
        ("processing", Some 1, None);
        ("processing", Some 1, Some (of_Z 1000));
        ("completed", Some 1, Some (of_Z 100))].
Proof. vm_compute. repeat split. Qed.

(** ** One result per timestamp *)

Section BatchResults.
Context {Store : Type}.
Implicit Type w : World Store.

Lemma mapM_settled_length tokenAddress network (batch : list Z) :
  forall w,
    exists results,
      fst (mapM (fun timestamp => settled (getTokenPrice tokenAddress network timestamp))
                batch w) = Return results
      /\ List.length results = List.length batch.
Proof.
  induction batch as [|timestamp batch IH]; intros w; simpl.
  - exists []. split; reflexivity.
  - unfold bind at 1.
    assert (Hsettled : exists price,
               fst (settled (getTokenPrice tokenAddress network timestamp) w) = Return price).
    { unfold settled, tryCatch.
      destruct (getTokenPrice tokenAddress network timestamp w) as [[price|e] w']; simpl; eauto. }
    destruct Hsettled as [price Hprice].
    destruct (settled (getTokenPrice tokenAddress network timestamp) w) as [outcome w1].
    simpl in Hprice. subst outcome.
    unfold bind at 1. destruct (IH w1) as (results & Hresults & Hlength).
    destruct (mapM _ batch w1) as [outcome w2]. simpl in Hresults. subst outcome.
    exists (price :: results). split; [reflexivity | simpl; now rewrite Hlength].
Qed.

Lemma batchLoop_length tokenAddress network (timestamps : list Z) (indices : list nat) :
  forall results w,
    exists prices,
      fst (batchLoop tokenAddress network timestamps indices results w) = Return prices
      /\ List.length prices
         = (List.length results
            + list_sum (map (fun i => List.length (slice i (i + 10) timestamps)) indices))%nat.
Proof.
  induction indices as [|i indices IH]; intros results w; simpl.
  - exists results. split; [reflexivity | lia].
  - unfold bind at 1.
    destruct (mapM_settled_length tokenAddress network (slice i (i + 10) timestamps) w)
      as (batchResults & Hbatch & Hlength).
    destruct (mapM _ (slice i (i + 10) timestamps) w) as [outcome w1].
    simpl in Hbatch. subst outcome.
    unfold bind at 1.
    assert (Hwait : exists w2,
               (if (i + 10 <? List.length timestamps)%nat then sleep 1000 else ret tt) w1
               = (Return tt, w2)).
    { destruct (i + 10 <? List.length timestamps)%nat; eexists; reflexivity. }
    destruct Hwait as [w2 ->].
    destruct (IH (results ++ batchResults)%list w2) as (prices & Hprices & Hcount).
    exists prices. split; [exact Hprices|].
    rewrite Hcount, length_app, Hlength. lia.
Qed.

(** The slices [timestamps.slice(i, i + step)] taken at [i = 0, step, ...]
    cover the list once. *)
Lemma slices_cover {A} (l : list A) (step : nat) :
  (0 < step)%nat ->
  list_sum (map (fun i => List.length (slice i (i + step) l))
                (loop_indices (List.length l) step))
  = List.length l.
Proof.
  intros Hstep. unfold loop_indices.
  remember ((List.length l + step - 1) / step)%nat as n eqn:Hn.
  revert l Hn. induction n as [|n IH]; intros l Hn.
  - simpl. symmetry in Hn. apply Nat.div_small_iff in Hn; lia.
  - rewrite <- cons_seq, <- seq_shift, map_map. simpl.
    assert (Hlen : (step < List.length l + step)%nat /\ (1 <= List.length l)%nat).
    { destruct l; simpl in *; [|lia].
      replace (0 + step - 1)%nat with (step - 1)%nat in Hn by lia.
      rewrite Nat.div_small in Hn; lia. }
    specialize (IH (skipn step l)).
    rewrite length_skipn in IH.
    assert (Hrest : n = ((List.length l - step + step - 1) / step)%nat).
    { destruct (Nat.le_gt_cases step (List.length l)) as [Hle|Hlt].
      - replace (List.length l + step - 1)%nat
          with ((List.length l - step + step - 1) + 1 * step)%nat in Hn by lia.
        rewrite Nat.div_add in Hn by lia. lia.
      - replace (List.length l - step + step - 1)%nat with (step - 1)%nat by lia.
        rewrite Nat.div_small by lia.
        assert (Hone : ((List.length l + step - 1) / step = 1)%nat).
        { replace (List.length l + step - 1)%nat
            with ((List.length l - 1) + 1 * step)%nat by lia.
          rewrite Nat.div_add by lia. rewrite Nat.div_small by lia. reflexivity. }
        lia. }
    specialize (IH Hrest).
    rewrite map_map in IH |- *.
    assert (Hshift : forall q,
               List.length (slice (S q * step) (S q * step + step) l)
               = List.length (slice (q * step) (q * step + step) (skipn step l))).
    { intros q. unfold slice. rewrite !length_firstn, !length_skipn. lia. }
    rewrite (map_ext _ _ Hshift), IH.
    unfold slice. rewrite length_firstn, length_skipn. lia.
Qed.

(** X16. [batchGetHistoricalPrices] never rejects, whatever the endpoint
    answers, and returns one slot per input timestamp. *)
Lemma batchGetHistoricalPrices_length tokenAddress network (timestamps : list Z) w :
  exists prices,
    fst (batchGetHistoricalPrices tokenAddress network timestamps w) = Return prices
    /\ List.length prices = List.length timestamps.
Proof.
  unfold batchGetHistoricalPrices.
  destruct (batchLoop_length tokenAddress network timestamps
              (loop_indices (List.length timestamps) 10) [] w)
    as (prices & Hprices & Hcount).
  exists prices. split; [exact Hprices|].
  rewrite Hcount. simpl. apply slices_cover. lia.
Qed.
End BatchResults.

(** ** The next query id stays free *)

Lemma createHistoricalPrice_ids_below now price st :
  query_ids_below st -> query_ids_below (snd (MemStorage.createHistoricalPrice now price st)).
Proof. intros H. exact H. Qed.

Lemma cached_and_logged_ids_below request result query st (w : World MemStorage.t) :
  query_ids_below st ->
  query_ids_below (storage (cached_and_logged request result query st w)).
Proof.
  intros H. unfold cached_and_logged. cbn [storage with_storage].
  now apply createPriceQuery_ids_below.
Qed.

(** The route keeps every query id in use below the next one, so the
    next one is free at every lookup that follows [new MemStorage()]. *)
Lemma postPrice_ids_below request (w : World MemStorage.t) :
  query_ids_below (storage w) ->
  query_ids_below (storage (snd (postPrice memStorage request w))).
Proof.
  intros Hbelow.
  destruct (cached_price request w) as [cached|e] eqn:Hcached.
  2: { rewrite (postPrice_cache_error _ _ _ Hcached). simpl.
       now rewrite after_connect_storage. }
  destruct (truthy cached) eqn:Htruthy.
  { rewrite (postPrice_cache_hit _ _ _ Hcached Htruthy).
    destruct (toString_method (get_prop cached "price")) as [price|e]; cbn [snd].
    - cbn [storage with_storage]. now apply createPriceQuery_ids_below.
    - now rewrite after_connect_storage. }
  rewrite (postPrice_cache_miss _ _ _ Hcached Htruthy). unfold miss_outcome.
  destruct (MemStorage.getHistoricalPrice _ _ _ (storage w)) as [existingPrice|].
  { now apply cached_and_logged_ids_below. }
  pose proof (getTokenPrice_storage (req_token request) (req_network request)
                (req_timestamp request) (after_connect w)) as Hstorage.
  rewrite after_connect_storage in Hstorage.
  destruct (getTokenPrice _ _ _ (after_connect w)) as [[[alchemyPrice|]|e] w2];
    cbn [fst snd] in *.
  { apply cached_and_logged_ids_below. now apply createHistoricalPrice_ids_below. }
  all: destruct (MemStorage.getNearestHistoricalPrices _ _ _ (storage w))
         as [[before|] [after|]];
    try destruct (InterpolationService.canInterpolate before after (req_timestamp request));
    cbn [snd]; rewrite ?Hstorage; try assumption;
    now apply cached_and_logged_ids_below.
Qed.

(** ** The tiers at work *)

(** The storage tier: the point is answered, cached for five minutes and
    logged; no price point is written. *)
Example lookup_from_storage :
  let w := sample_world stored_15 ∅ always_404 1701209600000 in
  let result := postPrice memStorage sample_request w in
  answer_summary (fst result) = (200, Str "storage", Num (of_Z 15))
  /\ map (fun entry => snd (snd entry)) (map_to_list (Redis.db (redis (snd result))))
     = [1701209900000]
  /\ map PriceQuery.source (Map_values (MemStorage.priceQueries (storage (snd result))))
     = ["storage"]
  /\ MemStorage.historicalPrices (storage (snd result)) = MemStorage.historicalPrices stored_15
  /\ Net.fetched (net (snd result)) = [].
Proof. vm_compute. repeat split. Qed.

(** The interpolation tier: half a day after the first of two points
    one day apart, the provider failing, the answer is the mean, cached
    and logged but not stored. *)
Example lookup_interpolated :
  let w := sample_world bracketing_storage ∅ always_404 1701209600000 in
  let result := postPrice memStorage (mkPriceRequest "0xabc" "ethereum" 1700043200) w in
  answer_summary (fst result) = (200, Str "interpolated", Num (of_Z 12))
  /\ List.length (map_to_list (Redis.db (redis (snd result)))) = 1%nat
  /\ map PriceQuery.source (Map_values (MemStorage.priceQueries (storage (snd result))))
     = ["interpolated"]
  /\ MemStorage.historicalPrices (storage (snd result))
     = MemStorage.historicalPrices bracketing_storage
  /\ List.length (Net.fetched (net (snd result))) = 4%nat.
Proof. vm_compute. repeat split. Qed.

(** No tier answers: status 404, nothing cached, logged or stored. *)
Example lookup_not_found :
  let w := sample_world MemStorage.empty ∅ always_404 1701209600000 in
  let result := postPrice memStorage sample_request w in
  status (fst result) = 404
  /\ Redis.db (redis (snd result)) = ∅
  /\ storage (snd result) = MemStorage.empty.
Proof. vm_compute. repeat split. Qed.

(** For every number of daily timestamps up to 1000, the progress
    written after the last batch exceeds 100 when the batch counts at
    least 1.01 times the timestamps that exist (as with 1, 15 or 891
    timestamps), and is exactly 100 otherwise (as with 20 or 895). *)
Lemma last_batch_progress (length : nat) :
  (1 <= length <= 1000)%nat ->
  let progress := batchProgress (last_batch_start length) 10 length in
  ((101 * length <= 100 * (last_batch_start length + 10))%nat ->
   gt progress (of_Z 100) = true)
  /\ ((100 * (last_batch_start length + 10) < 101 * length)%nat ->
      same progress (of_Z 100) = true).
Proof.
  intros Hrange.
  assert (Hin : In length (seq 1 1000)) by (apply in_seq; lia).
  assert (Hcheck : last_batch_check length = true).
  { clear Hrange. revert length Hin. apply forallb_forall. vm_compute. reflexivity. }
  clear Hin. unfold last_batch_check in Hcheck. cbv zeta.
  destruct (101 * length <=? 100 * (last_batch_start length + 10))%nat eqn:Hover.
  - apply Nat.leb_le in Hover. split; [intros _; exact Hcheck | lia].
  - apply Nat.leb_gt in Hover. split; [lia | intros _; exact Hcheck].
Qed.

(* ===================================================================== *)
(** * The loops of the worker                                            *)
(* ===================================================================== *)

(** [loop_indices length step] holds exactly the values that
    [for (let i = 0; i < length; i += step)] visits: the multiples of
    [step] below [length]. *)
Lemma loop_indices_spec (length step i : nat) :
  (0 < step)%nat ->
  In i (loop_indices length step) <-> exists q, i = (q * step)%nat /\ (i < length)%nat.
Proof.
  intros Hstep. unfold loop_indices. rewrite in_map_iff. split.
  - intros (q & <- & Hq). exists q. split; [reflexivity|].
    apply in_seq in Hq. destruct Hq as [_ Hq]. cbn in Hq.
    pose proof (Nat.Div0.mul_div_le (length + step - 1) step) as Hfloor.
    assert (step * (q + 1) <= step * ((length + step - 1) / step))%nat as Hle
      by (apply Nat.mul_le_mono_l; lia).
    lia.
  - intros (q & -> & Hlt). exists q. split; [reflexivity|].
    apply in_seq. split; [lia|]. cbn.
    apply (Nat.div_le_lower_bound (length + step - 1) step (S q)); lia.
Qed.

(** [dailyTimestamps creationTimestamp now] holds exactly the values
    that [for (let ts = creationTimestamp; ts <= now; ts += 24 * 60 * 60)]
    pushes: the timestamps a whole number of days after the creation
    and not after [now]. *)
Lemma dailyTimestamps_spec (creationTimestamp now ts : Z) :
  In ts (dailyTimestamps creationTimestamp now)
  <-> exists q, 0 <= q /\ ts = creationTimestamp + q * 86400 /\ ts <= now.
Proof.
  unfold dailyTimestamps. rewrite in_map_iff.
  change (24 * 60 * 60) with 86400. split.
  - intros (q & <- & Hq). exists (Z.of_nat q). split; [lia|]. split; [reflexivity|].
    apply in_seq in Hq. destruct Hq as [_ Hq]. cbn in Hq.
    pose proof (Z.div_mod (now - creationTimestamp) 86400 ltac:(lia)) as Heq.
    pose proof (Z.mod_pos_bound (now - creationTimestamp) 86400 ltac:(lia)).
    lia.
  - intros (q & Hq & -> & Hle). exists (Z.to_nat q).
    split; [rewrite Z2Nat.id by lia; reflexivity|].
    apply in_seq. split; [lia|]. cbn.
    assert (q <= (now - creationTimestamp) / 86400) by (apply Z.div_le_lower_bound; lia).
    lia.
Qed.

(* ===================================================================== *)
(** * The storage, beyond the claims                                      *)
(* ===================================================================== *)

(** ** Sorting *)

Section SortFacts.
Context {A : Type} (cmp : A -> A -> Z) (rank : A -> Z).
Hypothesis cmp_rank : forall a b, cmp a b = rank a - rank b.

Lemma head_insert_sorted x l :
  head (MemStorage.insert_sorted cmp x l)
  = match head l with
    | Some y => if rank x <=? rank y then Some x else Some y
    | None => Some x
    end.
Proof.
  destruct l as [|y l]; simpl; [reflexivity|].
  rewrite cmp_rank.
  destruct (rank x - rank y <=? 0) eqn:H1, (rank x <=? rank y) eqn:H2; try reflexivity; lia.
Qed.

(** The head of a sorted array is an element of least rank. *)
Lemma head_sort_least l :
  match head (MemStorage.sort cmp l) with
  | Some x => In x l /\ forall y, In y l -> rank x <= rank y
  | None => l = []
  end.
Proof.
  induction l as [|a l IH]; simpl; [reflexivity|].
  rewrite head_insert_sorted.
  destruct (head (MemStorage.sort cmp l)) as [y|].
  - destruct IH as [Hin Hleast].
    destruct (rank a <=? rank y) eqn:Hle.
    + split; [now left|]. intros z [<-|Hz]; [lia|]. specialize (Hleast z Hz). lia.
    + split; [now right|]. intros z [<-|Hz]; [lia|]. now apply Hleast.
  - subst l. split; [now left|]. intros z [<-|[]]. lia.
Qed.

Lemma insert_sorted_perm x l : Permutation (MemStorage.insert_sorted cmp x l) (x :: l).
Proof.
  induction l as [|y l IH]; simpl; [reflexivity|].
  destruct (cmp x y <=? 0); [reflexivity|].
  rewrite IH. apply perm_swap.
Qed.

Lemma sort_perm l : Permutation (MemStorage.sort cmp l) l.
Proof.
  induction l as [|a l IH]; simpl; [reflexivity|].
  rewrite insert_sorted_perm. now constructor.
Qed.

Lemma insert_sorted_sorted x l :
  StronglySorted (fun a b => rank a <= rank b) l ->
  StronglySorted (fun a b => rank a <= rank b) (MemStorage.insert_sorted cmp x l).
Proof.
  induction 1 as [|y l Hsorted IH Hall]; simpl.
  - repeat constructor.
  - rewrite cmp_rank. destruct (rank x - rank y <=? 0) eqn:Hle.
    + constructor; [now constructor|].
      constructor; [lia|]. eapply Forall_impl; [exact Hall|]. simpl. intros z Hz. lia.
    + constructor; [exact IH|].
      rewrite (insert_sorted_perm x l). constructor; [lia | exact Hall].
Qed.

Lemma sort_sorted l : StronglySorted (fun a b => rank a <= rank b) (MemStorage.sort cmp l).
Proof.
  induction l as [|a l IH]; simpl; [constructor|]. now apply insert_sorted_sorted.
Qed.
End SortFacts.

(** X1. [getNearestHistoricalPrices] returns, among the stored points
    of the token and network, the latest one strictly before the
    timestamp and the earliest one strictly after it; a side is
    [undefined] exactly when no stored point lies on it. A point at the
    timestamp itself is on neither side. *)
Theorem getNearestHistoricalPrices_nearest :
  forall (tokenAddress network : string) (timestamp : Z) (st : MemStorage.t),
    let nearest := MemStorage.getNearestHistoricalPrices tokenAddress network timestamp st in
    match fst nearest with
    | Some before =>
        stored_point tokenAddress network st before
        /\ HistoricalPrice.timestamp before < timestamp
        /\ forall q, stored_point tokenAddress network st q ->
                     HistoricalPrice.timestamp q < timestamp ->
                     HistoricalPrice.timestamp q <= HistoricalPrice.timestamp before
    | None =>
        forall q, stored_point tokenAddress network st q ->
                  timestamp <= HistoricalPrice.timestamp q
    end
    /\ match snd nearest with
       | Some after =>
           stored_point tokenAddress network st after
           /\ timestamp < HistoricalPrice.timestamp after
           /\ forall q, stored_point tokenAddress network st q ->
                        timestamp < HistoricalPrice.timestamp q ->
                        HistoricalPrice.timestamp after <= HistoricalPrice.timestamp q
       | None =>
           forall q, stored_point tokenAddress network st q ->
                     HistoricalPrice.timestamp q <= timestamp
       end.
Proof.
  intros tokenAddress network timestamp st nearest. subst nearest.
  unfold MemStorage.getNearestHistoricalPrices. cbn [fst snd].
  set (prices := List.filter _ (Map_values (MemStorage.historicalPrices st))).
  assert (Hprices : forall q, In q prices <-> stored_point tokenAddress network st q).
  { intros q. unfold prices, stored_point. rewrite filter_In, andb_true_iff.
    rewrite !String.eqb_eq. tauto. }
  split.
  - pose proof (head_sort_least
                  (fun a b => HistoricalPrice.timestamp b - HistoricalPrice.timestamp a)
                  (fun p => - HistoricalPrice.timestamp p) ltac:(intros; cbv beta; lia)
                  (List.filter (fun p => HistoricalPrice.timestamp p <? timestamp) prices))
      as Hhead.
    destruct (head _) as [before|].
    + destruct Hhead as [Hin Hleast]. apply filter_In in Hin. destruct Hin as [Hin Hlt].
      split; [now apply Hprices|]. split; [lia|].
      intros q Hq Hqlt.
      assert (In q (List.filter (fun p => HistoricalPrice.timestamp p <? timestamp) prices))
        as Hqin by (apply filter_In; split; [now apply Hprices | lia]).
      specialize (Hleast q Hqin). simpl in Hleast. lia.
    + intros q Hq.
      destruct (Z.ltb_spec (HistoricalPrice.timestamp q) timestamp) as [Hlt|Hge]; [|lia].
      assert (In q (List.filter (fun p => HistoricalPrice.timestamp p <? timestamp) prices))
        as Hqin by (apply filter_In; split; [now apply Hprices | lia]).
      rewrite Hhead in Hqin. destruct Hqin.
  - pose proof (head_sort_least
                  (fun a b => HistoricalPrice.timestamp a - HistoricalPrice.timestamp b)
                  HistoricalPrice.timestamp ltac:(intros; cbv beta; lia)
                  (List.filter (fun p => timestamp <? HistoricalPrice.timestamp p) prices))
      as Hhead.
    destruct (head _) as [after|].
    + destruct Hhead as [Hin Hleast]. apply filter_In in Hin. destruct Hin as [Hin Hlt].
      split; [now apply Hprices|]. split; [lia|].
      intros q Hq Hqlt. apply Hleast.
      apply filter_In. split; [now apply Hprices | lia].
    + intros q Hq.
      destruct (Z.ltb_spec timestamp (HistoricalPrice.timestamp q)) as [Hlt|Hge]; [|lia].
      assert (In q (List.filter (fun p => timestamp <? HistoricalPrice.timestamp p) prices))
        as Hqin by (apply filter_In; split; [now apply Hprices | lia]).
      rewrite Hhead in Hqin. destruct Hqin.
Qed.

(** ** Strings *)

Lemma append_cons (x : ascii) (a b : string) : String x a ++ b = String x (a ++ b).
Proof. reflexivity. Qed.

Lemma append_nil (b : string) : "" ++ b = b.
Proof. reflexivity. Qed.

Lemma append_assoc (a b c : string) : (a ++ b) ++ c = a ++ (b ++ c).
Proof.
  induction a as [|x a IH]; [reflexivity|].
  now rewrite !append_cons, IH.
Qed.

Lemma length_append (a b : string) :
  String.length (a ++ b) = (String.length a + String.length b)%nat.
Proof.
  induction a as [|x a IH]; [reflexivity|].
  rewrite append_cons. simpl. now rewrite IH.
Qed.

Lemma append_cancel_r (a b t : string) : a ++ t = b ++ t -> a = b.
Proof.
  revert b. induction a as [|x a IH]; intros [|y b] H;
    rewrite ?append_cons, ?append_nil in H.
  - reflexivity.
  - apply (f_equal String.length) in H. simpl in H. rewrite length_append in H. lia.
  - apply (f_equal String.length) in H. simpl in H. rewrite length_append in H. lia.
  - inversion H as [[Hxy Hrest]]. f_equal. now apply IH.
Qed.

(** Two strings that agree up to their first hyphen. *)
Lemma split_at_hyphen (a b x y : string) :
  hyphen_free a = true -> hyphen_free b = true ->
  a ++ "-" ++ x = b ++ "-" ++ y -> a = b /\ x = y.
Proof.
  revert b. induction a as [|c a IH]; intros [|d b] Ha Hb H;
    rewrite ?append_cons, ?append_nil in H; simpl in Ha, Hb.
  - inversion H. auto.
  - inversion H as [[Hc Hrest]]. subst d. discriminate Hb.
  - inversion H as [[Hc Hrest]]. subst c. discriminate Ha.
  - inversion H as [[Hc Hrest]]. subst d.
    apply andb_true_iff in Ha, Hb. destruct Ha as [_ Ha], Hb as [_ Hb].
    destruct (IH b Ha Hb Hrest) as [-> ->]. auto.
Qed.

(** ** The key of a price point *)

(** X2. The key of a price point is the plain concatenation of its
    fields, and [getHistoricalPrice] returns whatever record is stored
    under the key without comparing its fields: when
    [tokenAddress + "-" + network] reads the same for two identities,
    the point created for one is returned for the other. *)
Theorem getHistoricalPrice_key_collision :
  forall (now : Z) (price : InsertHistoricalPrice.t) (st : MemStorage.t)
         (tokenAddress network : string),
    tokenAddress ++ "-" ++ network
    = InsertHistoricalPrice.tokenAddress price ++ "-" ++ InsertHistoricalPrice.network price ->
    let created := MemStorage.createHistoricalPrice now price st in
    MemStorage.getHistoricalPrice tokenAddress network
      (InsertHistoricalPrice.timestamp price) (snd created) = Some (fst created)
    /\ HistoricalPrice.tokenAddress (fst created) = InsertHistoricalPrice.tokenAddress price
    /\ HistoricalPrice.network (fst created) = InsertHistoricalPrice.network price.
Proof.
  intros now price st tokenAddress network Hsame created.
  split; [|split; reflexivity].
  assert (Hkey : MemStorage.key tokenAddress network (InsertHistoricalPrice.timestamp price)
                 = MemStorage.key (InsertHistoricalPrice.tokenAddress price)
                                  (InsertHistoricalPrice.network price)
                                  (InsertHistoricalPrice.timestamp price)).
  { unfold MemStorage.key.
    rewrite <- (append_assoc "-" network), <- (append_assoc tokenAddress), Hsame.
    now rewrite !append_assoc. }
  unfold MemStorage.getHistoricalPrice. rewrite Hkey.
  apply createHistoricalPrice_lookup.
Qed.

Lemma getHistoricalPrice_key_collision_witness :
  let created :=
    MemStorage.createHistoricalPrice 0
      (InsertHistoricalPrice.mk "a-b" "c" 1700000000 "15" None None) MemStorage.empty in
  MemStorage.getHistoricalPrice "a" "b-c" 1700000000 (snd created) = Some (fst created)
  /\ HistoricalPrice.tokenAddress (fst created) = "a-b"
  /\ HistoricalPrice.network (fst created) = "c".
Proof.
  apply (getHistoricalPrice_key_collision 0
           (InsertHistoricalPrice.mk "a-b" "c" 1700000000 "15" None None)
           MemStorage.empty "a" "b-c").
  reflexivity.
Defined.

(** X3. Token addresses without a hyphen (hexadecimal addresses have
    none) do not collide: at a given timestamp, creating the point of
    one (tokenAddress, network) leaves the lookup of every other pair
    as it was. *)
Theorem createHistoricalPrice_other_identity :
  forall (now : Z) (price : InsertHistoricalPrice.t) (st : MemStorage.t)
         (tokenAddress network : string),
    hyphen_free tokenAddress = true ->
    hyphen_free (InsertHistoricalPrice.tokenAddress price) = true ->
    (tokenAddress, network)
    <> (InsertHistoricalPrice.tokenAddress price, InsertHistoricalPrice.network price) ->
    MemStorage.getHistoricalPrice tokenAddress network (InsertHistoricalPrice.timestamp price)
      (snd (MemStorage.createHistoricalPrice now price st))
    = MemStorage.getHistoricalPrice tokenAddress network
        (InsertHistoricalPrice.timestamp price) st.
Proof.
  intros now price st tokenAddress network Hfree Hfree' Hother.
  unfold MemStorage.getHistoricalPrice, MemStorage.createHistoricalPrice. simpl.
  apply Map_get_set_ne. intros Hkey. apply Hother.
  unfold MemStorage.key in Hkey.
  apply split_at_hyphen in Hkey; [|assumption..].
  destruct Hkey as [-> Hrest]. f_equal.
  rewrite <- !append_assoc in Hrest.
  now do 2 apply append_cancel_r in Hrest.
Qed.

Lemma createHistoricalPrice_other_identity_witness :
  MemStorage.getHistoricalPrice "0xabc" "polygon" 1700000000
    (snd (MemStorage.createHistoricalPrice 0
            (InsertHistoricalPrice.mk "0xabc" "ethereum" 1700000000 "15" None None)
            MemStorage.empty))
  = None.
Proof.
  apply (createHistoricalPrice_other_identity 0
           (InsertHistoricalPrice.mk "0xabc" "ethereum" 1700000000 "15" None None)
           MemStorage.empty "0xabc" "polygon");
    [reflexivity | reflexivity | discriminate].
Defined.

(** ** The tables of the storage *)

Section MapSetFacts.
Context {K V : Type} `{EqDecision K}.
Implicit Type m : Map K V.

Lemma Map_get_None_keys k m : Map_get k m = None <-> ~ In k (map fst m).
Proof.
  induction m as [|[k' v'] m IH]; simpl; [tauto|].
  destruct (decide (k' = k)) as [->|Hne].
  - split; [discriminate | intros H; exfalso; apply H; now left].
  - rewrite IH. split; [intros H [?|?]; [congruence | auto] | tauto].
Qed.

Lemma Map_set_keys_present k v m :
  In k (map fst m) -> map fst (Map_set k v m) = map fst m.
Proof.
  induction m as [|[k' v'] m IH]; simpl; [tauto|].
  destruct (decide (k' = k)) as [->|Hne]; simpl; [reflexivity|].
  intros [?|Hin]; [congruence|]. now rewrite IH.
Qed.

Lemma Map_set_keys_absent k v m :
  ~ In k (map fst m) -> map fst (Map_set k v m) = (map fst m ++ [k])%list.
Proof.
  intros H. apply Map_get_None_keys in H. rewrite (Map_set_fresh k v m H).
  now rewrite map_app.
Qed.

Lemma Map_set_keys_NoDup k v m : List.NoDup (map fst m) -> List.NoDup (map fst (Map_set k v m)).
Proof.
  intros Hnodup. destruct (In_dec (fun a b => decide (a = b)) k (map fst m)) as [Hin|Hout].
  - now rewrite Map_set_keys_present.
  - rewrite Map_set_keys_absent by assumption.
    apply List.NoDup_app; [exact Hnodup | repeat constructor; intros [] |].
    intros x Hx [<-|[]]. now apply Hout.
Qed.

Lemma Map_set_Forall (P : K * V -> Prop) k v m :
  Forall P m -> P (k, v) -> Forall P (Map_set k v m).
Proof.
  intros Hall Hnew. induction Hall as [|[k' v'] m Hhead Htail IH]; simpl.
  - now constructor.
  - destruct (decide (k' = k)); constructor; assumption.
Qed.

Lemma Map_get_In k v m : Map_get k m = Some v -> In (k, v) m.
Proof.
  induction m as [|[k' v'] m IH]; simpl; [discriminate|].
  destruct (decide (k' = k)) as [->|Hne].
  - intros [= ->]. now left.
  - intros H. right. now apply IH.
Qed.
End MapSetFacts.

Lemma ids_before_next (next : Z) :
  1 <= next -> ids_before (next + 1) = (ids_before next ++ [next])%list.
Proof.
  intros H. unfold ids_before.
  replace (Z.to_nat (next + 1 - 1)) with (S (Z.to_nat (next - 1))) by lia.
  rewrite seq_S, map_app. simpl. do 2 f_equal. lia.
Qed.

Lemma ids_before_fresh (next : Z) : ~ In next (ids_before next).
Proof.
  unfold ids_before. rewrite in_map_iff. intros (n & Hn & Hin).
  apply in_seq in Hin. lia.
Qed.

Lemma consistent_empty : consistent MemStorage.empty.
Proof.
  unfold consistent, ids_before. simpl.
  repeat split; try lia; try constructor.
Qed.

Lemma consistent_call st c : consistent st -> consistent (call st c).
Proof.
  intros ((Hq1 & Hqkeys & Hqids) & (Hj1 & Hjkeys & Hjids) & (Hp1 & Hpkeys & Hpoints)).
  destruct c as [now query|now price|now job|now id updates]; simpl.
  - split; [|split; [split; [|split] | split; [|split]]]; try assumption; simpl.
    split; [lia|]. split.
    + rewrite Map_set_keys_absent by (rewrite Hqkeys; apply ids_before_fresh).
      now rewrite Hqkeys, ids_before_next.
    + now apply Map_set_Forall.
  - split; [split; [|split] | split; [split; [|split] | split; [|split]]];
      try assumption; simpl.
    + lia.
    + now apply Map_set_keys_NoDup.
    + apply Map_set_Forall.
      * eapply Forall_impl; [exact Hpoints|]. simpl.
        intros entry [Hkey Hid]. split; [exact Hkey | lia].
      * simpl. split; [reflexivity | lia].
  - split; [split; [|split] | split; [|split; [|split]]]; try assumption; simpl.
    split; [lia|]. split.
    + rewrite Map_set_keys_absent by (rewrite Hjkeys; apply ids_before_fresh).
      now rewrite Hjkeys, ids_before_next.
    + now apply Map_set_Forall.
  - unfold MemStorage.updateBulkFetchJob.
    destruct (Map_get id (MemStorage.bulkFetchJobs st)) as [job|] eqn:Hjob.
    2: { repeat split; assumption. }
    split; [split; [|split] | split; [|split; [|split]]]; try assumption; simpl.
    split; [assumption|]. split.
    + rewrite Map_set_keys_present; [exact Hjkeys|].
      apply Map_get_In in Hjob. now apply (in_map fst) in Hjob.
    + apply Map_set_Forall; [exact Hjids|]. simpl.
      apply Map_get_In in Hjob.
      rewrite List.Forall_forall in Hjids. specialize (Hjids _ Hjob). simpl in Hjids.
      rewrite <- Hjids. unfold MemStorage.updated.
      destruct (JobUpdates.status updates) as [s|]; [destruct (String.eqb s "completed")|];
        reflexivity.
Qed.



Lemma time_or_zero_id createdAt : MemStorageReports.time_or_zero createdAt = createdAt.
Proof.
  unfold MemStorageReports.time_or_zero.
  destruct (Z.eqb_spec createdAt 0); congruence.
Qed.

Lemma StronglySorted_app_le {A} (rank : A -> Z) (l1 l2 : list A) :
  StronglySorted (fun a b => rank a <= rank b) (l1 ++ l2)%list ->
  StronglySorted (fun a b => rank a <= rank b) l1
  /\ forall a b, In a l1 -> In b l2 -> rank a <= rank b.
Proof.
  induction l1 as [|x l1 IH]; simpl; intros Hsorted.
  - split; [constructor | intros a b []].
  - inversion Hsorted as [|? ? Htail Hall]; subst.
    destruct (IH Htail) as [Hl1 Hcross].
    rewrite Forall_app in Hall. destruct Hall as [Hall1 Hall2].
    split; [now constructor|].
    intros a b [<-|Ha] Hb; [|now apply Hcross].
    rewrite List.Forall_forall in Hall2. now apply Hall2.
Qed.

(** X6. [getRecentPriceQueries(limit)] returns audit records of the
    log, the newest first ([createdAt] never increases along the
    result); every record it leaves out is at most as recent as every
    record it returns; and it returns [min(limit, n)] of the [n] records
    logged (for a negative limit, all but the [-limit] oldest). *)
Theorem getRecentPriceQueries_newest_first :
  forall (limit : Z) (st : MemStorage.t),
    let queries := Map_values (MemStorage.priceQueries st) in
    let recent := MemStorageReports.getRecentPriceQueries limit st in
    StronglySorted (fun a b => PriceQuery.createdAt b <= PriceQuery.createdAt a) recent
    /\ (forall q, In q recent -> In q queries)
    /\ (forall q r, In q recent -> In r queries -> ~ In r recent ->
                    PriceQuery.createdAt r <= PriceQuery.createdAt q)
    /\ Z.of_nat (List.length recent)
       = if limit <? 0 then Z.max 0 (Z.of_nat (List.length queries) + limit)
         else Z.min limit (Z.of_nat (List.length queries)).
Proof.
  intros limit st queries recent. subst recent.
  unfold MemStorageReports.getRecentPriceQueries. fold queries.
  set (cmp := fun a b : PriceQuery.t =>
                MemStorageReports.time_or_zero (PriceQuery.createdAt b)
                - MemStorageReports.time_or_zero (PriceQuery.createdAt a)).
  set (sorted := MemStorage.sort cmp queries).
  assert (Hcmp : forall a b, cmp a b = (- PriceQuery.createdAt a) - (- PriceQuery.createdAt b))
    by (intros a b; unfold cmp; rewrite !time_or_zero_id; lia).
  pose proof (sort_sorted cmp (fun q => - PriceQuery.createdAt q) Hcmp queries) as Hsorted.
  pose proof (sort_perm cmp queries) as Hperm. fold sorted in Hsorted, Hperm.
  assert (Hlength : List.length sorted = List.length queries)
    by (now apply Permutation_length).
  assert (Hprefix : exists n, slice_to limit sorted = firstn n sorted
                              /\ Z.of_nat (Nat.min n (List.length sorted))
                                 = if limit <? 0
                                   then Z.max 0 (Z.of_nat (List.length queries) + limit)
                                   else Z.min limit (Z.of_nat (List.length queries))).
  { unfold slice_to. rewrite Hlength.
    destruct (limit <? 0) eqn:Hneg; eexists; (split; [reflexivity|]); lia. }
  destruct Hprefix as (n & -> & Hcount).
  rewrite <- (firstn_skipn n sorted) in Hsorted.
  apply StronglySorted_app_le in Hsorted. destruct Hsorted as [Hfirst Hcross].
  split.
  { clear -Hfirst. induction Hfirst as [|x l Htail IH Hall]; constructor; [exact IH|].
    eapply Forall_impl; [exact Hall|]. simpl. intros; lia. }
  split.
  { intros q Hq. apply (Permutation_in _ Hperm).
    rewrite <- (firstn_skipn n sorted). apply in_or_app. now left. }
  split.
  { intros q r Hq Hr Hout.
    assert (In r (firstn n sorted ++ skipn n sorted)%list) as Hin
      by (rewrite firstn_skipn; apply (Permutation_in _ (Permutation_sym Hperm)), Hr).
    apply in_app_or in Hin. destruct Hin as [Hin|Hin]; [contradiction|].
    specialize (Hcross q r Hq Hin). simpl in Hcross. lia. }
  rewrite length_firstn. exact Hcount.
Qed.

(** ** User accounts *)

Section UserFacts.
Context {InsertUser : Type} (username : InsertUser -> string).
Import MemStorageUsers.

Lemma numbered_app first (l1 l2 : list InsertUser) :
  numbered first (l1 ++ l2)%list
  = (numbered first l1 ++ numbered (first + Z.of_nat (List.length l1)) l2)%list.
Proof.
  revert first. induction l1 as [|x l1 IH]; intros first; simpl.
  - f_equal. lia.
  - rewrite IH. do 3 f_equal. lia.
Qed.

Lemma numbered_ids first (l : list InsertUser) :
  Forall (fun u => first <= id u < first + Z.of_nat (List.length l)) (numbered first l).
Proof.
  revert first. induction l as [|x l IH]; intros first; simpl; constructor.
  - simpl. lia.
  - eapply Forall_impl; [apply IH|]. simpl. intros; lia.
Qed.

Lemma register_users (inserts : list InsertUser) :
  users (register inserts) = map (fun u => (id u, u)) (numbered 1 inserts)
  /\ currentUserId (register inserts) = 1 + Z.of_nat (List.length inserts).
Proof.
  unfold register.
  induction inserts as [|x inserts IH] using rev_ind; [split; reflexivity|].
  rewrite fold_left_app. simpl.
  destruct IH as [Husers Hnext].
  set (st := fold_left _ inserts empty) in *.
  rewrite Hnext, Husers. split.
  - rewrite Map_set_fresh.
    + rewrite numbered_app, map_app. simpl. reflexivity.
    + apply Map_get_None_keys. rewrite map_map. simpl. rewrite in_map_iff.
      intros (u & Hid & Hin).
      pose proof (numbered_ids 1 inserts) as Hids.
      rewrite List.Forall_forall in Hids. specialize (Hids u Hin). simpl in Hids. lia.
  - rewrite length_app. simpl. lia.
Qed.

Lemma Map_get_numbered first (l : list InsertUser) (k : nat) :
  Map_get (first + Z.of_nat k) (map (fun u => (id u, u)) (numbered first l))
  = nth_error (numbered first l) k.
Proof.
  revert first k. induction l as [|x l IH]; intros first k; simpl.
  - now destruct k.
  - destruct k as [|k]; cbn [numbered map Map_get nth_error id].
    + rewrite decide_True by lia. reflexivity.
    + rewrite decide_False by lia.
      replace (first + Z.of_nat (S k)) with (first + 1 + Z.of_nat k) by lia. apply IH.
Qed.

(** X7. The accounts created on a [new MemStorage()] get the ids 1, 2,
    ... in the order of their creation; [getUser] finds each under its
    id and nothing under any other, and [getUserByUsername] returns the
    first account created with the name: [createUser] accepts a name
    that is already taken, and the name keeps resolving to the earlier
    account. *)
Theorem createUser_numbers_accounts :
  forall (inserts : list InsertUser),
    let st := register inserts in
    let accounts := numbered 1 inserts in
    Map_values (users st) = accounts
    /\ currentUserId st = 1 + Z.of_nat (List.length inserts)
    /\ (forall k : nat, getUser (1 + Z.of_nat k) st = nth_error accounts k)
    /\ (forall i : Z, i < 1 \/ Z.of_nat (List.length inserts) < i -> getUser i st = None)
    /\ (forall name,
          getUserByUsername username name st
          = List.find (fun user => String.eqb (username (insert user)) name) accounts).
Proof.
  intros inserts st accounts. subst st accounts.
  destruct (register_users inserts) as [Husers Hnext].
  assert (Hvalues : Map_values (users (register inserts)) = numbered 1 inserts).
  { unfold Map_values. rewrite Husers, map_map. simpl. apply map_id. }
  split; [exact Hvalues|]. split; [exact Hnext|]. split; [|split].
  - intros k. unfold getUser. rewrite Husers. apply Map_get_numbered.
  - intros i Hi. unfold getUser. rewrite Husers.
    apply Map_get_None_keys. rewrite map_map. simpl. rewrite in_map_iff.
    intros (u & Hid & Hin).
    pose proof (numbered_ids 1 inserts) as Hids.
    rewrite List.Forall_forall in Hids. specialize (Hids u Hin). simpl in Hids. lia.
  - intros name. unfold getUserByUsername. now rewrite Hvalues.
Qed.
End UserFacts.

(* ===================================================================== *)
(** * The cache and the route, beyond the claims                          *)
(* ===================================================================== *)

(** ** The cache, beyond the claims *)

Lemma cache_entry_after_set {Store : Type} key doc ttl (w : World Store) :
  Redis.reachable (redis w) = true ->
  forall elapsed,
    cache_entry key (later elapsed (after_set key (Some doc) ttl w))
    = if elapsed <? ttl * 1000 then Some doc else None.
Proof.
  intros Hreach elapsed. unfold cache_entry, later, after_set. rewrite Hreach. simpl.
  rewrite lookup_insert_eq.
  destruct (Z.ltb_spec elapsed (ttl * 1000)), (Z.ltb_spec (clock w + elapsed)
                                                          (clock w + ttl * 1000));
    try reflexivity; lia.
Qed.

(** X8. A price cached with [setCachedPrice] while Redis answers is
    what [getCachedPrice] returns for the same token, network and
    timestamp during the next 300 seconds, as [JSON.parse] reads back
    what [JSON.stringify] wrote (properties that are [undefined] are
    gone, [NaN] and the infinities are [null]); from 300 seconds on the
    entry has expired and [getCachedPrice] returns [null]. *)
Theorem cached_price_lives_300_seconds :
  forall (Store : Type) (tokenAddress network : string) (timestamp : Z) (price : value)
         (elapsed : Z) (w : World Store),
    Redis.reachable (redis w) = true ->
    price <> Undefined ->
    let cached := snd (RedisService.setCachedPrice tokenAddress network timestamp price w) in
    fst (RedisService.getCachedPrice tokenAddress network timestamp (later elapsed cached))
    = if elapsed <? 300000 then Return (json_normal price) else Return Null.
Proof.
  intros Store tokenAddress network timestamp price elapsed w Hreach Hdefined cached.
  subst cached. rewrite setCachedPrice_run. cbn [snd].
  rewrite (getCachedPrice_run (mkPriceRequest tokenAddress network timestamp)).
  cbn [fst]. unfold cached_price. cbn [req_token req_network req_timestamp].
  assert (Htext : JSON_stringify price = Some (Json (json_normal price)))
    by (destruct price; try reflexivity; congruence).
  rewrite Htext, cache_entry_after_set by exact Hreach.
  change (300 * 1000) with 300000.
  destruct (elapsed <? 300000); reflexivity.
Qed.

Lemma cached_price_lives_300_seconds_witness :
  let w := sample_world MemStorage.empty ∅ always_404 1701209600000 in
  let price := Obj [("price", Num (of_Z 15)); ("marketCap", Undefined)] in
  let cached := snd (RedisService.setCachedPrice "0xabc" "ethereum" 1700000000 price w) in
  fst (RedisService.getCachedPrice "0xabc" "ethereum" 1700000000 (later 299999 cached))
  = Return (Obj [("price", Num (of_Z 15))])
  /\ fst (RedisService.getCachedPrice "0xabc" "ethereum" 1700000000 (later 300000 cached))
     = Return Null.
Proof.
  intros w price cached. split.
  - apply (cached_price_lives_300_seconds MemStorage.t "0xabc" "ethereum" 1700000000
             price 299999 w); [reflexivity | discriminate].
  - apply (cached_price_lives_300_seconds MemStorage.t "0xabc" "ethereum" 1700000000
             price 300000 w); [reflexivity | discriminate].
Defined.


(** ** Lookups that follow one another *)

Lemma cache_entry_ext {S S' : Type} key (w : World S) (w' : World S') :
  redis w' = redis w -> clock w' = clock w -> cache_entry key w' = cache_entry key w.
Proof. unfold cache_entry. now intros -> ->. Qed.

Lemma after_connect_reachable {S : Type} (w : World S) :
  Redis.reachable (redis (after_connect w)) = Redis.reachable (redis w).
Proof. unfold after_connect. destruct (Redis.connected (redis w)); reflexivity. Qed.

Lemma getTokenPrice_redis {S : Type} tokenAddress network timestamp (w : World S) :
  redis (snd (getTokenPrice tokenAddress network timestamp w)) = redis w.
Proof.
  pose proof (frames_getTokenPrice tokenAddress network timestamp w) as H.
  unfold besides_network in H. congruence.
Qed.

(** What the cache holds for the request, [elapsed] ms after the route
    has cached a result. *)
Lemma cached_price_after_lookup request fields query st (w : World MemStorage.t) elapsed :
  Redis.reachable (redis w) = true ->
  cached_price request (later elapsed (cached_and_logged request (Obj fields) query st w))
  = if elapsed <? 300000 then Return (json_normal (Obj fields)) else Return Null.
Proof.
  intros Hreach. unfold cached_price, cached_and_logged.
  set (key := RedisService.cacheKey _ _ _).
  rewrite (cache_entry_ext key
             (later elapsed (after_set key (JSON_stringify (Obj fields)) 300 w)))
    by reflexivity.
  change (JSON_stringify (Obj fields)) with (Some (Json (json_normal (Obj fields)))).
  rewrite cache_entry_after_set by exact Hreach.
  change (300 * 1000) with 300000.
  destruct (elapsed <? 300000); reflexivity.
Qed.

(** A lookup that misses the cache and answers with a price has cached
    its answer, an object whose first property is the price. *)
Lemma miss_outcome_priced request (w : World MemStorage.t) :
  status (fst (miss_outcome request w)) = 200 ->
  exists x rest query st w',
    miss_outcome request w
    = (mkResponse 200 (Obj (("price", Num x) :: rest)),
       cached_and_logged request (Obj (("price", Num x) :: rest)) query st w')
    /\ redis w' = redis (after_connect w).
Proof.
  unfold miss_outcome.
  destruct (MemStorage.getHistoricalPrice _ _ _ (storage w)) as [existingPrice|].
  { intros _. unfold storage_result. repeat eexists. }
  pose proof (getTokenPrice_redis (req_token request) (req_network request)
                (req_timestamp request) (after_connect w)) as Hredis.
  destruct (getTokenPrice _ _ _ (after_connect w)) as [[[alchemyPrice|]|e] w2];
    cbn [fst snd] in *.
  { intros _. unfold alchemy_result. repeat eexists. exact Hredis. }
  all: destruct (MemStorage.getNearestHistoricalPrices _ _ _ (storage w))
         as [[before|] [after|]];
    try destruct (InterpolationService.canInterpolate before after (req_timestamp request));
    cbn [fst status]; try discriminate;
    intros _; unfold interpolated_result; repeat eexists; exact Hredis.
Qed.

Lemma json_normal_price x rest :
  get_prop (json_normal (Obj (("price", Num x) :: rest))) "price" = json_normal (Num x).
Proof. destruct x; reflexivity. Qed.

(** X10. When a lookup that misses the cache answers with a price and
    Redis answers, the same lookup made within the next 300 seconds is
    answered from the cache without a request to the provider: with
    source [cache] and the same price when the price is a finite
    number. When the price is [NaN] or an infinity (a stored price that
    does not parse, for one), the cache holds [null] for it, and the
    next lookup fails with status 500 on [cached.price.toString()]. *)
Theorem repeated_lookup_hits_cache :
  forall (request : PriceRequest) (w : World MemStorage.t) (cached : value) (elapsed : Z),
    Redis.reachable (redis w) = true ->
    fst (RedisService.getCachedPrice (req_token request) (req_network request)
           (req_timestamp request) w) = Return cached ->
    truthy cached = false ->
    let first := postPrice memStorage request w in
    status (fst first) = 200 ->
    elapsed < 300000 ->
    let second := postPrice memStorage request (later elapsed (snd first)) in
    exists x,
      get_prop (body (fst first)) "price" = Num x
      /\ match json_normal (Num x) with
         | Num price =>
             status (fst second) = 200
             /\ get_prop (body (fst second)) "source" = Str "cache"
             /\ get_prop (body (fst second)) "price" = Num price
         | _ =>
             fst second
             = internal_error
                 (mkError "Cannot read properties of null (reading 'toString')")
         end
      /\ Net.fetched (net (snd second)) = Net.fetched (net (snd first)).
Proof.
  intros request w cached elapsed Hreach Hcached Hfalsy first Hok Hsoon second.
  subst second first.
  rewrite getCachedPrice_run in Hcached. cbn [fst] in Hcached.
  rewrite (postPrice_cache_miss _ _ _ Hcached Hfalsy) in *.
  destruct (miss_outcome_priced request w Hok)
    as (x & rest & query & st & w' & Houtcome & Hredis).
  rewrite Houtcome. cbn [fst snd body].
  exists x. split; [reflexivity|].
  assert (Hreach' : Redis.reachable (redis w') = true)
    by (now rewrite Hredis, after_connect_reachable).
  pose proof (cached_price_after_lookup request (("price", Num x) :: rest) query st w'
                elapsed Hreach') as Hsecond.
  replace (elapsed <? 300000) with true in Hsecond by (symmetry; apply Z.ltb_lt; exact Hsoon).
  rewrite (postPrice_cache_hit _ _ _ Hsecond eq_refl).
  rewrite json_normal_price.
  destruct x as [s| s | |s m e]; cbn [json_normal toString_method fst snd status body];
    (split; [|try (cbn [net with_storage]; now rewrite after_connect_net)]);
    try reflexivity.
  all: repeat split; try reflexivity; apply json_normal_price.
Qed.

Lemma repeated_lookup_hits_cache_witness :
  let w := sample_world MemStorage.empty ∅ price_15 1701209600000 in
  let first := postPrice memStorage sample_request w in
  let second := postPrice memStorage sample_request (later 299999 (snd first)) in
  get_prop (body (fst first)) "source" = Str "alchemy"
  /\ get_prop (body (fst second)) "source" = Str "cache"
  /\ get_prop (body (fst second)) "price" = Num (of_Z 15).
Proof.
  intros w first second.
  destruct (repeated_lookup_hits_cache sample_request w Null 299999)
    as (x & Hx & Hhit & _); try reflexivity.
  assert (Hfifteen : Num x = Num (of_Z 15)) by (rewrite <- Hx; vm_compute; reflexivity).
  injection Hfifteen as ->. destruct Hhit as (_ & Hsource & Hprice).
  split; [reflexivity|]. split; [exact Hsource | exact Hprice].
Defined.

Lemma cached_price_unreachable request (w : World MemStorage.t) :
  Redis.reachable (redis w) = false -> cached_price request w = Return Null.
Proof. intros H. unfold cached_price, cache_entry. now rewrite H. Qed.

Lemma after_set_redis_unreachable {S : Type} key value ttl (w : World S) :
  Redis.reachable (redis w) = false ->
  Redis.reachable (redis (after_set key value ttl w)) = false.
Proof.
  intros H. unfold after_set. rewrite H. now rewrite after_connect_reachable.
Qed.



Lemma or_null_idempotent s : or_null (or_null s) = or_null s.
Proof.
  destruct s as [s|]; [|reflexivity]. simpl.
  destruct (String.eqb s "") eqn:H; [reflexivity|]. simpl. now rewrite H.
Qed.

(** X12. The route writes a price point on one tier only: when the
    provider answers. A lookup served by the cache, by the storage or
    by interpolation, or not served at all, leaves the price points as
    they are, so an interpolated price never becomes a stored point;
    and a lookup served by the cache or by the storage makes no request
    to the provider. *)
Theorem price_points_written_by_provider_tier :
  forall (request : PriceRequest) (w : World MemStorage.t),
    let result := postPrice memStorage request w in
    let points := MemStorage.historicalPrices (storage (snd result)) in
    match served_by request w with
    | Some tier =>
        if String.eqb tier "alchemy"
        then exists alchemyPrice,
               fst (getTokenPrice (req_token request) (req_network request)
                      (req_timestamp request) (after_connect w))
               = Return (Some alchemyPrice)
               /\ MemStorage.getHistoricalPrice (req_token request) (req_network request)
                    (req_timestamp request) (storage (snd result))
                  = Some (HistoricalPrice.mk
                            (MemStorage.currentPriceId (storage w))
                            (req_token request) (req_network request) (req_timestamp request)
                            (Number_toString (TokenPrice.price alchemyPrice))
                            (number_text (TokenPrice.marketCap alchemyPrice))
                            (number_text (TokenPrice.volume alchemyPrice))
                            (clock (snd result)))
        else points = MemStorage.historicalPrices (storage w)
             /\ (tier = "cache" \/ tier = "storage" ->
                 Net.fetched (net (snd result)) = Net.fetched (net w))
    | None => points = MemStorage.historicalPrices (storage w)
    end.
Proof.
  intros request w result points. subst points result. unfold served_by.
  destruct (cached_price request w) as [cached|e] eqn:Hcached.
  2: { rewrite (postPrice_cache_error _ _ _ Hcached). cbn [snd].
       now rewrite after_connect_storage. }
  destruct (truthy cached) eqn:Htruthy.
  { rewrite (postPrice_cache_hit _ _ _ Hcached Htruthy). cbn [String.eqb Ascii.eqb].
    destruct (toString_method (get_prop cached "price")) as [price|e]; cbn [snd].
    - split; [reflexivity|].
      intros _. cbn [net with_storage]. now rewrite after_connect_net.
    - split; [now rewrite after_connect_storage|]. intros _. now rewrite after_connect_net. }
  rewrite (postPrice_cache_miss _ _ _ Hcached Htruthy). unfold miss_outcome.
  destruct (MemStorage.getHistoricalPrice _ _ _ (storage w)) as [existingPrice|].
  { cbn [snd]. unfold cached_and_logged. cbn [storage net with_storage]. simpl.
    split; [reflexivity|]. intros _. now rewrite after_set_net, after_connect_net. }
  pose proof (getTokenPrice_storage (req_token request) (req_network request)
                (req_timestamp request) (after_connect w)) as Hstorage.
  rewrite after_connect_storage in Hstorage.
  destruct (getTokenPrice _ _ _ (after_connect w)) as [[[alchemyPrice|]|e] w2];
    cbn [fst snd] in *.
  { simpl String.eqb. cbv iota. exists alchemyPrice. split; [reflexivity|].
    unfold cached_and_logged. cbn [storage clock with_storage].
    rewrite after_set_clock.
    unfold MemStorage.createPriceQuery.
    etransitivity;
      [apply (createHistoricalPrice_lookup (clock w2) (provider_point request alchemyPrice))|].
    unfold MemStorage.createHistoricalPrice, provider_point, number_text. cbn [fst].
    cbn [InsertHistoricalPrice.tokenAddress InsertHistoricalPrice.network
         InsertHistoricalPrice.timestamp InsertHistoricalPrice.price
         InsertHistoricalPrice.marketCap InsertHistoricalPrice.volume].
    now rewrite !or_null_idempotent. }
  all: destruct (MemStorage.getNearestHistoricalPrices _ _ _ (storage w))
         as [[before|] [after|]];
    try destruct (InterpolationService.canInterpolate before after (req_timestamp request));
    cbn [snd]; rewrite ?Hstorage; try reflexivity;
    (split; [unfold cached_and_logged; reflexivity | intros [H|H]; discriminate H]).
Qed.

(** ** Lookups that find no price *)

Lemma getTokenPrice_fetched {Store : Type} tokenAddress network timestamp (w : World Store) :
  exists attempts : nat,
    (1 <= attempts <= 4)%nat
    /\ Net.fetched (net (snd (getTokenPrice tokenAddress network timestamp w)))
       = (Net.fetched (net w)
            ++ repeat (Net.mkBody tokenAddress network timestamp) attempts)%list.
Proof.
  destruct (pRetry_from_priceAttempt tokenAddress network timestamp 3 0 w)
    as (n & Hn & Hfetched & _).
  exists n. split; [exact Hn|].
  unfold getTokenPrice, pRetry, tryCatch. cbn [PRetry.retries retryOptions].
  destruct (pRetry_from _ _ _ _ w) as [[v|e] w']; exact Hfetched.
Qed.



(* ===================================================================== *)
(** * The routes, beyond the claims                                       *)
(* ===================================================================== *)

(** ** The audit log in the statistics *)

(** The audit log after a lookup: one more record when the answer is a
    price, the same log otherwise. *)
Lemma postPrice_log request (w : World MemStorage.t) :
  next_query_id_free (storage w) ->
  let result := postPrice memStorage request w in
  if status (fst result) =? 200
  then exists record,
         MemStorage.priceQueries (storage (snd result))
         = (MemStorage.priceQueries (storage w)
              ++ [(MemStorage.currentQueryId (storage w), record)])%list
         /\ get_prop (body (fst result)) "source" = Str (PriceQuery.source record)
  else MemStorage.priceQueries (storage (snd result)) = MemStorage.priceQueries (storage w).
Proof.
  intros Hfree result. subst result.
  destruct (cached_price request w) as [cached|e] eqn:Hcached.
  2: { rewrite (postPrice_cache_error _ _ _ Hcached). simpl.
       now rewrite after_connect_storage. }
  destruct (truthy cached) eqn:Htruthy.
  { rewrite (postPrice_cache_hit _ _ _ Hcached Htruthy).
    destruct (toString_method (get_prop cached "price")) as [price|e]; simpl.
    - eexists. split; [now apply Map_set_fresh | reflexivity].
    - now rewrite after_connect_storage. }
  rewrite (postPrice_cache_miss _ _ _ Hcached Htruthy). unfold miss_outcome.
  destruct (MemStorage.getHistoricalPrice _ _ _ (storage w)) as [existingPrice|].
  { cbn [fst snd status body Z.eqb Pos.eqb].
    rewrite (cached_and_logged_queries _ _ _ _ _ Hfree).
    eexists. split; reflexivity. }
  pose proof (getTokenPrice_storage (req_token request) (req_network request)
                (req_timestamp request) (after_connect w)) as Hstorage.
  rewrite after_connect_storage in Hstorage.
  destruct (getTokenPrice _ _ _ (after_connect w)) as [[[alchemyPrice|]|e] w2];
    cbn [fst snd] in *.
  { cbn [fst snd status body Z.eqb Pos.eqb].
    rewrite cached_and_logged_queries by exact Hfree.
    eexists. split; reflexivity. }
  all: destruct (MemStorage.getNearestHistoricalPrices _ _ _ (storage w))
         as [[before|] [after|]];
    try destruct (InterpolationService.canInterpolate before after (req_timestamp request));
    cbn [fst snd status body Z.eqb Pos.eqb]; rewrite ?Hstorage; try reflexivity;
    rewrite cached_and_logged_queries by exact Hfree;
    eexists; split; reflexivity.
Qed.

(** X13. [getQueryStats] counts the lookups that were answered with a
    price: a lookup answered with status 200 raises [totalQueries] by
    one, and raises [interpolated] by one when its source is
    [interpolated]; a lookup answered 404 or 500 changes neither.
    [interpolated] never exceeds [totalQueries]. *)
Theorem lookup_counts_in_stats :
  forall (request : PriceRequest) (w : World MemStorage.t),
    query_ids_below (storage w) ->
    let result := postPrice memStorage request w in
    let before := MemStorageReports.getQueryStats (storage w) in
    let after := MemStorageReports.getQueryStats (storage (snd result)) in
    let priced := status (fst result) =? 200 in
    let interpolated :=
      match get_prop (body (fst result)) "source" with
      | Str source => String.eqb source "interpolated"
      | _ => false
      end in
    MemStorageReports.totalQueries after
    = MemStorageReports.totalQueries before + (if priced then 1 else 0)
    /\ MemStorageReports.interpolated after
       = MemStorageReports.interpolated before + (if priced && interpolated then 1 else 0)
    /\ 0 <= MemStorageReports.interpolated after <= MemStorageReports.totalQueries after
    /\ query_ids_below (storage (snd result)).
Proof.
  intros request w Hbelow result before after priced interpolated.
  pose proof (postPrice_log request w (query_ids_below_free _ Hbelow)) as Hlog.
  cbv zeta in Hlog. fold result in Hlog.
  assert (Hbound : 0 <= MemStorageReports.interpolated after
                   <= MemStorageReports.totalQueries after).
  { unfold after, MemStorageReports.getQueryStats. simpl.
    pose proof (filter_length_le
                  (fun q => String.eqb (PriceQuery.source q) "interpolated")
                  (Map_values (MemStorage.priceQueries (storage (snd result))))).
    lia. }
  split; [|split; [|split; [exact Hbound | now apply postPrice_ids_below]]].
  - subst before after priced. unfold MemStorageReports.getQueryStats, Map_values. simpl.
    revert Hlog. destruct (status (fst result) =? 200); intros Hlog.
    + destruct Hlog as (record & -> & _). rewrite map_app, length_app. simpl. lia.
    + rewrite Hlog. lia.
  - subst before after priced interpolated.
    unfold MemStorageReports.getQueryStats, Map_values. simpl.
    revert Hlog. destruct (status (fst result) =? 200); intros Hlog.
    + destruct Hlog as (record & -> & ->). rewrite map_app, List.filter_app, length_app. simpl.
      destruct (String.eqb (PriceQuery.source record) "interpolated"); simpl; lia.
    + rewrite Hlog. simpl. lia.
Qed.

Lemma lookup_counts_in_stats_witness :
  let w := sample_world bracketing_storage ∅ always_404 1701209600000 in
  let result := postPrice memStorage (mkPriceRequest "0xabc" "ethereum" 1700043200) w in
  MemStorageReports.totalQueries (MemStorageReports.getQueryStats (storage (snd result))) = 1
  /\ MemStorageReports.interpolated (MemStorageReports.getQueryStats (storage (snd result))) = 1.
Proof.
  intros w result.
  destruct (lookup_counts_in_stats (mkPriceRequest "0xabc" "ethereum" 1700043200) w)
    as (Htotal & Hinterpolated & _).
  - constructor.
  - fold result in Htotal, Hinterpolated. rewrite Htotal, Hinterpolated.
    split; vm_compute; reflexivity.
Defined.

(** ** Scheduling *)

Lemma addBulkFetchJob_run tokenAddress network (w : World MemStorage.t) :
  let created :=
    MemStorage.createBulkFetchJob (clock w)
      (InsertBulkFetchJob.mk tokenAddress network "pending" (Some (of_Z 0)) None)
      (storage w) in
  addBulkFetchJob memStorage tokenAddress network w
  = (Return (MemStorage.currentJobId (storage w)),
     with_bull
       (enqueued (mkJobData tokenAddress network (MemStorage.currentJobId (storage w)))
                 (bull w))
       (with_storage (snd created) w)).
Proof.
  unfold addBulkFetchJob, bind, tryCatch, ret, queue_add, enqueued. simpl.
  destruct (bull w) as [queue reachable added reported] eqn:Hbull.
  unfold with_bull, with_storage. simpl. rewrite Hbull. simpl.
  destruct queue, reachable; simpl; rewrite ?Hbull; reflexivity.
Qed.

Lemma Map_set_In_other {K V : Type} `{EqDecision K} (k k' : K) (v v' : V) (m : Map K V) :
  k <> k' -> In (k, v) m -> In (k, v) (Map_set k' v' m).
Proof.
  intros Hne. induction m as [|[k0 v0] m IH]; simpl; [tauto|].
  destruct (decide (k0 = k')) as [->|Hne0]; simpl.
  - intros [H|H]; [congruence | now right].
  - intros [H|H]; [now left | right; now apply IH].
Qed.

Lemma Map_set_In {K V : Type} `{EqDecision K} (k : K) (v : V) (m : Map K V) :
  In (k, v) (Map_set k v m).
Proof.
  induction m as [|[k0 v0] m IH]; simpl; [now left|].
  destruct (decide (k0 = k)); simpl; [now left | now right].
Qed.

(** X14. [POST /api/schedule] over the in-memory storage answers 200
    with the id of the job it stored, whether or not the queue is
    available: when the queue is missing or its Redis cannot be
    reached, nothing is enqueued and the job stays [pending]; otherwise
    the data enqueued carries the id, token and network of the stored
    job. Scheduling the same token and network again is not detected:
    it stores a second job under the next id, and both jobs are
    active. *)
Theorem schedule_never_deduplicates :
  forall (token network : string) (w : World MemStorage.t),
    let id := MemStorage.currentJobId (storage w) in
    let first := postSchedule memStorage token network w in
    let second := postSchedule memStorage token network (snd first) in
    let pending i :=
      BulkFetchJob.mk i token network "pending" None None (clock w) None in
    fst first
    = mkResponse 200 (Obj [("jobId", Num (of_Z id));
                           ("message", Str "Bulk fetch job scheduled successfully")])
    /\ fst second
       = mkResponse 200 (Obj [("jobId", Num (of_Z (id + 1)));
                              ("message", Str "Bulk fetch job scheduled successfully")])
    /\ Bull.added (bull (snd first))
       = (if Bull.queue (bull w) && Bull.reachable (bull w)
          then Bull.added (bull w) ++ [mkJobData token network id]
          else Bull.added (bull w))%list
    /\ In (pending id) (MemStorage.getActiveBulkFetchJobs (storage (snd first)))
    /\ In (pending id) (MemStorage.getActiveBulkFetchJobs (storage (snd second)))
    /\ In (pending (id + 1)) (MemStorage.getActiveBulkFetchJobs (storage (snd second))).
Proof.
  intros token network w id first second pending. subst second first.
  unfold postSchedule. rewrite addBulkFetchJob_run. cbn [fst snd].
  rewrite addBulkFetchJob_run. cbn [fst snd storage with_bull with_storage bull clock].
  cbn [MemStorage.createBulkFetchJob snd MemStorage.currentJobId MemStorage.bulkFetchJobs].
  cbn [InsertBulkFetchJob.tokenAddress InsertBulkFetchJob.network InsertBulkFetchJob.status
       InsertBulkFetchJob.progress InsertBulkFetchJob.totalDays].
  change (number_or_null (Some (of_Z 0))) with (@None number).
  change (integer_or_null None) with (@None Z).
  fold id. fold (pending id). fold (pending (id + 1)).
  split; [reflexivity|]. split; [reflexivity|]. split.
  { unfold enqueued. destruct (Bull.queue (bull w) && Bull.reachable (bull w)); reflexivity. }
  unfold MemStorage.getActiveBulkFetchJobs, Map_values.
  cbn [MemStorage.bulkFetchJobs].
  repeat split; apply filter_In; (split; [|reflexivity]).
  - apply (in_map snd _ (id, pending id)), Map_set_In.
  - apply (in_map snd _ (id, pending id)), Map_set_In_other; [lia | apply Map_set_In].
  - apply (in_map snd _ (id + 1, pending (id + 1))), Map_set_In.
Qed.

(** X15. [GET /api/status] over the in-memory storage reads and writes
    nothing and never answers 500. Its report lists the jobs that are
    [pending] or [processing] and counts them, and at most the ten most
    recent audit records; the share of interpolated answers is [0], not
    [NaN], while the audit log is empty, and is never [NaN]. *)
Theorem status_reports_without_failing :
  forall w : World MemStorage.t,
    exists report,
      getStatus w = (inl report, w)
      /\ activeJobs report = MemStorage.getActiveBulkFetchJobs (storage w)
      /\ queue_activeJobs report = Z.of_nat (List.length (activeJobs report))
      /\ Forall (fun job => BulkFetchJob.status job = "pending"
                            \/ BulkFetchJob.status job = "processing")
                (activeJobs report)
      /\ (List.length (recentQueries report) <= 10)%nat
      /\ stats_totalQueries report
         = Z.of_nat (List.length (MemStorage.priceQueries (storage w)))
      /\ stats_interpolated report <> NaN
      /\ (MemStorage.priceQueries (storage w) = [] -> stats_interpolated report = of_Z 0).
Proof.
  intros w. eexists. split; [reflexivity|]. cbn.
  split; [reflexivity|]. split; [reflexivity|]. split.
  { unfold MemStorage.getActiveBulkFetchJobs. apply List.Forall_forall.
    intros job Hjob. apply filter_In in Hjob. destruct Hjob as [_ Hstatus].
    apply orb_true_iff in Hstatus. rewrite !String.eqb_eq in Hstatus. exact Hstatus. }
  split.
  { unfold MemStorageReports.getRecentPriceQueries, slice_to. simpl.
    rewrite length_firstn. lia. }
  split; [unfold Map_values; now rewrite length_map|]. split.
  - unfold number_or. destruct (Math_round _) as [s|s| |s m e]; simpl; discriminate.
  - intros Hempty. unfold Map_values. rewrite Hempty. reflexivity.
Qed.

(** [Math.round] on a few numbers: 2.5, -2.5, 0.49, -0.5, 89.5 and 66.4. *)
Example Math_round_samples :
  Math_round (parseFloat "2.5") = of_Z 3
  /\ Math_round (parseFloat "-2.5") = of_Z (-2)
  /\ Math_round (parseFloat "0.49") = S754_zero false
  /\ Math_round (parseFloat "-0.5") = S754_zero true
  /\ Math_round (parseFloat "89.5") = of_Z 90
  /\ Math_round (parseFloat "66.4") = of_Z 66.
Proof. repeat split; vm_compute; reflexivity. Qed.

(* ===================================================================== *)
(** * The provider calls, beyond the claims                               *)
(* ===================================================================== *)

(** ** Batches of price requests *)

Section Accepted.
Context {Store : Type}.
Implicit Type w : World Store.

Lemma getTokenPrice_accepted tokenAddress network timestamp w v :
  attempt_outcome (Net.fetch (net w) (List.length (Net.fetched (net w)))
                             (Net.mkBody tokenAddress network timestamp)) = Return v ->
  getTokenPrice tokenAddress network timestamp w
  = (Return v, fetched_once (Net.mkBody tokenAddress network timestamp) w).
Proof.
  intros H. unfold getTokenPrice, pRetry, tryCatch. cbn [PRetry.retries retryOptions].
  rewrite pRetry_from_retry, priceAttempt_run, H. reflexivity.
Qed.

Lemma answers_app fetch k l1 l2 :
  answers fetch k (l1 ++ l2)%list
  = (answers fetch k l1 ++ answers fetch (k + List.length l1) l2)%list.
Proof.
  revert k. induction l1 as [|b l1 IH]; intros k; simpl.
  - now rewrite Nat.add_0_r.
  - rewrite IH. do 3 f_equal. lia.
Qed.

Lemma mapM_accepted tokenAddress network (batch : list Z) :
  forall w,
    accepts_all w ->
    exists w',
      mapM (fun timestamp => settled (getTokenPrice tokenAddress network timestamp)) batch w
      = (Return (answers (Net.fetch (net w)) (List.length (Net.fetched (net w)))
                         (map (Net.mkBody tokenAddress network) batch)), w')
      /\ Net.fetched (net w')
         = (Net.fetched (net w) ++ map (Net.mkBody tokenAddress network) batch)%list
      /\ Net.fetch (net w') = Net.fetch (net w)
      /\ timers w' = timers w
      /\ clock w' = clock w.
Proof.
  induction batch as [|timestamp batch IH]; intros w Haccepts.
  - exists w. simpl. rewrite app_nil_r. repeat split; reflexivity.
  - destruct (Haccepts (List.length (Net.fetched (net w)))
                       (Net.mkBody tokenAddress network timestamp)) as [v Hv].
    set (w1 := fetched_once (Net.mkBody tokenAddress network timestamp) w).
    assert (Haccepts1 : accepts_all w1) by exact Haccepts.
    destruct (IH w1 Haccepts1) as (w2 & Hrun & Hfetched & Hfetch & Htimers & Hclock).
    exists w2. split.
    + cbn [mapM]. unfold bind at 1, settled at 1, tryCatch.
      rewrite (getTokenPrice_accepted _ _ _ _ _ Hv). fold w1.
      unfold bind at 1. rewrite Hrun. cbn [map answers]. rewrite Hv.
      unfold w1. cbn [net fetched_once with_net Net.fetch Net.fetched].
      rewrite length_app. cbn [List.length]. rewrite Nat.add_1_r. reflexivity.
    + unfold w1 in Hfetched, Hfetch, Htimers, Hclock.
      cbn [net fetched_once with_net Net.fetch Net.fetched timers clock] in *.
      split; [rewrite Hfetched; cbn [map]; now rewrite <- app_assoc|].
      repeat split; assumption.
Qed.

Lemma firstn_add {A} (a b : nat) (l : list A) :
  firstn (a + b) l = (firstn a l ++ firstn b (skipn a l))%list.
Proof.
  revert l. induction a as [|a IH]; intros [|x l]; simpl;
    rewrite ?firstn_nil; try reflexivity.
  now rewrite IH.
Qed.

Lemma batchLoop_accepted tokenAddress network (timestamps : list Z) :
  forall (count start : nat) results w,
    accepts_all w ->
    let covered :=
      map (Net.mkBody tokenAddress network)
          (firstn (count * 10) (skipn (start * 10) timestamps)) in
    let waited := pauses start count (List.length timestamps) in
    exists w',
      batchLoop tokenAddress network timestamps
                (map (fun q => q * 10)%nat (seq start count)) results w
      = (Return (results
                   ++ answers (Net.fetch (net w)) (List.length (Net.fetched (net w)))
                              covered)%list, w')
      /\ Net.fetched (net w') = (Net.fetched (net w) ++ covered)%list
      /\ timers w' = (timers w ++ repeat 1000 waited)%list
      /\ clock w' = clock w + 1000 * Z.of_nat waited.
Proof.
  induction count as [|count IH]; intros start results w Haccepts.
  - exists w. simpl. rewrite !app_nil_r. repeat split; try reflexivity. unfold pauses. simpl. lia.
  - cbv zeta. rewrite <- cons_seq. cbn [map batchLoop].
    unfold slice. replace (start * 10 + 10 - start * 10)%nat with 10%nat by lia.
    set (batch := firstn 10 (skipn (start * 10) timestamps)).
    destruct (mapM_accepted tokenAddress network batch w Haccepts)
      as (w1 & Hrun & Hfetched & Hfetch & Htimers & Hclock).
    unfold bind at 1. rewrite Hrun.
    assert (Hcovered :
             firstn (S count * 10) (skipn (start * 10) timestamps)
             = (batch ++ firstn (count * 10) (skipn (S start * 10) timestamps))%list).
    { replace (S count * 10)%nat with (10 + count * 10)%nat by lia.
      rewrite firstn_add. fold batch.
      replace (S start * 10)%nat with (10 + start * 10)%nat by lia.
      now rewrite skipn_skipn. }
    rewrite Hcovered, map_app, answers_app, length_map.
    unfold pauses. rewrite <- cons_seq. cbn [List.filter].
    set (batchResults := answers _ _ (map _ batch)).
    destruct (start * 10 + 10 <? List.length timestamps)%nat eqn:Hmore.
    + unfold bind at 1. cbn [sleep].
      set (w2 := mkWorld _ _ _ _ _ _ _).
      assert (Haccepts2 : accepts_all w2)
        by (intros i body; unfold w2; cbn [net]; rewrite Hfetch; apply Haccepts).
      destruct (IH (S start) (results ++ batchResults)%list w2 Haccepts2)
        as (w3 & Hrun3 & Hfetched3 & Htimers3 & Hclock3).
      cbv zeta in Hrun3, Hfetched3, Htimers3, Hclock3.
      exists w3. split.
      { rewrite Hrun3. unfold w2. cbn [net].
        rewrite Hfetch, Hfetched, length_app, length_map.
        now rewrite <- app_assoc. }
      unfold w2 in Hfetched3, Htimers3, Hclock3.
      cbn [net timers clock] in Hfetched3, Htimers3, Hclock3.
      split; [rewrite Hfetched3, Hfetched; now rewrite <- app_assoc|].
      split.
      * rewrite Htimers3, Htimers. unfold pauses. cbn [List.length repeat].
        now rewrite <- app_assoc.
      * rewrite Hclock3, Hclock. unfold pauses. cbn [List.length]. lia.
    + unfold bind at 1. cbn [ret].
      assert (Haccepts1 : accepts_all w1)
        by (intros i body; rewrite Hfetch; apply Haccepts).
      destruct (IH (S start) (results ++ batchResults)%list w1 Haccepts1)
        as (w3 & Hrun3 & Hfetched3 & Htimers3 & Hclock3).
      cbv zeta in Hrun3, Hfetched3, Htimers3, Hclock3.
      exists w3. split.
      { rewrite Hrun3, Hfetch, Hfetched, length_app, length_map.
        now rewrite <- app_assoc. }
      split; [rewrite Hfetched3, Hfetched; now rewrite <- app_assoc|].
      split.
      * rewrite Htimers3, Htimers. reflexivity.
      * rewrite Hclock3, Hclock. reflexivity.
Qed.

Lemma pauses_all_but_last (length : nat) :
  pauses 0 ((length + 10 - 1) / 10) length = ((length + 10 - 1) / 10 - 1)%nat.
Proof.
  unfold pauses.
  set (batches := ((length + 10 - 1) / 10)%nat).
  destruct batches as [|rest] eqn:Hbatches; [reflexivity|].
  rewrite seq_S, List.filter_app, length_app. simpl.
  assert (Hlow : (rest * 10 < length)%nat /\ (length <= rest * 10 + 10)%nat).
  { pose proof (Nat.div_mod_eq (length + 10 - 1) 10) as Heq.
    pose proof (Nat.mod_upper_bound (length + 10 - 1) 10 ltac:(lia)) as Hmod.
    fold batches in Heq. rewrite Hbatches in Heq. lia. }
  replace (rest * 10 + 10 <? length)%nat with false
    by (symmetry; apply Nat.ltb_ge; lia).
  simpl. rewrite Nat.add_0_r, Nat.sub_0_r.
  rewrite forallb_filter_id; [apply length_seq|].
  apply forallb_forall. intros q Hq. apply in_seq in Hq. apply Nat.ltb_lt. lia.
Qed.
End Accepted.

(** X17. While the endpoint accepts every request,
    [batchGetHistoricalPrices] sends one request per timestamp, in the
    order of the timestamps, returns what the endpoint returned for
    each, in the same order, and waits 1000 ms after every batch of ten
    but the last: [ceil(n / 10) - 1] waits for [n] timestamps, none for
    ten or fewer. *)
Theorem batchGetHistoricalPrices_accepted :
  forall (Store : Type) (tokenAddress network : string) (timestamps : list Z)
         (w : World Store),
    accepts_all w ->
    let result := batchGetHistoricalPrices tokenAddress network timestamps w in
    let requests := map (Net.mkBody tokenAddress network) timestamps in
    let batches := ((List.length timestamps + 10 - 1) / 10)%nat in
    fst result
    = Return (answers (Net.fetch (net w)) (List.length (Net.fetched (net w))) requests)
    /\ Net.fetched (net (snd result)) = (Net.fetched (net w) ++ requests)%list
    /\ timers (snd result) = (timers w ++ repeat 1000 (batches - 1))%list
    /\ clock (snd result) = clock w + 1000 * Z.of_nat (batches - 1).
Proof.
  intros Store tokenAddress network timestamps w Haccepts result requests batches.
  subst result requests. unfold batchGetHistoricalPrices, loop_indices. fold batches.
  destruct (batchLoop_accepted tokenAddress network timestamps batches 0 [] w Haccepts)
    as (w' & Hout & Hfetched & Htimers & Hclock).
  cbv zeta in Hout, Hfetched, Htimers, Hclock.
  assert (Hall : firstn (batches * 10) (skipn (0 * 10) timestamps) = timestamps).
  { simpl. apply firstn_all2. unfold batches.
    pose proof (Nat.div_mod_eq (List.length timestamps + 10 - 1) 10) as Heq.
    pose proof (Nat.mod_upper_bound (List.length timestamps + 10 - 1) 10 ltac:(lia)).
    lia. }
  rewrite Hall in Hout, Hfetched.
  unfold batches in Htimers, Hclock. rewrite pauses_all_but_last in Htimers, Hclock.
  fold batches in Htimers, Hclock.
  rewrite Hout. cbn [fst snd]. repeat split; assumption.
Qed.

Lemma batchGetHistoricalPrices_accepted_witness :
  let w := sample_world MemStorage.empty ∅ price_15 1701209600000 in
  let timestamps := map (fun q => 1700000000 + Z.of_nat q * 86400) (seq 0 25) in
  let result := batchGetHistoricalPrices "0xabc" "ethereum" timestamps w in
  List.length (Net.fetched (net (snd result))) = 25%nat
  /\ timers (snd result) = [1000; 1000].
Proof.
  intros w timestamps result.
  destruct (batchGetHistoricalPrices_accepted MemStorage.t "0xabc" "ethereum" timestamps w)
    as (_ & Hfetched & Htimers & _).
  - intros i body. eexists. reflexivity.
  - fold result in Hfetched, Htimers. rewrite Hfetched, Htimers.
    split; reflexivity.
Defined.

(** ** The creation date of a token *)

Section CreationDate.
Context {Store : Type}.
Implicit Type w : World Store.

(** [pRetry] waits between the attempts only: as many times as there
    are attempts but one, and it rejects only when the retries are used
    up. *)
Lemma pRetry_from_waits {A} (input : Async (World Store) A) :
  frames (fun w => timers w) input ->
  forall (remaining attempt : nat) w,
    let result := pRetry_from retryOptions input attempt remaining w in
    exists attempts : nat,
      (1 <= attempts <= S remaining)%nat
      /\ timers (snd result) = (timers w ++ waits attempt (attempts - 1))%list
      /\ (forall e, fst result = Throw e -> attempts = S remaining).
Proof.
  intros Hframe. induction remaining as [|remaining IH]; intros attempt w result; subst result.
  - exists 1%nat. rewrite pRetry_from_last.
    split; [lia|]. split; [rewrite Hframe; unfold waits; simpl; now rewrite app_nil_r|].
    reflexivity.
  - rewrite pRetry_from_retry. pose proof (Hframe w) as Htimers.
    destruct (input w) as [[a|e] w1]; cbn [snd] in Htimers.
    + exists 1%nat. cbn [fst snd].
      split; [lia|]. split; [rewrite Htimers; unfold waits; simpl; now rewrite app_nil_r|].
      discriminate.
    + destruct (IH (S attempt) (snd (sleep (PRetry.timeout retryOptions attempt) w1)))
        as (n & Hn & Hwaits & Hlast).
      exists (S n). split; [lia|]. split.
      * rewrite Hwaits. cbn [sleep snd timers]. rewrite Htimers.
        destruct n as [|n]; [lia|]. unfold waits. simpl. rewrite Nat.sub_0_r.
        now rewrite <- app_assoc.
      * intros e' He'. f_equal. now apply (Hlast e').
Qed.

Lemma frames_timers_creationAttempt alchemy tokenAddress :
  frames (fun w => timers w) (@creationAttempt Store alchemy tokenAddress).
Proof.
  unfold creationAttempt. apply frames_bind; [intros w; reflexivity|].
  intros [|firstTransfer rest]; [apply frames_throw | intros w; reflexivity].
Qed.

Lemma creationAttempt_no_transfer alchemy tokenAddress w :
  finds_no_transfer alchemy tokenAddress w ->
  exists e,
    creationAttempt alchemy tokenAddress w
    = (Throw e,
       with_net (Net.mk (Net.fetch (net w)) (Net.fetched (net w))
                        (Net.getAssetTransfers (net w)) (Net.getBlock (net w))
                        (S (Net.sdkCalls (net w)))) w).
Proof.
  intros Hnone. specialize (Hnone (Net.sdkCalls (net w))).
  unfold creationAttempt, bind, sdk_call.
  destruct (Net.getAssetTransfers (net w) alchemy (Net.sdkCalls (net w)) tokenAddress)
    as [[|firstTransfer rest]|e]; [|contradiction|]; eexists; reflexivity.
Qed.

Lemma pRetry_from_no_transfer alchemy tokenAddress :
  forall (remaining attempt : nat) w,
    finds_no_transfer alchemy tokenAddress w ->
    let result :=
      pRetry_from retryOptions (creationAttempt alchemy tokenAddress) attempt remaining w in
    (exists e, fst result = Throw e)
    /\ Net.sdkCalls (net (snd result)) = (Net.sdkCalls (net w) + S remaining)%nat
    /\ timers (snd result) = (timers w ++ waits attempt remaining)%list
    /\ clock (snd result) = clock w + fold_right Z.add 0 (waits attempt remaining).
Proof.
  induction remaining as [|remaining IH]; intros attempt w Hnone result; subst result;
    destruct (creationAttempt_no_transfer alchemy tokenAddress w Hnone) as [e Hrun].
  - rewrite pRetry_from_last, Hrun. cbn [fst snd net with_net Net.sdkCalls timers].
    split; [eauto|]. split; [lia|]. unfold waits. simpl.
    split; [now rewrite app_nil_r | lia].
  - rewrite pRetry_from_retry, Hrun.
    set (w1 := snd (sleep _ _)).
    assert (Hnone1 : finds_no_transfer alchemy tokenAddress w1) by exact Hnone.
    destruct (IH (S attempt) w1 Hnone1) as (Hthrow & Hcalls & Hwaits & Hclock).
    split; [exact Hthrow|]. split; [|split].
    + rewrite Hcalls. unfold w1. simpl. lia.
    + rewrite Hwaits. unfold w1, waits. simpl. now rewrite <- app_assoc.
    + rewrite Hclock. unfold w1, waits. simpl. lia.
Qed.
End CreationDate.




(** Only the network named [polygon] is served by the Polygon
    client: for every other network name, known or not,
    [getTokenCreationDate] asks the Ethereum mainnet client, and
    behaves as it does for [ethereum]. *)
Lemma getTokenCreationDate_defaults_to_ethereum :
  forall (Store : Type) (tokenAddress network : string) (w : World Store),
    network <> "polygon" ->
    getAlchemyInstance network = Net.ethAlchemy
    /\ getTokenCreationDate tokenAddress network w
       = getTokenCreationDate tokenAddress "ethereum" w.
Proof.
  intros Store tokenAddress network w Hother.
  assert (Hinstance : getAlchemyInstance network = Net.ethAlchemy).
  { unfold getAlchemyInstance. destruct (String.eqb_spec network "polygon"); congruence. }
  split; [exact Hinstance|].
  unfold getTokenCreationDate. now rewrite Hinstance.
Qed.

(* ===================================================================== *)
(** * The queue worker, beyond the claims                                 *)
(* ===================================================================== *)

(** ** Runs that return *)

Section Yields.
Context {W : Type} (Q : W -> Prop).

Lemma yields_ret {A} (R : A -> Prop) (a : A) : R a -> yields Q R (ret a).
Proof. intros Ha w Hw. exists a. auto. Qed.

Lemma yields_bind {A B} (R : A -> Prop) (R' : B -> Prop)
      (m : Async W A) (k : A -> Async W B) :
  yields Q R m -> (forall a, R a -> yields Q R' (k a)) -> yields Q R' (bind m k).
Proof.
  intros Hm Hk w Hw. unfold bind.
  destruct (Hm w Hw) as (a & Hrun & Ha & Hw').
  destruct (m w) as [outcome w']. cbn [fst snd] in *. subst outcome.
  now apply Hk.
Qed.

Lemma yields_forEach {A} (l : list A) (body : A -> Async W unit) :
  (forall x, In x l -> yields Q (fun _ => True) (body x)) ->
  yields Q (fun _ => True) (forEach l body).
Proof.
  induction l as [|x l IH]; intros Hbody; simpl.
  - now apply yields_ret.
  - apply (yields_bind (fun _ => True)); [apply Hbody; now left|].
    intros _ _. apply IH. intros y Hy. apply Hbody. now right.
Qed.

Lemma yields_weaken {A} (R R' : A -> Prop) (m : Async W A) :
  (forall a, R a -> R' a) -> yields Q R m -> yields Q R' m.
Proof.
  intros Himpl Hm w Hw. destruct (Hm w Hw) as (a & Hrun & Ha & Hw'). eauto.
Qed.
End Yields.

(** ** The backfill *)

Lemma backfilling_view id total (w w' : World MemStorage.t) :
  storage w' = storage w -> bull w' = bull w -> backfilling id total w -> backfilling id total w'.
Proof.
  unfold backfilling, job_of. intros -> -> H. exact H.
Qed.

Lemma besides_network_storage {S : Type} (w w' : World S) :
  besides_network w' = besides_network w -> storage w' = storage w /\ bull w' = bull w.
Proof. unfold besides_network. intros H. split; congruence. Qed.

Lemma batchGetHistoricalPrices_returns {Store : Type} tokenAddress network timestamps
      (w : World Store) :
  exists prices,
    fst (batchGetHistoricalPrices tokenAddress network timestamps w) = Return prices.
Proof.
  unfold batchGetHistoricalPrices.
  destruct (batchLoop_length tokenAddress network timestamps
              (loop_indices (List.length timestamps) 10) [] w) as (prices & Hprices & _).
  eauto.
Qed.

Lemma yields_createHistoricalPrice (Q : World MemStorage.t -> Prop) price :
  (forall w st, MemStorage.bulkFetchJobs st = MemStorage.bulkFetchJobs (storage w) ->
                Q w -> Q (with_storage st w)) ->
  yields Q (fun _ => True) (IStorage.createHistoricalPrice memStorage price).
Proof.
  intros Hstable w Hw. eexists. split; [reflexivity|]. split; [exact I|].
  cbn [snd]. apply Hstable; [reflexivity | exact Hw].
Qed.

Lemma backfilling_jobs id total (w : World MemStorage.t) st :
  MemStorage.bulkFetchJobs st = MemStorage.bulkFetchJobs (storage w) ->
  backfilling id total w -> backfilling id total (with_storage st w).
Proof.
  unfold backfilling, job_of. cbn [storage bull with_storage]. now intros ->.
Qed.

Lemma yields_progress_update id total progress :
  yields (backfilling id total) (fun _ => True)
         (IStorage.updateBulkFetchJob memStorage id (JobUpdates.mk None (Some progress) None)).
Proof.
  intros w (Hbull & job & Hjob & Hstatus & Htotal).
  exists tt. split; [reflexivity|]. split; [exact I|].
  destruct (mem_update_run id (JobUpdates.mk None (Some progress) None) w job Hjob)
    as (_ & Hjob' & _).
  split; [exact Hbull|]. eexists. split; [exact Hjob'|]. split; assumption.
Qed.

Lemma yields_job_updateProgress id total progress :
  yields (backfilling id total) (fun _ => True) (job_updateProgress progress).
Proof.
  intros w (Hbull & Hjob). unfold job_updateProgress. rewrite Hbull.
  exists tt. split; [reflexivity|]. split; [exact I|]. split; [reflexivity | exact Hjob].
Qed.

Lemma yields_processBatch id total tokenAddress network timestamps i :
  yields (backfilling id total) (fun _ => True)
         (processBatch memStorage tokenAddress network id timestamps 10 i).
Proof.
  unfold processBatch.
  apply (yields_bind _ (fun _ => True)).
  { intros w Hw.
    destruct (batchGetHistoricalPrices_returns tokenAddress network
                (slice i (i + 10) timestamps) w) as [prices Hprices].
    exists prices. split; [exact Hprices|]. split; [exact I|].
    pose proof (frames_batchGetHistoricalPrices tokenAddress network
                  (slice i (i + 10) timestamps) w) as Hframe.
    apply besides_network_storage in Hframe. destruct Hframe as [Hstorage Hbull].
    now apply (backfilling_view id total w). }
  intros prices _. apply (yields_bind _ (fun _ => True)).
  { apply yields_forEach. intros [timestamp [price|]] _; cbn [snd fst].
    - apply (yields_bind _ (fun _ => True)); [|intros; now apply yields_ret].
      apply yields_createHistoricalPrice. intros w st. apply backfilling_jobs.
    - now apply yields_ret. }
  intros _ _. apply (yields_bind _ (fun _ => True)); [apply yields_progress_update|].
  intros _ _. apply yields_job_updateProgress.
Qed.

Lemma dailyTimestamps_length creationTimestamp now :
  Z.of_nat (List.length (dailyTimestamps creationTimestamp now))
  = Z.max 0 ((now - creationTimestamp) / 86400 + 1).
Proof.
  unfold dailyTimestamps. rewrite length_map, length_seq.
  change (24 * 60 * 60) with 86400. lia.
Qed.

Lemma yields_frame {W V A : Type} (Q P : W -> Prop) (R : A -> Prop) (view : W -> V)
      (m : Async W A) :
  (forall w w', view w' = view w -> P w -> P w') ->
  frames view m -> yields Q R m -> yields (fun w => Q w /\ P w) R m.
Proof.
  intros Hview Hframe Hm w [Hq Hp].
  destruct (Hm w Hq) as (a & Hrun & Ha & Hq').
  exists a. split; [exact Hrun|]. split; [exact Ha|]. split; [exact Hq'|].
  apply (Hview w); [apply Hframe | exact Hp].
Qed.

(** The run of [processJob] once the creation date is known and the
    connection of the queue is up, for a property [P] of the world that
    the network calls and the updates of the job keep, and that every
    turn of the batch loop keeps. *)
Lemma processJob_completes_with (P : World MemStorage.t -> Prop)
      (job : BulkFetchJobData) (w : World MemStorage.t) (record : BulkFetchJob.t)
      (creationTimestamp : Z) :
  (forall w1 w2, besides_network w2 = besides_network w1 -> P w1 -> P w2) ->
  (forall updates w1,
      P w1 -> P (snd (IStorage.updateBulkFetchJob memStorage (data_jobId job) updates w1))) ->
  (forall total timestamps i,
      yields (fun w1 => backfilling (data_jobId job) total w1 /\ P w1) (fun _ => True)
             (processBatch memStorage (data_tokenAddress job) (data_network job)
                           (data_jobId job) timestamps 10 i)) ->
  P w ->
  job_of (data_jobId job) w = Some record ->
  Bull.reachable (bull w) = true ->
  let creation :=
    getTokenCreationDate (data_tokenAddress job) (data_network job) (picked job w) in
  fst creation = Return (Some creationTimestamp) ->
  creationTimestamp <> 0 ->
  let now := clock (snd creation) / 1000 in
  let result := processJob memStorage job w in
  fst result = Return tt
  /\ P (snd result)
  /\ exists final,
       job_of (data_jobId job) (snd result) = Some final
       /\ BulkFetchJob.status final = "completed"
       /\ BulkFetchJob.progress final = Some (of_Z 100)
       /\ BulkFetchJob.totalDays final
          = Some (Z.max 0 ((now - creationTimestamp) / 86400 + 1))
       /\ BulkFetchJob.completedAt final = Some (clock (snd result)).
Proof.
  intros Hnetwork Hupdate Hbatch Hp Hjob Hbull creation Hcreation Hnonzero now result.
  subst result. rewrite processJob_run, processJob_try_run. cbv zeta.
  unfold picked in creation. fold creation. rewrite Hcreation.
  assert (Hinteger : integer_or_null (Some creationTimestamp) = Some creationTimestamp).
  { simpl. destruct (Z.eqb_spec creationTimestamp 0); congruence. }
  rewrite Hinteger. fold now.
  set (timestamps := dailyTimestamps creationTimestamp now).
  pose proof (Hupdate (only_status "processing") w Hp) as Hp1.
  set (w1 := snd (IStorage.updateBulkFetchJob memStorage (data_jobId job)
                    (only_status "processing") w)) in *.
  set (w2 := snd creation) in *.
  destruct (mem_update_run (data_jobId job) (only_status "processing") w record Hjob)
    as (_ & Hjob1 & _). fold w1 in Hjob1.
  assert (Hframe2 : besides_network w2 = besides_network w1)
    by (unfold w2, creation; apply frames_getTokenCreationDate).
  pose proof (Hnetwork w1 w2 Hframe2 Hp1) as Hp2.
  apply besides_network_storage in Hframe2. destruct Hframe2 as [Hstorage2 Hbull2].
  assert (Hjob2 : job_of (data_jobId job) w2
                  = Some (MemStorage.updated (clock w) record (only_status "processing")))
    by (unfold job_of in *; now rewrite Hstorage2).
  set (total := JobUpdates.mk None None (Some (Z.of_nat (List.length timestamps)))).
  destruct (mem_update_run (data_jobId job) total w2 _ Hjob2) as (_ & Hjob3 & _).
  pose proof (Hupdate total w2 Hp2) as Hp3.
  set (w3 := snd (IStorage.updateBulkFetchJob memStorage (data_jobId job) total w2)) in *.
  assert (Hbackfilling : backfilling (data_jobId job) (Z.of_nat (List.length timestamps)) w3).
  { split.
    - unfold w3. cbn [snd IStorage.updateBulkFetchJob memStorage mem_updateBulkFetchJob
                      bull with_trace with_storage].
      rewrite Hbull2. exact Hbull.
    - eexists. split; [exact Hjob3|]. split; reflexivity. }
  destruct (yields_forEach
              (fun w0 => backfilling (data_jobId job) (Z.of_nat (List.length timestamps)) w0
                         /\ P w0)
              (loop_indices (List.length timestamps) 10)
              (processBatch memStorage (data_tokenAddress job) (data_network job)
                            (data_jobId job) timestamps 10)
              (fun i _ => Hbatch _ timestamps i) w3 (conj Hbackfilling Hp3))
    as ([] & Hloop & _ & (_ & current & Hjob4 & Hstatus4 & Htotal4) & Hp4).
  destruct (forEach _ _ w3) as [outcome w4]. cbn [fst snd] in *. subst outcome.
  destruct (mem_update_run (data_jobId job)
              (JobUpdates.mk (Some "completed") (Some (of_Z 100)) None) w4 current Hjob4)
    as (Hreturn & Hjob5 & _).
  pose proof (Hupdate (JobUpdates.mk (Some "completed") (Some (of_Z 100)) None) w4 Hp4)
    as Hp5.
  match goal with
  | |- context [IStorage.updateBulkFetchJob memStorage ?i ?u w4] =>
      destruct (IStorage.updateBulkFetchJob memStorage i u w4) as [outcome w5] eqn:Hfinal
  end.
  cbn [fst snd] in *. subst outcome.
  split; [reflexivity|]. split; [exact Hp5|].
  eexists. split; [exact Hjob5|].
  split; [reflexivity|]. split; [reflexivity|]. split.
  - cbn. rewrite Htotal4. f_equal. apply dailyTimestamps_length.
  - cbn. f_equal. injection Hfinal as <-. reflexivity.
Qed.



(** ** A provider that fails throughout *)

Section Rejected.
Context {Store : Type}.
Implicit Type w : World Store.

Lemma rejects_all_view w w' :
  besides_network w' = besides_network w -> rejects_all w -> rejects_all w'.
Proof.
  unfold besides_network, rejects_all. intros Hview Hrej i body.
  replace (Net.fetch (net w')) with (Net.fetch (net w)) by congruence. apply Hrej.
Qed.

Lemma getTokenPrice_rejected tokenAddress network timestamp w :
  rejects_all w -> fst (getTokenPrice tokenAddress network timestamp w) = Return None.
Proof.
  intros Hrej.
  destruct (pRetry_from_priceAttempt tokenAddress network timestamp 3 0 w)
    as (n & _ & _ & _ & _ & Hout & _).
  cbv zeta in Hout.
  destruct (Hrej (List.length (Net.fetched (net w)) + (n - 1))%nat
                 (Net.mkBody tokenAddress network timestamp)) as [e He].
  rewrite He in Hout.
  unfold getTokenPrice, pRetry, tryCatch. cbn [PRetry.retries retryOptions].
  destruct (pRetry_from _ _ _ _ w) as [[v|e'] w']; cbn [fst] in *; [discriminate | reflexivity].
Qed.

Lemma mapM_rejected tokenAddress network (batch : list Z) :
  forall w,
    rejects_all w ->
    exists prices,
      fst (mapM (fun timestamp => settled (getTokenPrice tokenAddress network timestamp))
                batch w) = Return prices
      /\ Forall (eq None) prices.
Proof.
  induction batch as [|timestamp batch IH]; intros w Hrej; simpl.
  - exists []. split; [reflexivity | constructor].
  - unfold bind at 1, settled at 1, tryCatch.
    pose proof (getTokenPrice_rejected tokenAddress network timestamp w Hrej) as Hnone.
    pose proof (frames_getTokenPrice tokenAddress network timestamp w) as Hframe.
    destruct (getTokenPrice tokenAddress network timestamp w) as [outcome w1].
    cbn [fst snd] in *. subst outcome.
    destruct (IH w1 (rejects_all_view _ _ Hframe Hrej)) as (prices & Hrun & Hall).
    unfold bind at 1. destruct (mapM _ batch w1) as [outcome w2].
    cbn [fst] in Hrun. subst outcome.
    exists (None :: prices). split; [reflexivity | now constructor].
Qed.

Lemma batchLoop_rejected tokenAddress network (timestamps : list Z) (indices : list nat) :
  forall results w,
    rejects_all w ->
    Forall (eq None) results ->
    exists prices,
      fst (batchLoop tokenAddress network timestamps indices results w) = Return prices
      /\ Forall (eq None) prices.
Proof.
  induction indices as [|i indices IH]; intros results w Hrej Hresults; simpl.
  - exists results. split; [reflexivity | exact Hresults].
  - unfold bind at 1.
    destruct (mapM_rejected tokenAddress network (slice i (i + 10) timestamps) w Hrej)
      as (batchResults & Hrun & Hall).
    pose proof (frames_mapM (@besides_network Store)
                  (fun timestamp => settled (getTokenPrice tokenAddress network timestamp))
                  (slice i (i + 10) timestamps)) as Hframe.
    specialize (Hframe ltac:(intros timestamp; unfold settled;
                             apply frames_tryCatch;
                             [apply frames_getTokenPrice | auto with frames]) w).
    destruct (mapM _ (slice i (i + 10) timestamps) w) as [outcome w1].
    cbn [fst snd] in *. subst outcome.
    unfold bind at 1.
    assert (Hwait : exists w2,
               (if (i + 10 <? List.length timestamps)%nat then sleep 1000 else ret tt) w1
               = (Return tt, w2)
               /\ besides_network w2 = besides_network w1).
    { destruct (i + 10 <? List.length timestamps)%nat; eexists; split; reflexivity. }
    destruct Hwait as (w2 & -> & Hframe2).
    apply IH.
    + apply (rejects_all_view w1); [exact Hframe2|]. now apply (rejects_all_view w).
    + apply Forall_app. split; assumption.
Qed.

Lemma batchGetHistoricalPrices_rejected tokenAddress network (timestamps : list Z) w :
  rejects_all w ->
  exists prices,
    fst (batchGetHistoricalPrices tokenAddress network timestamps w) = Return prices
    /\ Forall (eq None) prices.
Proof.
  intros Hrej. unfold batchGetHistoricalPrices.
  apply batchLoop_rejected; [exact Hrej | constructor].
Qed.
End Rejected.

(** The world has the price points [points] and an endpoint that
    rejects every request. *)
Lemma yields_processBatch_rejected id total points tokenAddress network timestamps i :
  yields (fun w => backfilling id total w
                   /\ rejects_all w
                      /\ MemStorage.historicalPrices (storage w) = points)
         (fun _ => True)
         (processBatch memStorage tokenAddress network id timestamps 10 i).
Proof.
  set (P := fun w : World MemStorage.t =>
              rejects_all w /\ MemStorage.historicalPrices (storage w) = points).
  assert (Hview : forall w w' : World MemStorage.t,
             (Net.fetch (net w'), MemStorage.historicalPrices (storage w'))
             = (Net.fetch (net w), MemStorage.historicalPrices (storage w)) ->
             P w -> P w').
  { intros w w' Heq [Hrej Hpoints]. inversion Heq as [[Hfetch Hprices]]. split.
    - intros k body. rewrite Hfetch. apply Hrej.
    - congruence. }
  unfold processBatch.
  apply (yields_bind _ (Forall (eq None))).
  { intros w (Hb & Hrej & Hpoints).
    destruct (batchGetHistoricalPrices_rejected tokenAddress network
                (slice i (i + 10) timestamps) w Hrej) as (prices & Hrun & Hnone).
    exists prices. split; [exact Hrun|]. split; [exact Hnone|].
    pose proof (frames_batchGetHistoricalPrices tokenAddress network
                  (slice i (i + 10) timestamps) w) as Hframe.
    split; [|apply (Hview w); [|now split]].
    - apply besides_network_storage in Hframe. destruct Hframe as [Hstorage Hbull].
      now apply (backfilling_view id total w).
    - unfold besides_network in Hframe. f_equal; congruence. }
  intros prices Hnone. apply (yields_bind _ (fun _ => True)).
  { apply yields_forEach. intros [timestamp price] Hin.
    apply in_combine_r in Hin. rewrite List.Forall_forall in Hnone.
    rewrite <- (Hnone price Hin). cbn [snd]. now apply yields_ret. }
  intros _ _. apply (yields_bind _ (fun _ => True)).
  - apply (yields_frame _ P _ (fun w => (Net.fetch (net w),
                                          MemStorage.historicalPrices (storage w))));
      [exact Hview | | apply yields_progress_update].
    intros w. cbn [snd IStorage.updateBulkFetchJob memStorage mem_updateBulkFetchJob
                   net storage with_trace with_storage].
    unfold MemStorage.updateBulkFetchJob.
    destruct (Map_get id (MemStorage.bulkFetchJobs (storage w))); reflexivity.
  - intros _ _.
    apply (yields_frame _ P _ (fun w => (Net.fetch (net w),
                                          MemStorage.historicalPrices (storage w))));
      [exact Hview | | apply yields_job_updateProgress].
    intros w. unfold job_updateProgress. destruct (Bull.reachable (bull w)); reflexivity.
Qed.

(** X22. A backfill during which the price endpoint rejects every
    request still ends [completed] with progress 100: [processJob]
    returns normally, and not one price point has been stored. *)
Theorem processJob_completes_without_prices :
  forall (job : BulkFetchJobData) (w : World MemStorage.t) (record : BulkFetchJob.t)
         (creationTimestamp : Z),
    job_of (data_jobId job) w = Some record ->
    Bull.reachable (bull w) = true ->
    fst (getTokenCreationDate (data_tokenAddress job) (data_network job) (picked job w))
    = Return (Some creationTimestamp) ->
    creationTimestamp <> 0 ->
    rejects_all w ->
    let result := processJob memStorage job w in
    fst result = Return tt
    /\ MemStorage.historicalPrices (storage (snd result))
       = MemStorage.historicalPrices (storage w)
    /\ exists final,
         job_of (data_jobId job) (snd result) = Some final
         /\ BulkFetchJob.status final = "completed"
         /\ BulkFetchJob.progress final = Some (of_Z 100).
Proof.
  intros job w record creationTimestamp Hjob Hbull Hcreation Hnonzero Hrej result.
  destruct (processJob_completes_with
              (fun w0 => rejects_all w0
                         /\ MemStorage.historicalPrices (storage w0)
                            = MemStorage.historicalPrices (storage w))
              job w record creationTimestamp)
    as (Hreturn & [_ Hpoints] & final & Hfinal & Hstatus & Hprogress & _); auto.
  - intros w1 w2 Hview [Hrej1 Hpoints1]. split; [now apply (rejects_all_view w1)|].
    apply besides_network_storage in Hview. destruct Hview as [Hstorage _]. congruence.
  - intros updates w1 [Hrej1 Hpoints1].
    cbn [snd IStorage.updateBulkFetchJob memStorage mem_updateBulkFetchJob].
    unfold rejects_all. cbn [net storage with_trace with_storage].
    split; [exact Hrej1|]. rewrite <- Hpoints1. unfold MemStorage.updateBulkFetchJob.
    destruct (Map_get (data_jobId job) (MemStorage.bulkFetchJobs (storage w1))); reflexivity.
  - intros total timestamps i. apply yields_processBatch_rejected.
  - split; [exact Hreturn|]. split; [exact Hpoints|]. eauto.
Qed.

Lemma processJob_completes_without_prices_witness :
  let w := scheduled_world always_404 1701209600000 in
  let result := processJob memStorage sample_job w in
  fst result = Return tt
  /\ MemStorage.historicalPrices (storage (snd result)) = []
  /\ exists final,
       job_of 1 (snd result) = Some final
       /\ BulkFetchJob.status final = "completed"
       /\ BulkFetchJob.progress final = Some (of_Z 100).
Proof.
  intros w result.
  apply (processJob_completes_without_prices sample_job w
           (BulkFetchJob.mk 1 "0xabc" "ethereum" "pending" None None 1701209600000 None)
           1700000000);
    [reflexivity | reflexivity | reflexivity | discriminate |].
  intros i body. exists (mkError "HTTP error! status: 404"). reflexivity.
Defined.

(** ** A queue job without its record *)

Lemma preserves_tryCatch {W A : Type} (P : W -> Prop) (m : Async W A)
      (handler : Error -> Async W A) :
  preserves P m -> (forall e, preserves P (handler e)) -> preserves P (tryCatch m handler).
Proof.
  intros Hm Hh w Hw. unfold tryCatch. specialize (Hm w Hw).
  destruct (m w) as [[a|e] w']; cbn [snd] in *; [exact Hm | now apply Hh].
Qed.

Lemma update_without_record id updates (jobs : Map Z BulkFetchJob.t)
      (trace : list BulkFetchJob.t) :
  Map_get id jobs = None ->
  preserves (fun w => job_view w = (jobs, trace))
            (IStorage.updateBulkFetchJob memStorage id updates).
Proof.
  intros Hnone w Hview. unfold job_view in *. inversion Hview as [[Hjobs Htrace]].
  cbn [snd IStorage.updateBulkFetchJob memStorage mem_updateBulkFetchJob
       storage jobTrace with_trace with_storage].
  unfold MemStorage.updateBulkFetchJob. rewrite Hjobs, Hnone, Hjobs, Hnone.
  now rewrite app_nil_r.
Qed.

(** X23. When the storage holds no job under the id of a queue job
    (the storage is in memory and starts empty, while the queue
    persists), [processJob] still runs the whole backfill, but records
    none of it: the table of jobs and the history of job updates are as
    they were, so the job never shows as active, completed or
    failed. *)
Theorem processJob_without_record :
  forall (job : BulkFetchJobData) (w : World MemStorage.t),
    job_of (data_jobId job) w = None ->
    let result := processJob memStorage job w in
    MemStorage.bulkFetchJobs (storage (snd result)) = MemStorage.bulkFetchJobs (storage w)
    /\ jobTrace (snd result) = jobTrace w
    /\ MemStorage.getActiveBulkFetchJobs (storage (snd result))
       = MemStorage.getActiveBulkFetchJobs (storage w).
Proof.
  intros job w Hnone result.
  set (P := fun w0 : World MemStorage.t =>
              job_view w0 = (MemStorage.bulkFetchJobs (storage w), jobTrace w)).
  assert (Hview : forall w0 w1 : World MemStorage.t, job_view w1 = job_view w0 -> P w0 -> P w1)
    by (unfold P; intros w0 w1 -> H; exact H).
  assert (Hupdate : forall updates,
             preserves P (IStorage.updateBulkFetchJob memStorage (data_jobId job) updates))
    by (intros updates; now apply update_without_record).
  assert (Hkept : P (snd result)).
  { subst result. unfold processJob.
    apply preserves_tryCatch; [| |reflexivity].
    - unfold processJob_try.
      apply preserves_bind; [apply Hupdate|]. intros _.
      apply preserves_bind.
      { apply (frames_preserves _ job_view); [exact Hview|].
        apply frames_job_view_network, frames_getTokenCreationDate. }
      intros creationTimestamp.
      destruct (integer_or_null creationTimestamp) as [creation|];
        [|apply preserves_throw].
      apply preserves_bind; [intros w0 H; exact H|]. intros millis.
      apply preserves_bind; [apply Hupdate|]. intros _.
      apply preserves_bind; [|intros _; apply Hupdate].
      apply preserves_forEach. intros i. unfold processBatch.
      apply preserves_bind.
      { apply (frames_preserves _ job_view); [exact Hview|].
        apply frames_job_view_network, frames_batchGetHistoricalPrices. }
      intros prices. apply preserves_bind.
      { apply preserves_forEach. intros [timestamp [price|]]; cbn [snd fst].
        - apply preserves_bind; [|intros; apply preserves_ret].
          apply (frames_preserves _ job_view); [exact Hview|].
          apply frames_job_view_createHistoricalPrice.
        - apply preserves_ret. }
      intros _. apply preserves_bind; [apply Hupdate|].
      intros _. apply (frames_preserves _ job_view); [exact Hview|].
      apply frames_job_view_updateProgress.
    - intros e. apply preserves_bind; [apply Hupdate | intros _; apply preserves_throw]. }
  unfold P, job_view in Hkept. inversion Hkept as [[Hjobs Htrace]].
  split; [reflexivity|]. split; [reflexivity|].
  unfold MemStorage.getActiveBulkFetchJobs. now rewrite Hjobs.
Qed.

Lemma processJob_without_record_witness :
  let w := sample_world MemStorage.empty ∅ price_15 1701209600000 in
  let result := processJob memStorage sample_job w in
  MemStorage.bulkFetchJobs (storage (snd result)) = []
  /\ jobTrace (snd result) = []
  /\ List.length (MemStorage.historicalPrices (storage (snd result))) = 15%nat.
Proof.
  intros w result.
  destruct (processJob_without_record sample_job w) as (Hjobs & Htrace & _);
    [reflexivity|].
  split; [exact Hjobs|]. split; [exact Htrace|]. vm_compute. reflexivity.
Defined.

(* ===================================================================== *)
(** * Interpolation, beyond the claims                                    *)
(* ===================================================================== *)

Lemma binary_round_aux_sign s m e l :
  match binary_round_aux prec emax s m e l with
  | S754_zero s' | S754_infinity s' | S754_finite s' _ _ => s' = s
  | S754_nan => True
  end.
Proof.
  unfold binary_round_aux.
  destruct (shr_fexp prec emax m e l) as [mrs e'].
  destruct (shr_fexp prec emax _ e' loc_Exact) as [mrs' e''].
  destruct (shr_m mrs') as [|p|p]; [reflexivity | | exact I].
  destruct (e'' <=? emax - prec); reflexivity.
Qed.

Lemma div_by_nan_or_negative x y :
  nan_or_negative y -> nan_or_negative (div (abs x) y).
Proof.
  intros Hy. unfold div.
  destruct x as [sx|sx| |sx mx ex], y as [[]|[]| |[] my ey]; simpl in *;
    try contradiction; try exact I.
  destruct (SFdiv_core_binary prec emax (Z.pos mx) ex (Z.pos my) ey) as [[mz ez] lz].
  pose proof (binary_round_aux_sign true mz ez lz) as Hsign.
  destruct (binary_round_aux prec emax true mz ez lz); try subst; exact I.
Qed.

Lemma nan_or_negative_not_above_half x : nan_or_negative x -> gt x one_half = false.
Proof. destruct x as [[]|[]| |[] m e]; simpl; intros H; try contradiction; reflexivity. Qed.

(** X24. The check of the price change in [canInterpolate] compares
    [|after - before| / before] with 0.5, so it rejects nothing when
    [before.price] does not read as a number, or reads as a negative
    number or [-0], or when [after.price] does not read as a number:
    the quotient is then [NaN] or negative, and every pair of points
    whose timestamps are eligible is accepted. *)
Theorem canInterpolate_accepts_unchecked_prices :
  forall (before after : HistoricalPrice.t) (target : Z),
    HistoricalPrice.timestamp before < target < HistoricalPrice.timestamp after ->
    HistoricalPrice.timestamp after - HistoricalPrice.timestamp before <= 604800 ->
    nan_or_negative (parseFloat (HistoricalPrice.price before))
    \/ parseFloat (HistoricalPrice.price after) = NaN ->
    InterpolationService.canInterpolate before after target = true.
Proof.
  intros before after target Hbetween Hgap Hprices.
  unfold InterpolationService.canInterpolate.
  destruct (Z.leb_spec target (HistoricalPrice.timestamp before)); [lia|].
  destruct (Z.leb_spec (HistoricalPrice.timestamp after) target); [lia|].
  cbn [orb].
  destruct (Z.ltb_spec (7 * 24 * 60 * 60)
                       (HistoricalPrice.timestamp after - HistoricalPrice.timestamp before));
    [lia|].
  rewrite nan_or_negative_not_above_half; [reflexivity|].
  destruct Hprices as [Hbefore | Hafter].
  - now apply div_by_nan_or_negative.
  - rewrite Hafter. unfold sub, div.
    destruct (parseFloat (HistoricalPrice.price before)) as [s|s| |s m e]; exact I.
Qed.

Lemma canInterpolate_accepts_unchecked_prices_witness :
  InterpolationService.canInterpolate (point 1000 "-1") (point 2000 "1000") 1500 = true
  /\ InterpolationService.canInterpolate (point 1000 "n/a") (point 2000 "20") 1500 = true.
Proof.
  split; apply canInterpolate_accepts_unchecked_prices;
    first [ simpl; lia | left; vm_compute; exact I ].
Defined.

(** X25. [interpolatePrice] does not check that the two points differ
    in time: when [before.timestamp = after.timestamp] the ratio is a
    division by zero, and neither the ratio nor the price it returns is
    a finite number (each is [NaN] or an infinity), whatever the target
    and the prices. *)
Theorem interpolatePrice_equal_timestamps :
  forall (target : Z) (before after : HistoricalPrice.t),
    HistoricalPrice.timestamp before = HistoricalPrice.timestamp after ->
    let result := InterpolationService.interpolatePrice target before after in
    ~ finite_number (InterpolationService.ratio (InterpolationService.details result))
    /\ ~ finite_number (InterpolationService.price result).
Proof.
  intros target before after Hsame result. subst result.
  unfold InterpolationService.interpolatePrice. cbn.
  rewrite <- Hsame, Z.sub_diag. change (of_Z 0) with (S754_zero false).
  set (ratio := div (of_Z (target - HistoricalPrice.timestamp before)) (S754_zero false)).
  assert (Hratio : ~ finite_number ratio).
  { unfold ratio, div. destruct (of_Z _) as [s|s| |s m e]; simpl; tauto. }
  split; [exact Hratio|].
  set (change := sub (parseFloat (HistoricalPrice.price after))
                     (parseFloat (HistoricalPrice.price before))).
  assert (Hmul : ~ finite_number (mul change ratio)).
  { unfold mul. destruct change as [s|s| |s m e], ratio as [s'|s'| |s' m' e'];
      simpl in *; tauto. }
  unfold add.
  destruct (parseFloat (HistoricalPrice.price before)) as [[]|[]| |s m e],
           (mul change ratio) as [s'|[]| |s' m' e']; simpl in *; tauto.
Qed.

Lemma interpolatePrice_equal_timestamps_witness :
  InterpolationService.price
    (InterpolationService.interpolatePrice 1000 (point 1000 "10") (point 1000 "20"))
  <> of_Z 15.
Proof.
  destruct (interpolatePrice_equal_timestamps 1000 (point 1000 "10") (point 1000 "20"))
    as [_ Hprice]; [reflexivity|].
  intros Heq. apply Hprice. rewrite Heq. exact I.
Defined.

(** ** The active jobs after a run *)

Lemma Map_set_twice {K V : Type} `{EqDecision K} (k : K) (v1 v2 : V) (m : Map K V) :
  Map_set k v2 (Map_set k v1 m) = Map_set k v2 m.
Proof.
  induction m as [|[k' v'] m IH]; simpl.
  - now rewrite decide_True.
  - destruct (decide (k' = k)) as [->|Hne]; simpl.
    + now rewrite decide_True.
    + rewrite decide_False by exact Hne. now rewrite IH.
Qed.

(** The table of jobs is the table [jobs] with the record under [id]
    replaced. *)
Lemma replaced_kept id (jobs : Map Z BulkFetchJob.t) updates :
  preserves (fun w : World MemStorage.t =>
               exists job, MemStorage.bulkFetchJobs (storage w) = Map_set id job jobs)
            (IStorage.updateBulkFetchJob memStorage id updates).
Proof.
  intros w [job Hjobs].
  cbn [snd IStorage.updateBulkFetchJob memStorage mem_updateBulkFetchJob
       storage with_trace with_storage].
  unfold MemStorage.updateBulkFetchJob. rewrite Hjobs, Map_get_set_eq. simpl.
  eexists. apply Map_set_twice.
Qed.

Lemma active_without_key (k : Z) (m : Map Z BulkFetchJob.t) (active : BulkFetchJob.t -> bool) :
  ~ In k (map fst m) ->
  Forall (fun entry => BulkFetchJob.id (snd entry) = fst entry) m ->
  List.filter (fun j => negb (BulkFetchJob.id j =? k)) (List.filter active (map snd m))
  = List.filter active (map snd m).
Proof.
  induction m as [|[k' v'] m IH]; intros Hout Hids; simpl; [reflexivity|].
  inversion Hids as [|? ? Hid Hrest]; subst. simpl in Hid, Hout.
  destruct (active v'); simpl.
  - destruct (Z.eqb_spec (BulkFetchJob.id v') k) as [Heq|Hne]; [exfalso; apply Hout; lia|].
    simpl. f_equal. apply IH; [tauto | exact Hrest].
  - apply IH; [tauto | exact Hrest].
Qed.

Lemma active_after_replace (k : Z) (final : BulkFetchJob.t) (m : Map Z BulkFetchJob.t)
      (active : BulkFetchJob.t -> bool) :
  List.NoDup (map fst m) ->
  Forall (fun entry => BulkFetchJob.id (snd entry) = fst entry) m ->
  In k (map fst m) ->
  active final = false ->
  List.filter active (map snd (Map_set k final m))
  = List.filter (fun j => negb (BulkFetchJob.id j =? k)) (List.filter active (map snd m)).
Proof.
  induction m as [|[k' v'] m IH]; intros Hnodup Hids Hin Hfinal; simpl; [destruct Hin|].
  inversion Hnodup as [|? ? Hout Hnodup']; subst.
  inversion Hids as [|? ? Hid Hrest]; subst. simpl in Hid.
  destruct (decide (k' = k)) as [->|Hne]; simpl.
  - rewrite Hfinal. destruct (active v'); simpl.
    + rewrite Hid, Z.eqb_refl. simpl. symmetry. now apply active_without_key.
    + symmetry. now apply active_without_key.
  - destruct Hin as [Heq|Hin]; [simpl in Heq; congruence|].
    destruct (active v'); simpl.
    + destruct (Z.eqb_spec (BulkFetchJob.id v') k) as [Heq|_]; [congruence|].
      simpl. f_equal. now apply IH.
    + now apply IH.
Qed.

(** X20. When [processJob] ends, by returning or by throwing, the job
    it ran has left the active jobs and no other job has: the list of
    [getActiveBulkFetchJobs] is the list before the run without the job
    of that id. *)
Theorem processJob_leaves_active_jobs :
  forall (job : BulkFetchJobData) (w : World MemStorage.t) (record : BulkFetchJob.t),
    consistent (storage w) ->
    job_of (data_jobId job) w = Some record ->
    let result := processJob memStorage job w in
    MemStorage.getActiveBulkFetchJobs (storage (snd result))
    = List.filter (fun j => negb (BulkFetchJob.id j =? data_jobId job))
                  (MemStorage.getActiveBulkFetchJobs (storage w)).
Proof.
  intros job w record (_ & (_ & Hkeys & Hids) & _) Hjob result.
  set (id := data_jobId job) in *.
  set (jobs := MemStorage.bulkFetchJobs (storage w)).
  set (P := fun w0 : World MemStorage.t =>
              exists j, MemStorage.bulkFetchJobs (storage w0) = Map_set id j jobs).
  assert (Hview : forall w0 w1 : World MemStorage.t, job_view w1 = job_view w0 -> P w0 -> P w1).
  { unfold P, job_view. intros w0 w1 Heq [j Hj]. exists j. congruence. }
  assert (Hpresent : In id (map fst jobs)).
  { unfold job_of in Hjob. apply Map_get_In in Hjob. now apply (in_map fst) in Hjob. }
  assert (Hstart : P w).
  { exists record. unfold jobs. unfold job_of in Hjob. clear -Hjob.
    induction (MemStorage.bulkFetchJobs (storage w)) as [|[k v] m IH]; simpl in *;
      [discriminate|].
    destruct (decide (k = id)) as [->|Hne]; [congruence|]. now rewrite <- IH. }
  assert (Hkept : P (snd result)).
  { subst result. unfold processJob.
    apply preserves_tryCatch; [| |exact Hstart].
    - unfold processJob_try.
      apply preserves_bind; [apply replaced_kept|]. intros _.
      apply preserves_bind.
      { apply (frames_preserves _ job_view); [exact Hview|].
        apply frames_job_view_network, frames_getTokenCreationDate. }
      intros creationTimestamp.
      destruct (integer_or_null creationTimestamp) as [creation|];
        [|apply preserves_throw].
      apply preserves_bind; [intros w0 H; exact H|]. intros millis.
      apply preserves_bind; [apply replaced_kept|]. intros _.
      apply preserves_bind; [|intros _; apply replaced_kept].
      apply preserves_forEach. intros i. unfold processBatch.
      apply preserves_bind.
      { apply (frames_preserves _ job_view); [exact Hview|].
        apply frames_job_view_network, frames_batchGetHistoricalPrices. }
      intros prices. apply preserves_bind.
      { apply preserves_forEach. intros [timestamp [price|]]; cbn [snd fst].
        - apply preserves_bind; [|intros; apply preserves_ret].
          apply (frames_preserves _ job_view); [exact Hview|].
          apply frames_job_view_createHistoricalPrice.
        - apply preserves_ret. }
      intros _. apply preserves_bind; [apply replaced_kept|].
      intros _. apply (frames_preserves _ job_view); [exact Hview|].
      apply frames_job_view_updateProgress.
    - intros e. apply preserves_bind; [apply replaced_kept | intros _; apply preserves_throw]. }
  assert (Hfinal : exists final,
             job_of id (snd result) = Some final
             /\ (BulkFetchJob.status final = "completed"
                 \/ BulkFetchJob.status final = "failed")).
  { subst result. unfold id in *. rewrite processJob_run.
    pose proof (picked_processing job w record Hjob) as Hpicked. unfold picked in Hpicked.
    destruct (processJob_try_outcome (data_tokenAddress job) (data_network job)
                (data_jobId job) (jobTrace w) w Hpicked)
      as [(e & Hthrow & Hsince) | (w4 & Hsince & Hrun)].
    - destruct (processJob_try _ _ _ _ w) as [outcome w']. cbn [fst snd] in *.
      subst outcome. destruct Hsince as (steps & current & Hcurrent & _).
      destruct (mem_update_run (data_jobId job) (only_status "failed") w' current Hcurrent)
        as (_ & Hstored & _).
      eexists. split; [exact Hstored|]. right. reflexivity.
    - rewrite Hrun. destruct Hsince as (steps & current & Hcurrent & _).
      destruct (mem_update_run (data_jobId job)
                  (JobUpdates.mk (Some "completed") (Some (of_Z 100)) None)
                  w4 current Hcurrent) as (Hreturn & Hstored & _).
      destruct (IStorage.updateBulkFetchJob memStorage (data_jobId job) _ w4)
        as [outcome w5].
      cbn [fst snd] in *. subst outcome.
      eexists. split; [exact Hstored|]. left. reflexivity. }
  destruct Hkept as [j Hjobs]. destruct Hfinal as (final & Hstored & Hstatus).
  unfold job_of in Hstored. rewrite Hjobs, Map_get_set_eq in Hstored.
  injection Hstored as ->.
  unfold MemStorage.getActiveBulkFetchJobs, Map_values. rewrite Hjobs. fold jobs.
  apply active_after_replace.
  - unfold jobs. rewrite Hkeys. unfold ids_before.
    apply Finite.Injective_map_NoDup; [intros a b; lia | apply seq_NoDup].
  - exact Hids.
  - exact Hpresent.
  - destruct Hstatus as [-> | ->]; reflexivity.
Qed.

Lemma processJob_leaves_active_jobs_witness :
  let w := scheduled_world price_15 1701209600000 in
  List.length (MemStorage.getActiveBulkFetchJobs (storage w)) = 1%nat
  /\ MemStorage.getActiveBulkFetchJobs (storage (snd (processJob memStorage sample_job w)))
     = [].
Proof.
  intros w. split; [reflexivity|].
  rewrite (processJob_leaves_active_jobs sample_job w
             (BulkFetchJob.mk 1 "0xabc" "ethereum" "pending" None None 1701209600000 None)).
  - reflexivity.
  - apply (consistent_call MemStorage.empty
             (CreateBulkFetchJob 1701209600000
                (InsertBulkFetchJob.mk "0xabc" "ethereum" "pending" (Some (of_Z 0)) None))),
      consistent_empty.
  - reflexivity.
Defined.
